(** * FOAM / pypulse: the pulsation-pattern matching engine

    A shallow embedding of [chisq_longest_sequence], [generate_obs_series],
    [generate_thry_series], [puls_series_from_given_puls] and the loop over
    the split-off parts of the observed pattern in
    [theoretical_pattern_from_dfrow] (src/pypulse/functions_for_gyre.py),
    with the properties of the matching engine proved or refuted on it.
    After them come the whole of [theoretical_pattern_from_dfrow] with
    the split of the observed pattern at its interruption marks,
    [calculate_k], the radial orders of [calc_scanning_range], and the
    string functions and [sign] of src/foam/support_functions.py.

    [chisq_longest_sequence] is embedded twice: as an expression of the
    contents of its four arrays, and statement by statement over the
    objects of the interpreter, the second shown to do what the first
    says.

    numpy's float64 is Rocq's primitive binary64 [float]; its int64 is [Z];
    a Python exception is the [Raise] outcome of the [result] monad. *)

From Stdlib Require Import List ZArith Lia Bool Arith Sorted.
From Stdlib Require Import Floats.
From Stdlib Require Uint63.
From Stdlib Require Ascii String.
Import ListNotations.

Set Warnings "-inexact-float".
Set Implicit Arguments.

(* ================================================================== *)
(** * Python outcomes *)

(** The exceptions the embedded code can raise. *)
Inductive exn : Set :=
| IndexError
| ValueError
| TypeError
| SystemExit.

Inductive result (A : Type) : Type :=
| Ok (a : A)
| Raise (e : exn).

Arguments Ok {A} a.
Arguments Raise {A} e.

Definition bind {A B : Type} (c : result A) (k : A -> result B) : result B :=
  match c with
  | Ok a => k a
  | Raise e => Raise e
  end.

Declare Scope py_scope.
Delimit Scope py_scope with py.
Notation "x <- c ;; k" := (bind c (fun x => k))
  (at level 61, c at next level, right associativity) : py_scope.
Notation "' pat <- c ;; k" := (bind c (fun x => match x with pat => k end))
  (at level 61, pat pattern, c at next level, right associativity) : py_scope.
Open Scope py_scope.

Definition raises {A : Type} (c : result A) : Prop := exists e, c = Raise e.

Fixpoint mapM {A B : Type} (f : A -> result B) (l : list A) : result (list B) :=
  match l with
  | [] => Ok []
  | a :: l' => b <- f a ;; bs <- mapM f l' ;; Ok (b :: bs)
  end.

(* ================================================================== *)
(** * Python and numpy primitives used by the module *)

Module Py.

(** [a[i]] for [0 <= i]: IndexError out of range. *)
Definition getitem {A : Type} (a : list A) (i : nat) : result A :=
  match nth_error a i with
  | Some x => Ok x
  | None => Raise IndexError
  end.

(** [a[0]]. *)
Definition item0 {A : Type} (a : list A) : result A := getitem a 0.

(** Builtin [min] over floats: the first element that no later element
    is [<] than; ValueError on an empty sequence. *)
Definition min (l : list float) : result float :=
  match l with
  | [] => Raise ValueError
  | x :: r => Ok (fold_left (fun m y => if (y <? m)%float then y else m) r x)
  end.

(** Builtin [max] over floats, the item replaced when a later one is [>]. *)
Definition max (l : list float) : result float :=
  match l with
  | [] => Raise ValueError
  | x :: r => Ok (fold_left (fun m y => if (m <? y)%float then y else m) r x)
  end.

(** Builtin [max] over lengths. *)
Definition max_nat (l : list nat) : result nat :=
  match l with
  | [] => Raise ValueError
  | x :: r => Ok (fold_left (fun m y => if m <? y then y else m) r x)
  end.

(** [a[-k]] for [1 <= k]: counted from the end. *)
Definition getitem_neg {A : Type} (a : list A) (k : nat) : result A :=
  if (k =? 0) || (length a <? k) then Raise IndexError
  else getitem a (length a - k).

(** [a[lo:hi]] for [0 <= lo] and [0 <= hi]: clipped to the sequence. *)
Definition slice {A : Type} (a : list A) (lo hi : nat) : list A :=
  skipn lo (firstn hi a).

(** [enumerate(l)]. *)
Definition enumerate {A : Type} (l : list A) : list (nat * A) :=
  combine (seq 0 (length l)) l.

End Py.

Module Np.

(** [np.where(mask)[0]] (numpy's [nonzero]): the positions of the true
    entries, increasing. *)
Fixpoint nonzero_from (i : nat) (mask : list bool) : list nat :=
  match mask with
  | [] => []
  | b :: m => if b then i :: nonzero_from (S i) m else nonzero_from (S i) m
  end.

Definition nonzero (mask : list bool) : list nat := nonzero_from 0 mask.

(** [a[ind]] for an index array [ind]: IndexError when one index is out
    of range. *)
Definition take {A : Type} (a : list A) (ind : list nat) : result (list A) :=
  mapM (Py.getitem a) ind.

(** [np.delete(a, ind)]: a new array without the listed positions; the
    argument is left as it is. *)
Definition delete {A : Type} (a : list A) (ind : list nat) : list A :=
  map snd (filter (fun ix => negb (existsb (Nat.eqb (fst ix)) ind)) (Py.enumerate a)).

(** An elementwise operation on two arrays, a one-element array
    stretched to the length of the other; ValueError when the shapes
    cannot be broadcast together. *)
Definition broadcast2 (f : float -> float -> float) (a b : list float)
    : result (list float) :=
  if length a =? length b then Ok (map (fun xy => f (fst xy) (snd xy)) (combine a b))
  else match a, b with
       | _, [y] => Ok (map (fun x => f x y) a)
       | [x], _ => Ok (map (f x) b)
       | _, _ => Raise ValueError
       end.

(** An int64 converted to float64, as [np.array] does with a row that
    mixes floats and a Python int. *)
Definition float_of_int64 (z : Z) : float :=
  if (z =? -9223372036854775808)%Z then (-9223372036854775808)%float
  else if (z <? 0)%Z then (- of_uint63 (Uint63.of_Z (- z)))%float
       else of_uint63 (Uint63.of_Z z).

(** int64 arithmetic wraps around. *)
Definition wrap64 (z : Z) : Z :=
  ((z + 9223372036854775808) mod 18446744073709551616 - 9223372036854775808)%Z.

End Np.

(** [a ** 2] on a float64 array (lines 196 and 543): numpy squares
    each element, the IEEE product [x * x]. *)
Definition pow2 (x : float) : float := (x * x)%float.

(** A Python int used as a float64 operand ([len(x)] as a divisor). *)
Definition float_of_nat (n : nat) : float := of_uint63 (Uint63.of_Z (Z.of_nat n)).

(* ================================================================== *)
(** * The matching engine: [chisq_longest_sequence] *)

(** One row of [pairs_orders]: [[period, best_match, int(best_order),
    chisqs[min_ind][0]]], a row of a float64 array. *)
Record pair : Set := mkPair {
  obs_period : float;
  best_match : float;
  best_order : float;
  chisq : float
}.

(** What the function returns for the theoretical periods: a Python list
    on the early return, a numpy array otherwise. *)
Inductive pyseq : Set :=
| PyList (l : list float)
| NdArray (l : list float).

Definition values (s : pyseq) : list float :=
  match s with
  | PyList l => l
  | NdArray l => l
  end.

Section Engine.

(** [np.sum] of a float64 array. numpy fixes the order of the additions
    (pairwise blocks, unrolled loops); the engine is embedded for any
    such reduction. *)
Variable np_sum : list float -> float.

(** [x ** 2] on a float64 scalar (lines 453 and 581): numpy hands it to
    the C library's [pow(x, 2.0)], whose last bit the C standard leaves
    to the library. The engine is embedded for any such function. *)
Variable scalar_pow2 : float -> float.

(** ** SequenceMatcher (lines 450-461) *)

(** [[((period-tperiod)/operiods_errors[ii])**2 for tperiod in tperiods]] *)
Definition chisqs_of (tperiods : list float) (period err : float) : list float :=
  map (fun tperiod => scalar_pow2 ((period - tperiod) / err)%float) tperiods.

(** The body of the loop over [enumerate(operiods)]. The error
    [operiods_errors[ii]] is only read while iterating [tperiods]. *)
Definition best_pair (tperiods : list float) (orders : list Z)
    (operiods_errors : list float) (ii : nat) (period : float) : result pair :=
  chisqs <- match tperiods with
            | [] => Ok []
            | _ :: _ => err <- Py.getitem operiods_errors ii ;;
                        Ok (chisqs_of tperiods period err)
            end ;;
  m <- Py.min chisqs ;;
  let min_ind := Np.nonzero (map (fun c => (c =? m)%float) chisqs) in
  best_match <- (l <- Np.take tperiods min_ind ;; Py.item0 l) ;;
  best_order <- (l <- Np.take orders min_ind ;; Py.item0 l) ;;
  chi <- (l <- Np.take chisqs min_ind ;; Py.item0 l) ;;
  Ok (mkPair period best_match (Np.float_of_int64 best_order) chi).

Definition sequence_matcher (tperiods : list float) (orders : list Z)
    (operiods operiods_errors : list float) : result (list pair) :=
  mapM (fun ip => best_pair tperiods orders operiods_errors (fst ip) (snd ip))
       (Py.enumerate operiods).

(** ** Direction of the radial orders (lines 475-478) *)

Definition increase_or_decrease (orders : list Z) : result Z :=
  o1 <- Py.getitem orders 1 ;;
  o0 <- Py.getitem orders 0 ;;
  Ok (if (o1 =? Np.wrap64 (o0 - 1))%Z then (-1)%Z else 1%Z).

(** ** RunSegmenter (lines 480-496) *)

(** [abs(sett[2]) == abs(pairs_orders[ii+1][2]) + increase_or_decrease] *)
Definition consecutive (step : Z) (sett next : pair) : bool :=
  (abs (best_order sett) =? abs (best_order next) + Np.float_of_int64 step)%float.

(** One turn of the loop over [enumerate(pairs_orders[:-1])], on the
    state [(current, sequences)]. [pairs_orders[ii+1]] is in range at
    every turn, the loop leaving the last row out. *)
Definition segment_step (pairs_orders : list pair) (step : Z) (lp : nat)
    (st : list pair * list (list pair)) (ii_sett : nat * pair)
    : list pair * list (list pair) :=
  let '(current, sequences) := st in
  let '(ii, sett) := ii_sett in
  let '(current, sequences) :=
    if consecutive step sett (nth (S ii) pairs_orders sett)
    then (current ++ [sett], sequences)
    else ([], sequences ++ [current ++ [sett]]) in
  if ii =? lp - 1
  then ([], sequences ++ [current ++ [sett]])
  else (current, sequences).

Definition run_segmenter (step : Z) (pairs_orders : list pair) : list (list pair) :=
  let body := removelast pairs_orders in
  let lp := length body in
  snd (fold_left (segment_step pairs_orders step lp) (Py.enumerate body) ([], [])).

(** ** SequenceSelector (lines 497-508) *)

(** [np.sum(sequences[ii][:,-1])/len(sequences[ii])] *)
Definition score (s : list pair) : float :=
  (np_sum (map chisq s) / float_of_nat (length s))%float.

Definition sequence_selector (sequences : list (list pair)) : result (list pair) :=
  let len_list := map (@length pair) sequences in
  m <- Py.max_nat len_list ;;
  let longest := Np.nonzero (map (fun n => n =? m) len_list) in
  if length longest =? 1 then
    l0 <- Py.item0 longest ;;
    Py.getitem sequences l0
  else
    scores <- mapM (fun ii => s <- Py.getitem sequences ii ;; Ok (score s)) longest ;;
    ms <- Py.min scores ;;
    min_score <- Py.item0 (Np.nonzero (map (fun s => (s =? ms)%float) scores)) ;;
    l <- Py.getitem longest min_score ;;
    Py.getitem sequences l.

(** ** PatternAligner (lines 510-531) *)

(** The body of the loop over [enumerate(operiods)]. *)
Definition aligned_at (tperiods : list float) (orders : list Z)
    (thr_ind_start : Z) (i : nat) : result (float * Z) :=
  let thr_ind_current := (thr_ind_start + Z.of_nat i)%Z in
  if (thr_ind_current <? 0)%Z then Ok ((-1)%float, (-1)%Z)
  else if (thr_ind_current >=? Z.of_nat (length tperiods))%Z then Ok ((-1)%float, (-1)%Z)
  else tper <- Py.getitem tperiods (Z.to_nat thr_ind_current) ;;
       ordr <- Py.getitem orders (Z.to_nat thr_ind_current) ;;
       Ok (tper, ordr).

Definition pattern_aligner (tperiods : list float) (orders : list Z)
    (operiods : list float) (lseq : list pair) : result (list float * list Z) :=
  row0 <- Py.item0 lseq ;;
  obs_ordering_ind <-
    Py.item0 (Np.nonzero (map (fun p => (p =? obs_period row0)%float) operiods)) ;;
  thr_ordering_ind <-
    Py.item0 (Np.nonzero (map (fun t => (t =? best_match row0)%float) tperiods)) ;;
  let thr_ind_start := (Z.of_nat thr_ordering_ind - Z.of_nat obs_ordering_ind)%Z in
  rows <- mapM (fun io => aligned_at tperiods orders thr_ind_start (fst io))
               (Py.enumerate operiods) ;;
  Ok (map fst rows, map snd rows).

(** ** SpacingSeriesBuilder (lines 566-599) *)

Definition generate_obs_series (periods errors : list float)
    : result (list float * list float) :=
  rows <- mapM (fun kp =>
                  let kk := fst kp in
                  let prd_k := snd kp in
                  prd_k_p_1 <- Py.getitem periods (S kk) ;;
                  e_k <- Py.getitem errors kk ;;
                  e_k_p_1 <- Py.getitem errors (S kk) ;;
                  Ok ((abs (prd_k - prd_k_p_1) * 86400)%float,
                      (sqrt (scalar_pow2 e_k + scalar_pow2 e_k_p_1) * 86400)%float))
               (Py.enumerate (removelast periods)) ;;
  Ok (map fst rows, map snd rows).

Definition generate_thry_series (periods : list float) : result (list float) :=
  mapM (fun kp =>
          prd_k_p_1 <- Py.getitem periods (S (fst kp)) ;;
          Ok (abs (snd kp - prd_k_p_1) * 86400)%float)
       (Py.enumerate (removelast periods)).

(** [np.sum(((obs_series-thr_series)/obs_series_errors)**2)/len(obs_series)];
    the three arrays have the same length, one entry per spacing. *)
Definition series_chi2_of (obs_series obs_series_errors thr_series : list float) : float :=
  (np_sum (map (fun ote => pow2 ((fst (fst ote) - snd (fst ote)) / snd ote)%float)
               (combine (combine obs_series thr_series) obs_series_errors))
   / float_of_nat (length obs_series))%float.

(** ** The whole function (lines 425-563), [plot=False] *)

Definition chisq_longest_sequence (tperiods : list float) (orders : list Z)
    (operiods operiods_errors : list float) : result (float * pyseq * list Z) :=
  if length tperiods <? length operiods then
    Ok (1e16%float,
        PyList (map (fun _ => (-1)%float) (seq 0 (length operiods))),
        map (fun _ => (-1)%Z) (seq 0 (length operiods)))
  else
    pairs_orders <- sequence_matcher tperiods orders operiods operiods_errors ;;
    step <- increase_or_decrease orders ;;
    let sequences := run_segmenter step pairs_orders in
    lseq <- sequence_selector sequences ;;
    ' (ordered_theoretical_periods, corresponding_orders) <-
      pattern_aligner tperiods orders operiods lseq ;;
    let final_theoretical_periods := ordered_theoretical_periods in
    ' (obs_series, obs_series_errors) <- generate_obs_series operiods operiods_errors ;;
    thr_series <- generate_thry_series final_theoretical_periods ;;
    let series_chi2 := series_chi2_of obs_series obs_series_errors thr_series in
    Ok (series_chi2, NdArray final_theoretical_periods, corresponding_orders).

End Engine.

(* ================================================================== *)
(** * Building the pattern of one model: [theoretical_pattern_from_dfrow] *)

(** [which_observable] and [method_build_series] are strings in the
    source; every string the code does not know takes the [sys.exit]
    branch. *)
Inductive observable : Set := Frequency | Period | OtherObservable.
Inductive method : Set :=
| HighestAmplitude
| HighestFrequency
| ChisqLongestSequence
| OtherMethod.

(** The local arrays of [theoretical_pattern_from_dfrow] that the loop
    over the parts of the pattern reads and extends. *)
Record locals : Set := mkLocals {
  freqs : list float;
  periods : list float;
  ouput_pulsations : list float
}.

(** One item of [zip(Obs_pattern_parts, ObsErr_pattern_parts,
    highest_amp_puls)]; the third component is [None] when the method
    does not build from a given pulsation. *)
Record part : Set := mkPart {
  Obs_part : list float;
  ObsErr_part : list float;
  highest_amp_puls_part : option float
}.

(** An expression statement: the expression is evaluated, its value is
    dropped, an exception it raises propagates, the locals stay bound to
    what they were bound to. *)
Definition expr_stmt {A : Type} (c : result A) (st : locals) : result locals :=
  _ <- c ;; Ok st.

(** What one turn of the loop hands to the pattern builders. *)
Record turn_inputs : Set := mkInputs {
  Theo_value : list float;
  theo_periods : list float;
  ObsPeriod : list float;
  ObsErr_P : list float;
  highest_obs_freq : float
}.

Section Orchestrator.

Variable np_sum : list float -> float.
Variable scalar_pow2 : float -> float.

(** ** [puls_series_from_given_puls] (lines 231-275), [plot=False]

    With [None] for [Obs_to_build_from] the comparison [Obs==None] holds
    nowhere and [np.where(...)[0][0]] raises. *)
Definition puls_series_from_given_puls (TheoIn Obs : list float)
    (Obs_to_build_from : option float) : result (list float) :=
  match Obs_to_build_from with
  | None => Raise IndexError
  | Some v =>
      nth_obs <- Py.item0 (Np.nonzero (map (fun o => (o =? v)%float) Obs)) ;;
      let diff := map (fun t => abs (t - v)%float) TheoIn in
      m <- Py.min diff ;;
      index <- Py.item0 (Np.nonzero (map (fun d => (d =? m)%float) diff)) ;;
      let hi := index + (length Obs - nth_obs) in
      let Theo_sequence :=
        if index <? nth_obs
        then map (fun _ => (-1)%float) (seq 0 (nth_obs - index)) ++ Py.slice TheoIn 0 hi
        else Py.slice TheoIn (index - nth_obs) hi in
      let Theo_sequence :=
        if length TheoIn <? hi
        then Theo_sequence ++ map (fun _ => (-1)%float) (seq 0 (hi - length TheoIn))
        else Theo_sequence in
      Ok Theo_sequence
  end.

(** ** The loop over the parts of the pattern (lines 184-226) *)

(** Lines 189-193 and 201-205: [np.delete] is called as a statement.
    It builds a new array and the code does not bind it. *)
Definition remove_chosen_statement (orders : list Z) (which : observable)
    (st : locals) : result locals :=
  if 0 <? length (ouput_pulsations st) then
    o1 <- Py.getitem orders 1 ;;
    o0 <- Py.getitem orders 0 ;;
    match which with
    | Frequency =>
        if (o1 =? Np.wrap64 (o0 - 1))%Z then
          expr_stmt (v <- Py.getitem_neg (ouput_pulsations st) 2 ;;
                     Ok (Np.delete (freqs st)
                           (Np.nonzero (map (fun f => (v <=? f)%float) (freqs st)))))
                    st
        else
          expr_stmt (m <- Py.max (ouput_pulsations st) ;;
                     Ok (Np.delete (freqs st)
                           (Np.nonzero (map (fun f => (f <=? m)%float) (freqs st)))))
                    st
    | Period =>
        if (o1 =? Np.wrap64 (o0 - 1))%Z then
          expr_stmt (m <- Py.max (ouput_pulsations st) ;;
                     Ok (Np.delete (periods st)
                           (Np.nonzero (map (fun p => (p <=? m)%float) (periods st)))))
                    st
        else
          expr_stmt (v <- Py.getitem_neg (ouput_pulsations st) 2 ;;
                     Ok (Np.delete (periods st)
                           (Np.nonzero (map (fun p => (v <=? p)%float) (periods st)))))
                    st
    | OtherObservable => Ok st
    end
  else Ok st.

(** Lines 185-211: the interruption mark, the removal statement and the
    choice of the arrays by [which_observable]. The locals after these
    lines come with the inputs of the builders. *)
Definition part_inputs (orders : list Z) (which : observable)
    (st : locals) (pt : part) : result (locals * turn_inputs) :=
  let st := if 0 <? length (ouput_pulsations st)
            then mkLocals (freqs st) (periods st) (ouput_pulsations st ++ [0%float])
            else st in
  match which with
  | Frequency =>
      st <- remove_chosen_statement orders which st ;;
      let Theo_value := freqs st in
      let ObsPeriod := map (fun o => (1 / o)%float) (Obs_part pt) in
      ObsErr_P <- Np.broadcast2 PrimFloat.div (ObsErr_part pt) (map pow2 (Obs_part pt)) ;;
      highest_obs_freq <- Py.max (Obs_part pt) ;;
      Ok (st, mkInputs Theo_value (periods st) ObsPeriod ObsErr_P highest_obs_freq)
  | Period =>
      st <- remove_chosen_statement orders which st ;;
      let Theo_value := periods st in
      highest_obs_freq <- Py.min (Obs_part pt) ;;
      Ok (st, mkInputs Theo_value (periods st) (Obs_part pt) (ObsErr_part pt)
                       highest_obs_freq)
  | OtherObservable => Raise SystemExit
  end.

(** Lines 213-224: the pattern builder chosen by [method_build_series]. *)
Definition build_series (orders : list Z) (which : observable) (meth : method)
    (pt : part) (inp : turn_inputs) : result (list float) :=
  match meth with
  | HighestAmplitude =>
      puls_series_from_given_puls (Theo_value inp) (Obs_part pt) (highest_amp_puls_part pt)
  | HighestFrequency =>
      puls_series_from_given_puls (Theo_value inp) (Obs_part pt)
                                  (Some (highest_obs_freq inp))
  | ChisqLongestSequence =>
      ' (series_chi2, final_theoretical_periods, corresponding_orders) <-
        chisq_longest_sequence np_sum scalar_pow2 (theo_periods inp) orders
                               (ObsPeriod inp) (ObsErr_P inp) ;;
      match which with
      | Frequency =>
          match final_theoretical_periods with
          | NdArray a => Ok (map (fun p => (1 / p)%float) a)
          | PyList _ => Raise TypeError
          end
      | _ => Ok (values final_theoretical_periods)
      end
  | OtherMethod => Raise SystemExit
  end.

(** The body of the loop, from the state of the locals before the turn
    to their state after it. *)
Definition part_step (orders : list Z) (which : observable) (meth : method)
    (st : locals) (pt : part) : result locals :=
  ' (st, inp) <- part_inputs orders which st pt ;;
  selected_theoretical_pulsations <- build_series orders which meth pt inp ;;
  Ok (mkLocals (freqs st) (periods st)
               (ouput_pulsations st ++ selected_theoretical_pulsations)).

(** The loop: the parts in the order of the zip, stopped by the first
    exception. *)
Fixpoint parts_loop (orders : list Z) (which : observable) (meth : method)
    (st : locals) (parts : list part) : result locals :=
  match parts with
  | [] => Ok st
  | pt :: rest =>
      st' <- part_step orders which meth st pt ;;
      parts_loop orders which meth st' rest
  end.

(** Lines 163 and 179-228 from the arrays [freqs] and [orders] (NaN
    entries removed) and the parts of the observed pattern: the
    pulsations appended to the row of the model. *)
Definition pattern_of_model (freqs0 : list float) (orders : list Z)
    (which : observable) (meth : method) (parts : list part)
    : result (list float) :=
  let periods0 := map (fun f => (1 / f)%float) freqs0 in
  st <- parts_loop orders which meth (mkLocals freqs0 periods0 []) parts ;;
  Ok (ouput_pulsations st).

End Orchestrator.

(** numpy's reduction of an array of fewer than 8 elements: one
    accumulator from 0.0, left to right. It instantiates [np_sum] where a
    value is computed. *)
Definition np_sum_seq (l : list float) : float := fold_left PrimFloat.add l 0%float.


(* ================================================================== *)
(** * The objects of a call: [chisq_longest_sequence] on the store *)

(** The arguments of a call are arrays the caller holds, and the
    function fills its lists by [append]. Here the function is embedded
    statement by statement over the objects of the interpreter: what a
    call reads, what it creates and what it writes. *)

Inductive object : Set :=
| FloatArray (a : list float)
| IntArray (a : list Z)
| RowArray (a : list pair)
| FloatList (l : list float)
| IntList (l : list Z)
| RowList (l : list pair)
| RunList (l : list (list pair)).

(** The store holds every object alive: the object of address [n] is
    its [n]-th entry. A name is bound to an address. *)
Definition store : Set := list object.
Definition ref : Set := nat.

(** A statement runs on the store and leaves a store, also when it
    raises. *)
Definition M (A : Type) : Type := store -> result A * store.

Definition ret {A : Type} (a : A) : M A := fun s => (Ok a, s).

Definition lift {A : Type} (c : result A) : M A := fun s => (c, s).

Definition bindM {A B : Type} (m : M A) (k : A -> M B) : M B :=
  fun s =>
    match m s with
    | (Ok a, s') => k a s'
    | (Raise e, s') => (Raise e, s')
    end.

Notation "x <~ c ;; k" := (bindM c (fun x => k))
  (at level 61, c at next level, right associativity) : py_scope.
Notation "' pat <~ c ;; k" := (bindM c (fun x => match x with pat => k end))
  (at level 61, pat pattern, c at next level, right associativity) : py_scope.

(** A new object ([[]], [np.array(...)], a list comprehension): it
    takes the next free address. *)
Definition new (o : object) : M ref := fun s => (Ok (length s), s ++ [o]).

(** The object a name is bound to. *)
Definition deref (r : ref) : M object :=
  fun s =>
    match nth_error s r with
    | Some o => (Ok o, s)
    | None => (Raise TypeError, s)
    end.

(** The object of address [r] replaced by [o]: what a method that
    changes its object in place does to the store. *)
Fixpoint update (s : store) (r : ref) (o : object) : store :=
  match s, r with
  | [], _ => []
  | _ :: s', 0 => o :: s'
  | x :: s', S r' => x :: update s' r' o
  end.

Definition assign (r : ref) (o : object) : M unit :=
  fun s => (Ok tt, update s r o).

(** Reading an object as what the statement takes it for. *)
Definition float_array (r : ref) : M (list float) :=
  o <~ deref r ;;
  match o with FloatArray a => ret a | _ => lift (Raise TypeError) end.

Definition int_array (r : ref) : M (list Z) :=
  o <~ deref r ;;
  match o with IntArray a => ret a | _ => lift (Raise TypeError) end.

Definition row_array (r : ref) : M (list pair) :=
  o <~ deref r ;;
  match o with RowArray a => ret a | _ => lift (Raise TypeError) end.

Definition float_list (r : ref) : M (list float) :=
  o <~ deref r ;;
  match o with FloatList l => ret l | _ => lift (Raise TypeError) end.

Definition int_list (r : ref) : M (list Z) :=
  o <~ deref r ;;
  match o with IntList l => ret l | _ => lift (Raise TypeError) end.

Definition row_list (r : ref) : M (list pair) :=
  o <~ deref r ;;
  match o with RowList l => ret l | _ => lift (Raise TypeError) end.

Definition run_list (r : ref) : M (list (list pair)) :=
  o <~ deref r ;;
  match o with RunList l => ret l | _ => lift (Raise TypeError) end.

(** [l.append(x)]: the list object itself gets one more item. *)
Definition append_float (r : ref) (x : float) : M unit :=
  l <~ float_list r ;; assign r (FloatList (l ++ [x])).

Definition append_int (r : ref) (x : Z) : M unit :=
  l <~ int_list r ;; assign r (IntList (l ++ [x])).

Definition append_row (r : ref) (x : pair) : M unit :=
  l <~ row_list r ;; assign r (RowList (l ++ [x])).

Definition append_run (r : ref) (x : list pair) : M unit :=
  l <~ run_list r ;; assign r (RunList (l ++ [x])).

(** A [for] loop whose body binds no name that outlives a turn. *)
Fixpoint forM {A : Type} (body : A -> M unit) (l : list A) : M unit :=
  match l with
  | [] => ret tt
  | a :: l' => _ <~ body a ;; forM body l'
  end.

(** A [for] loop that rebinds the name [x] from turn to turn. *)
Fixpoint foldM {A X : Type} (body : X -> A -> M X) (l : list A) (x : X) : M X :=
  match l with
  | [] => ret x
  | a :: l' => x' <~ body x a ;; foldM body l' x'
  end.

Section EngineOnStore.

Variable np_sum : list float -> float.
Variable scalar_pow2 : float -> float.

(** ** Lines 446-447: fewer theoretical than observed periods *)

Definition early_return (operiods : ref) : M (float * ref * ref) :=
  op <~ float_array operiods ;;
  periods <~ new (FloatList (map (fun _ => (-1)%float) (seq 0 (length op)))) ;;
  op <~ float_array operiods ;;
  orders <~ new (IntList (map (fun _ => (-1)%Z) (seq 0 (length op)))) ;;
  ret (1e16%float, periods, orders).

(** ** Lines 450-463: the matcher

    [enumerate(operiods)]: as many turns as the array has items when the
    loop starts, the item of a turn read at that turn. The three other
    arrays are read in the body. *)
Definition matcher_turn (tperiods orders operiods operiods_errors pairs_orders : ref)
    (ii : nat) : M unit :=
  op <~ float_array operiods ;;
  period <~ lift (Py.getitem op ii) ;;
  tp <~ float_array tperiods ;;
  ords <~ int_array orders ;;
  errs <~ float_array operiods_errors ;;
  row <~ lift (best_pair scalar_pow2 tp ords errs ii period) ;;
  append_row pairs_orders row.

Definition sequence_matcher_st (tperiods orders operiods operiods_errors : ref) : M ref :=
  pairs_orders <~ new (RowList []) ;;
  op <~ float_array operiods ;;
  _ <~ forM (matcher_turn tperiods orders operiods operiods_errors pairs_orders)
            (seq 0 (length op)) ;;
  rows <~ row_list pairs_orders ;;
  new (RowArray rows).

(** ** Lines 475-478 *)

Definition increase_or_decrease_st (orders : ref) : M Z :=
  ords <~ int_array orders ;;
  lift (increase_or_decrease ords).

(** ** Lines 480-496: the segmenter

    [current] is rebound to a new list each time a run is closed;
    [np.array(current)] copies the rows of the list into the array that
    [sequences] receives. *)
Definition segment_step_st (pairs_orders sequences : ref) (step : Z) (lp : nat)
    (current : ref) (ii : nat) : M ref :=
  rows <~ row_array pairs_orders ;;
  sett <~ lift (Py.getitem rows ii) ;;
  next <~ lift (Py.getitem rows (S ii)) ;;
  current <~ (if consecutive step sett next
              then _ <~ append_row current sett ;; ret current
              else _ <~ append_row current sett ;;
                   run <~ row_list current ;;
                   _ <~ append_run sequences run ;;
                   new (RowList [])) ;;
  if ii =? lp - 1
  then _ <~ append_row current sett ;;
       run <~ row_list current ;;
       _ <~ append_run sequences run ;;
       new (RowList [])
  else ret current.

Definition run_segmenter_st (pairs_orders : ref) (step : Z) : M ref :=
  sequences <~ new (RunList []) ;;
  current <~ new (RowList []) ;;
  rows <~ row_array pairs_orders ;;
  let lp := length (removelast rows) in
  _ <~ foldM (segment_step_st pairs_orders sequences step lp) (seq 0 lp) current ;;
  ret sequences.

(** ** Lines 497-508: the selector, an expression over [sequences] *)

Definition sequence_selector_st (sequences : ref) : M (list pair) :=
  runs <~ run_list sequences ;;
  lift (sequence_selector np_sum runs).

(** Lines 450-508: the run the function selects. *)
Definition longest_sequence_st (tperiods orders operiods operiods_errors : ref)
    : M (list pair) :=
  pairs_orders <~ sequence_matcher_st tperiods orders operiods operiods_errors ;;
  step <~ increase_or_decrease_st orders ;;
  sequences <~ run_segmenter_st pairs_orders step ;;
  sequence_selector_st sequences.

(** ** Lines 510-534: the aligner *)

Definition thr_ind_start_st (tperiods operiods : ref) (lseq : list pair) : M Z :=
  row0 <~ lift (Py.item0 lseq) ;;
  op <~ float_array operiods ;;
  obs_ordering_ind <~
    lift (Py.item0 (Np.nonzero (map (fun p => (p =? obs_period row0)%float) op))) ;;
  tp <~ float_array tperiods ;;
  thr_ordering_ind <~
    lift (Py.item0 (Np.nonzero (map (fun t => (t =? best_match row0)%float) tp))) ;;
  ret (Z.of_nat thr_ordering_ind - Z.of_nat obs_ordering_ind)%Z.

Definition aligner_turn (tperiods orders operiods : ref) (thr_ind_start : Z)
    (ordered_theoretical_periods corresponding_orders : ref) (i : nat) : M unit :=
  op <~ float_array operiods ;;
  _ <~ lift (Py.getitem op i) ;;
  tp <~ float_array tperiods ;;
  ords <~ int_array orders ;;
  ' (tper, ordr) <~ lift (aligned_at tp ords thr_ind_start i) ;;
  _ <~ append_float ordered_theoretical_periods tper ;;
  append_int corresponding_orders ordr.

Definition pattern_aligner_st (tperiods orders operiods : ref) (lseq : list pair)
    : M (ref * ref) :=
  thr_ind_start <~ thr_ind_start_st tperiods operiods lseq ;;
  ordered_theoretical_periods <~ new (FloatList []) ;;
  corresponding_orders <~ new (IntList []) ;;
  op <~ float_array operiods ;;
  _ <~ forM (aligner_turn tperiods orders operiods thr_ind_start
               ordered_theoretical_periods corresponding_orders)
            (seq 0 (length op)) ;;
  l <~ float_list ordered_theoretical_periods ;;
  final_theoretical_periods <~ new (FloatArray l) ;;
  ret (final_theoretical_periods, corresponding_orders).

(** ** Lines 566-582: [generate_obs_series] *)

Definition obs_series_turn (periods errors observed_spacings observed_spacings_errors : ref)
    (kk : nat) : M unit :=
  ps <~ float_array periods ;;
  prd_k <~ lift (Py.getitem ps kk) ;;
  ps <~ float_array periods ;;
  prd_k_p_1 <~ lift (Py.getitem ps (S kk)) ;;
  _ <~ append_float observed_spacings (abs (prd_k - prd_k_p_1) * 86400)%float ;;
  es <~ float_array errors ;;
  e_k <~ lift (Py.getitem es kk) ;;
  es <~ float_array errors ;;
  e_k_p_1 <~ lift (Py.getitem es (S kk)) ;;
  append_float observed_spacings_errors
    (sqrt (scalar_pow2 e_k + scalar_pow2 e_k_p_1) * 86400)%float.

(** [enumerate(periods[:-1])]: the slice is a view of the array, its
    items are read at their turn. *)
Definition generate_obs_series_st (periods errors : ref) : M (ref * ref) :=
  observed_spacings <~ new (FloatList []) ;;
  observed_spacings_errors <~ new (FloatList []) ;;
  ps <~ float_array periods ;;
  _ <~ forM (obs_series_turn periods errors observed_spacings observed_spacings_errors)
            (seq 0 (length (removelast ps))) ;;
  ret (observed_spacings, observed_spacings_errors).

(** ** Lines 585-599: [generate_thry_series] *)

Definition thry_series_turn (periods theoretical_spacings : ref) (kk : nat) : M unit :=
  ps <~ float_array periods ;;
  prd_k <~ lift (Py.getitem ps kk) ;;
  ps <~ float_array periods ;;
  prd_k_p_1 <~ lift (Py.getitem ps (S kk)) ;;
  append_float theoretical_spacings (abs (prd_k - prd_k_p_1) * 86400)%float.

Definition generate_thry_series_st (periods : ref) : M ref :=
  theoretical_spacings <~ new (FloatList []) ;;
  ps <~ float_array periods ;;
  _ <~ forM (thry_series_turn periods theoretical_spacings)
            (seq 0 (length (removelast ps))) ;;
  ret theoretical_spacings.

(** ** Lines 539-543: the chi-square of the spacings

    Each of the three names is rebound to the array [np.array] builds
    of its list; the chi-square is an expression over the three
    arrays. *)
Definition series_chi2_st (obs_series obs_series_errors thr_series : ref) : M float :=
  l <~ float_list obs_series ;;
  obs_series <~ new (FloatArray l) ;;
  l <~ float_list obs_series_errors ;;
  obs_series_errors <~ new (FloatArray l) ;;
  l <~ float_list thr_series ;;
  thr_series <~ new (FloatArray l) ;;
  obs <~ float_array obs_series ;;
  thr <~ float_array thr_series ;;
  errs <~ float_array obs_series_errors ;;
  ret (series_chi2_of np_sum obs errs thr).

(** ** The whole function (lines 425-563), [plot=False]

    It returns the chi-square and the two objects the caller receives. *)
Definition chisq_longest_sequence_st (tperiods orders operiods operiods_errors : ref)
    : M (float * ref * ref) :=
  tp <~ float_array tperiods ;;
  op <~ float_array operiods ;;
  if length tp <? length op then early_return operiods
  else
    lseq <~ longest_sequence_st tperiods orders operiods operiods_errors ;;
    ' (final_theoretical_periods, corresponding_orders) <~
      pattern_aligner_st tperiods orders operiods lseq ;;
    ' (obs_series, obs_series_errors) <~
      generate_obs_series_st operiods operiods_errors ;;
    thr_series <~ generate_thry_series_st final_theoretical_periods ;;
    series_chi2 <~ series_chi2_st obs_series obs_series_errors thr_series ;;
    ret (series_chi2, final_theoretical_periods, corresponding_orders).

End EngineOnStore.

(** What the caller finds behind the returned tuple: the chi-square, the
    sequence of periods (a list on the early return, an array
    otherwise) and the list of orders. *)
Definition returned (s : store) (r : float * ref * ref) : option (float * pyseq * list Z) :=
  let '(chi2, periods, orders) := r in
  match nth_error s periods, nth_error s orders with
  | Some (FloatList l), Some (IntList k) => Some (chi2, PyList l, k)
  | Some (FloatArray l), Some (IntList k) => Some (chi2, NdArray l, k)
  | _, _ => None
  end.

(** The outcome of a call as the caller sees it. *)
Definition outcome (c : result (float * ref * ref) * store)
    : result (option (float * pyseq * list Z)) :=
  match fst c with
  | Ok r => Ok (returned (snd c) r)
  | Raise e => Raise e
  end.

(** [m], started on the store [s], does what the expression [c] says:
    it raises when [c] raises and returns a value that [post] relates
    to the value of [c] otherwise, and the store it leaves is [s] with
    new objects after it. *)
Definition runs_as {A B : Type} (m : M A) (s : store) (c : result B)
    (post : B -> A -> store -> Prop) : Prop :=
  exists t,
    match c with
    | Ok b => exists a, m s = (Ok a, s ++ t) /\ post b a (s ++ t)
    | Raise e => m s = (Raise e, s ++ t)
    end.

(** The four arrays a call is given, by their contents. *)
Definition holds_arrays (s : store) (tperiods orders operiods operiods_errors : ref)
    (tp : list float) (ords : list Z) (op oe : list float) : Prop :=
  nth_error s tperiods = Some (FloatArray tp) /\
  nth_error s orders = Some (IntArray ords) /\
  nth_error s operiods = Some (FloatArray op) /\
  nth_error s operiods_errors = Some (FloatArray oe).

(* ================================================================== *)
(** * Scenarios *)

(** ** Scenario A of the specification *)

Definition tperiods_A : list float := [1.0; 1.1; 1.2; 1.3; 1.4]%float.
Definition orders_A : list Z := [-5; -4; -3; -2; -1]%Z.
Definition operiods_A : list float := [1.05; 1.22]%float.
Definition errors_A : list float := [0.01; 0.01]%float.

(** The rows the matcher builds for scenario A, with the scalar power
    the chi-squares are computed with. *)
Definition pair_A0 (scalar_pow2 : float -> float) : pair :=
  mkPair 1.05 1.0 (-5) (scalar_pow2 ((1.05 - 1.0) / 0.01)%float).
Definition pair_A1 (scalar_pow2 : float -> float) : pair :=
  mkPair 1.22 1.2 (-3) (scalar_pow2 ((1.22 - 1.2) / 0.01)%float).

(** ** A spectrum on whole numbers

    Five theoretical periods one day apart and errors of an eighth of a
    day: every chi-square of the matcher is the square of a multiple of
    four, and 1.5 and 3.5 lie as far from the period below as from the
    period above. *)

Definition tperiods_M : list float := [1.0; 2.0; 3.0; 4.0; 5.0]%float.
Definition orders_M : list Z := [-5; -4; -3; -2; -1]%Z.
Definition operiods_M : list float := [1.5; 4.0]%float.
Definition errors_M : list float := [0.125; 0.125]%float.
Definition operiods_N : list float := [2.0; 3.5]%float.

(** ** Two stores holding the arrays of one call

    The spectrum on whole numbers with the observed periods 2.0 and 3.5
    as the only objects, and the same arrays at other addresses beside
    an object of the caller. *)

Definition store_M : store :=
  [FloatArray tperiods_M; IntArray orders_M; FloatArray operiods_N; FloatArray errors_M].

Definition store_M_moved : store :=
  [IntList [7%Z]; FloatArray errors_M; FloatArray operiods_N; IntArray orders_M;
   FloatArray tperiods_M].

(* ================================================================== *)
(** * Vocabulary of the properties *)

(** [j] is the first position of [l] at which [test] holds. *)
Definition first_position {A : Type} (test : A -> bool) (l : list A) (j : nat) : Prop :=
  (exists x, nth_error l j = Some x /\ test x = true) /\
  forall k x, k < j -> nth_error l k = Some x -> test x = false.

(** What the properties ask of the scalar power, the C library's
    [pow(x, 2.0)]: the square of a number is a number; *)
Definition pow2_of_number (scalar_pow2 : float -> float) : Prop :=
  forall x, is_nan x = false -> is_nan (scalar_pow2 x) = false.

(** the sign of the base is dropped; *)
Definition pow2_even (scalar_pow2 : float -> float) : Prop :=
  forall x, scalar_pow2 (- x)%float = scalar_pow2 x.

(** the result is the correctly rounded square or one of the two
    binary64 numbers next to it. *)
Definition pow2_within_ulp (scalar_pow2 : float -> float) : Prop :=
  forall x, scalar_pow2 x = (x * x)%float \/
            scalar_pow2 x = next_up (x * x) \/
            scalar_pow2 x = next_down (x * x).

(** A scalar power as the C library has it. *)
Definition libm_pow2 (scalar_pow2 : float -> float) : Prop :=
  pow2_of_number scalar_pow2 /\ pow2_even scalar_pow2 /\ pow2_within_ulp scalar_pow2.

(** A measured error the chi-square can be divided by: finite and
    positive. *)
Definition positive_error (s : float) : Prop :=
  is_finite s = true /\ (0 <? s)%float = true.

(** A binary64 value that is zero or a finite number, in the
    specification of the format. *)
Definition SFfinite (x : spec_float) : Prop :=
  match x with
  | S754_zero _ | S754_finite _ _ _ => True
  | _ => False
  end.

(** The length of the longest run. *)
Definition max_length (sequences : list (list pair)) : nat :=
  list_max (map (@length pair) sequences).

(** The positions of the runs of that length, [longest] in the source. *)
Definition longest_runs (sequences : list (list pair)) : list nat :=
  Np.nonzero (map (fun n => n =? max_length sequences) (map (@length pair) sequences)).

(** The rows appended by the loop of RunSegmenter so far, in order: the
    closed runs, then the open one; no closed run is empty. *)
Definition segmented (st : list pair * list (list pair)) (rows : list pair) : Prop :=
  concat (snd st) ++ fst st = rows /\ Forall (fun r => r <> []) (snd st).

(** The sentinel of an observed period without theoretical counterpart. *)
Definition sentinel : float * Z := ((-1)%float, (-1)%Z).

(** ** Scenario C of the specification: two runs of length 3 *)


(** ** A pattern in two parts *)

Definition locals_W : locals :=
  mkLocals (map (fun p => (1 / p)%float) tperiods_A) tperiods_A [].
Definition part_W1 : part := mkPart [1.0; 1.1]%float [0.01; 0.01]%float None.
Definition part_W2 : part := mkPart [1.3; 1.4]%float [0.01; 0.01]%float None.

(** The locals after the first part, and after the interruption mark
    of the second. *)
Definition locals_W1 : locals :=
  mkLocals (freqs locals_W) tperiods_A [1.0; 1.1]%float.
Definition locals_W2 : locals :=
  mkLocals (freqs locals_W) tperiods_A [1.0; 1.1; 0]%float.
Definition inputs_W2 : turn_inputs :=
  mkInputs tperiods_A tperiods_A [1.3; 1.4]%float [0.01; 0.01]%float 1.3%float.

(* ================================================================== *)
(** * The whole of [theoretical_pattern_from_dfrow] (lines 159-228) *)

(** A row of the summary grid, a float64 pandas series: the values of
    the columns up to and including [Xc] (the parameters of the model),
    and the columns whose label holds [n_pg], each with the radial order
    read from its label and the frequency of that mode (NaN where the
    model has no such mode). *)
Record grid_row : Set := mkRow {
  parameters_to_Xc : list float;
  n_pg_columns : list (Z * float)
}.

(** [np.split(ary, indices)]: the slices [ary[st:end]] between
    consecutive division points of [[0] + indices + [len(ary)]]. *)
Fixpoint slices {A : Type} (ary : list A) (st : nat) (ends : list nat) : list (list A) :=
  match ends with
  | [] => []
  | e :: ends' => Py.slice ary st e :: slices ary e ends'
  end.

Definition np_split {A : Type} (ary : list A) (indices : list nat) : list (list A) :=
  slices ary 0 (indices ++ [length ary]).

(** Lines 165 and 168: the positions of the interruption marks, each
    lowered by the number of marks before it. *)
Definition missing_puls (Obs : list float) : list nat :=
  map (fun im => snd im - fst im)
      (Py.enumerate (Np.nonzero (map (fun o => (o =? 0)%float) Obs))).

(** Lines 166 and 170. *)
Definition Obs_pattern_parts (Obs : list float) : list (list float) :=
  np_split (filter (fun o => negb (o =? 0)%float) Obs) (missing_puls Obs).

(** Lines 167 and 171: the errors lose their own zeros and are split at
    the marks of [Obs]. *)
Definition ObsErr_pattern_parts (Obs ObsErr : list float) : list (list float) :=
  np_split (filter (fun e => negb (e =? 0)%float) ObsErr) (missing_puls Obs).

(** [zip] of the three lists: as long as the shortest. *)
Fixpoint zip3 (a b : list (list float)) (c : list (option float)) : list part :=
  match a, b, c with
  | x :: a', y :: b', z :: c' => mkPart x y z :: zip3 a' b' c'
  | _, _, _ => []
  end.

(** Lines 173-177. *)
Definition checked_highest_amp_puls (meth : method) (n_parts : nat)
    (highest_amp_puls : list float) : result (list (option float)) :=
  if negb (n_parts =? length highest_amp_puls) then
    match meth with
    | HighestAmplitude => Raise SystemExit
    | _ => Ok (repeat None n_parts)
    end
  else Ok (map Some highest_amp_puls).

Section Dfrow.

Variable np_sum : list float -> float.
Variable scalar_pow2 : float -> float.

Definition theoretical_pattern_from_dfrow (summary_grid_row : grid_row)
    (method_build_series : method) (Obs ObsErr : list float)
    (which_observable : observable) (highest_amp_puls : list float)
    : result (list float) :=
  let n_pg := filter (fun c => negb (is_nan (snd c))) (n_pg_columns summary_grid_row) in
  let orders := map fst n_pg in
  let freqs := map snd n_pg in
  let Obs_parts := Obs_pattern_parts Obs in
  let ObsErr_parts := ObsErr_pattern_parts Obs ObsErr in
  highest_amp_puls <-
    checked_highest_amp_puls method_build_series (length Obs_parts) highest_amp_puls ;;
  let list_out := parameters_to_Xc summary_grid_row in
  ouput_pulsations <-
    pattern_of_model np_sum scalar_pow2 freqs orders which_observable
                     method_build_series
                     (zip3 Obs_parts ObsErr_parts highest_amp_puls) ;;
  Ok (list_out ++ ouput_pulsations).

End Dfrow.

(* ================================================================== *)
(** * Mode classification and scanning range *)

(** What [calculate_k] does: it returns [k] or raises [Exception] with
    the two values in its message. *)
Inductive k_outcome : Set :=
| K (k : Z)
| Exception_l_smaller_than_m (l m : Z).

(** [calculate_k] (lines 393-419), on Python integers. *)
Definition calculate_k (l m : Z) (rossby : bool) : k_outcome :=
  if negb rossby then
    if (Z.abs l >=? Z.abs m)%Z then K (l - Z.abs m)
    else Exception_l_smaller_than_m l m
  else
    if (Z.abs l >=? Z.abs m)%Z then K (-1 * (l - Z.abs m + 1))
    else Exception_l_smaller_than_m l m.

(** [calc_scanning_range], lines 341-342: the radial orders the
    frequency bounds are computed from. *)
Definition n_max_used (npg_min : Z) : Z := Z.abs (npg_min - 3).
Definition n_min_used (npg_max : Z) : Z := Z.abs (Z.min (-1) (npg_max + 3)).

(* ================================================================== *)
(** * src/foam/support_functions.py: strings and signs *)

Module support_functions.

Import Ascii.

(** The exceptions of the string functions: a failed [assert], and
    [str.partition] called with an empty separator. *)
Inductive error : Set :=
| AssertionError
| ValueError.

Inductive outcome (A : Type) : Type :=
| Returns (a : A)
| Raises (e : error).

Arguments Returns {A} a.
Arguments Raises {A} e.

(** A Python [str], character by character (8-bit characters stand
    for the code points). *)
Definition str : Set := list ascii.

Definition str_eqb (a b : str) : bool :=
  if list_eq_dec ascii_dec a b then true else false.

(** [line.startswith(sep)], with what follows [sep]. *)
Fixpoint strip_prefix (sep line : str) : option str :=
  match sep, line with
  | [], _ => Some line
  | c :: sep', d :: line' => if Ascii.eqb c d then strip_prefix sep' line' else None
  | _ :: _, [] => None
  end.

(** The leftmost occurrence of [sep] in [line]: what is before it and
    what is after it. *)
Fixpoint find (sep line : str) : option (str * str) :=
  match strip_prefix sep line with
  | Some tail => Some ([], tail)
  | None =>
      match line with
      | [] => None
      | c :: line' =>
          match find sep line' with
          | Some (head, tail) => Some (c :: head, tail)
          | None => None
          end
      end
  end.

(** [line.partition(sep)]: split at the first occurrence of [sep];
    [(line, '', '')] when there is none; ValueError on an empty [sep]. *)
Definition partition (line sep : str) : outcome (str * str * str) :=
  match sep with
  | [] => Raises ValueError
  | _ :: _ =>
      match find sep line with
      | Some (head, tail) => Returns (head, sep, tail)
      | None => Returns (line, [], [])
      end
  end.

(** [sep in line]. *)
Definition contains (sep line : str) : bool :=
  match find sep line with
  | Some _ => true
  | None => false
  end.

(** [split_line] (lines 10-28); the [assert] statement is executed
    (the interpreter runs without [-O]). *)
Definition split_line (line sep : str) : outcome (str * str) :=
  match partition line sep with
  | Raises e => Raises e
  | Returns (head, sep_, tail) =>
      if str_eqb sep_ sep then Returns (head, tail) else Raises AssertionError
  end.

(** [substring] (lines 31-52). *)
Definition substring (line sep_first sep_second : str) : outcome str :=
  match split_line line sep_first with
  | Raises e => Raises e
  | Returns (head, tail) =>
      if negb (contains sep_second tail) then Returns tail
      else match split_line tail sep_second with
           | Raises e => Raises e
           | Returns (head, tail) => Returns head
           end
  end.

(** A [dict] from strings to strings, in insertion order; assigning to
    a key that is present replaces its value in place. *)
Definition dict : Set := list (str * str).

Fixpoint setitem (d : dict) (k v : str) : dict :=
  match d with
  | [] => [(k, v)]
  | (k', v') :: d' =>
      if str_eqb k' k then (k', v) :: d' else (k', v') :: setitem d' k v
  end.

Fixpoint get (d : dict) (k : str) : option str :=
  match d with
  | [] => None
  | (k', v') :: d' => if str_eqb k' k then Some v' else get d' k
  end.

(** [get_param_from_filename] (lines 54-80) with [values_as_float=False],
    from [Path(file_path).stem]. The bare [except] turns every exception
    of [substring] into the value ['0']. *)
Definition get_param_from_filename (stem : str) (parameters : list str) : dict :=
  fold_left
    (fun param_dict parameter =>
       match substring stem parameter ["_"%char] with
       | Returns p => setitem param_dict parameter p
       | Raises _ => setitem param_dict parameter ["0"%char]
       end)
    parameters [].

(** A Python number: [sign] is called on floats and on ints. *)
Inductive number : Set :=
| Float (x : float)
| Int (n : Z).

(** [sign] (lines 108-121). *)
Definition sign (x : number) : str :=
  match x with
  | Float x => if (abs x =? x)%float then ["+"%char] else ["-"%char]
  | Int n => if (Z.abs n =? n)%Z then ["+"%char] else ["-"%char]
  end.

(** A file name of the grid and the separators of its parameters. *)
Definition underscore : str := ["_"%char].
Definition zero_value : str := ["0"%char].
Definition plus_sign : str := ["+"%char].
Definition minus_sign : str := ["-"%char].
Definition name_Z : str := ["Z"%char].
Definition name_Xc : str := ["X"%char; "c"%char].
Definition name_fov : str := ["f"%char; "o"%char; "v"%char].

Import String.

Definition stem_W : str := list_ascii_of_string "M3.0_Z0.014_logD1.5_Xc0.50".
Definition value_Z : str := list_ascii_of_string "0.014".
Definition head_Z : str := list_ascii_of_string "M3.0_".
Definition rest_Z : str := list_ascii_of_string "logD1.5_Xc0.50".

End support_functions.

(* ================================================================== *)
(** * Vocabulary of the properties of the added code *)

(** [sep] occurs in [line] right after [head], and nowhere further to
    the left. *)
Definition first_occurrence (sep line head : support_functions.str) : Prop :=
  (exists tail, line = head ++ sep ++ tail) /\
  forall h' t', line = h' ++ sep ++ t' -> length head <= length h'.

(** [sep] occurs nowhere in [line]. *)
Definition absent (sep line : support_functions.str) : Prop :=
  forall h t, line <> h ++ sep ++ t.

(** The parts of a pattern written one after the other with one [0]
    between two parts. *)
Definition join0 (parts : list (list float)) : list float :=
  match parts with
  | [] => []
  | p :: ps => p ++ concat (map (cons 0%float) ps)
  end.

(** An interruption mark leaves a part of the pattern empty: the pattern
    starts or ends with a mark, or two marks are adjacent. *)
Definition empty_part (Obs : list float) : Prop :=
  exists pre z post,
    Obs = pre ++ z :: post /\ (z =? 0)%float = true /\
    (pre = [] \/ post = [] \/
     exists z' post', post = z' :: post' /\ (z' =? 0)%float = true).

(* ================================================================== *)
(** * Properties *)

(** ** Facts on binary64 *)

Module F64.
Local Open Scope float_scope.

Lemma SFcompare_refl x : x <> S754_nan -> SFcompare x x = Some Eq.
Proof.
  destruct x as [s|s| |s m e]; simpl; try congruence; intros _.
  - now destruct s.
  - rewrite Z.compare_refl, Pos.compare_cont_refl. now destruct s.
Qed.

Lemma SFcompare_antisym x y :
  SFcompare y x = option_map CompOpp (SFcompare x y).
Proof.
  destruct x as [sx|sx| |sx mx ex], y as [sy|sy| |sy my ey]; simpl; try reflexivity;
    try (destruct sx; reflexivity); try (destruct sy; reflexivity);
    try (destruct sx, sy; reflexivity).
  change (PosDef.Pos.compare_cont Eq mx my) with (Pos.compare mx my).
  change (PosDef.Pos.compare_cont Eq my mx) with (Pos.compare my mx).
  rewrite (Z.compare_antisym ey ex), (Pos.compare_antisym my mx).
  destruct sx, sy; simpl; try reflexivity;
    destruct (ey ?= ex)%Z; simpl; try reflexivity.
  all: now rewrite CompOpp_involutive.
Qed.

Lemma SFleb_trans x y z :
  SFleb x y = true -> SFleb y z = true -> SFleb x z = true.
Proof.
  unfold SFleb.
  destruct x as [sx|sx| |sx mx ex], y as [sy|sy| |sy my ey], z as [sz|sz| |sz mz ez];
    simpl; try congruence;
    repeat match goal with s : bool |- _ => destruct s end; simpl; try congruence.
  all: rewrite ?Pos.compare_cont_spec; simpl.
  all: destruct (Z.compare_spec ex ey), (Z.compare_spec ey ez); try congruence;
    destruct (Z.compare_spec ex ez); try congruence; try lia; subst.
  all: try (destruct (Pos.compare_spec mx my), (Pos.compare_spec my mz); simpl;
            try congruence;
            destruct (Pos.compare_spec mx mz); simpl; try congruence; try lia).
Qed.

Lemma SFcompare_some x y :
  x <> S754_nan -> y <> S754_nan -> exists c, SFcompare x y = Some c.
Proof. destruct x, y; simpl; try congruence; eauto. Qed.

Lemma SFcompare_none x y :
  SFcompare x y <> None -> x <> S754_nan /\ y <> S754_nan.
Proof. destruct x, y; simpl; try congruence; split; congruence. Qed.

Lemma is_nan_spec x : is_nan x = false <-> Prim2SF x <> S754_nan.
Proof.
  unfold is_nan. rewrite eqb_spec. unfold SFeqb. split.
  - intros H E. rewrite E in H. discriminate.
  - intros H. now rewrite (SFcompare_refl H).
Qed.

Lemma eqb_refl x : is_nan x = false -> (x =? x) = true.
Proof. unfold is_nan. now destruct (x =? x). Qed.

Lemma leb_nonnan x y : (x <=? y) = true -> is_nan x = false /\ is_nan y = false.
Proof.
  rewrite leb_spec, !is_nan_spec. unfold SFleb. intros H.
  apply SFcompare_none. intros E. now rewrite E in H.
Qed.

Lemma leb_trans x y z : (x <=? y) = true -> (y <=? z) = true -> (x <=? z) = true.
Proof. rewrite !leb_spec. apply SFleb_trans. Qed.

Lemma leb_refl x : is_nan x = false -> (x <=? x) = true.
Proof.
  rewrite is_nan_spec, leb_spec. unfold SFleb. intros H.
  now rewrite (SFcompare_refl H).
Qed.

Lemma ltb_false_leb x y :
  is_nan x = false -> is_nan y = false -> (y <? x) = false -> (x <=? y) = true.
Proof.
  rewrite !is_nan_spec, ltb_spec, leb_spec. unfold SFltb, SFleb. intros Hx Hy.
  rewrite (SFcompare_antisym (Prim2SF x) (Prim2SF y)).
  destruct (SFcompare_some Hx Hy) as [c ->]. now destruct c.
Qed.

Lemma ltb_leb x y : (x <? y) = true -> (x <=? y) = true.
Proof.
  rewrite ltb_spec, leb_spec. unfold SFltb, SFleb.
  now destruct (SFcompare _ _) as [[]|].
Qed.

Lemma eqb_leb x y : (x =? y) = true -> (x <=? y) = true /\ (y <=? x) = true.
Proof.
  rewrite eqb_spec, !leb_spec. unfold SFeqb, SFleb.
  rewrite (SFcompare_antisym (Prim2SF x) (Prim2SF y)).
  now destruct (SFcompare _ _) as [[]|].
Qed.

Lemma leb_neq_ltb x y : (x <=? y) = true -> (x =? y) = false -> (x <? y) = true.
Proof.
  rewrite eqb_spec, ltb_spec, leb_spec. unfold SFeqb, SFltb, SFleb.
  now destruct (SFcompare _ _) as [[]|].
Qed.

Lemma eqb_sym x y : (x =? y) = (y =? x).
Proof.
  rewrite !eqb_spec. unfold SFeqb.
  rewrite (SFcompare_antisym (Prim2SF x) (Prim2SF y)).
  now destruct (SFcompare _ _) as [[]|].
Qed.

Lemma ltb_not_leb x y : (x <? y) = true -> (y <=? x) = false.
Proof.
  rewrite ltb_spec, leb_spec. unfold SFltb, SFleb.
  rewrite (SFcompare_antisym (Prim2SF x) (Prim2SF y)).
  now destruct (SFcompare _ _) as [[]|].
Qed.

(** Rounding a non-negative mantissa never gives NaN. *)

Lemma shr_1_nonneg mrs : (0 <= shr_m mrs)%Z -> (0 <= shr_m (shr_1 mrs))%Z.
Proof.
  destruct mrs as [m r s]. simpl. destruct m as [|p|p]; simpl; try lia.
  destruct p; simpl; lia.
Qed.

Lemma iter_pos_shr_1_nonneg p : forall mrs,
  (0 <= shr_m mrs)%Z -> (0 <= shr_m (iter_pos shr_1 p mrs))%Z.
Proof.
  induction p as [p IH|p IH|]; intros mrs H; simpl.
  - apply IH, IH, shr_1_nonneg, H.
  - apply IH, IH, H.
  - apply shr_1_nonneg, H.
Qed.

Lemma shr_fexp_nonneg prec emax m e l :
  (0 <= m)%Z -> (0 <= shr_m (fst (shr_fexp prec emax m e l)))%Z.
Proof.
  intros H. unfold shr_fexp, shr.
  assert (H0 : (0 <= shr_m (shr_record_of_loc m l))%Z).
  { destruct l as [|[]]; simpl; exact H. }
  destruct (_ - e)%Z; simpl; auto using iter_pos_shr_1_nonneg.
Qed.

Lemma round_nearest_even_nonneg m l :
  (0 <= m)%Z -> (0 <= round_nearest_even m l)%Z.
Proof.
  intros H. destruct l as [|[]]; simpl; try lia. destruct (Z.even m); lia.
Qed.

Lemma binary_round_aux_not_nan prec emax sx mx ex lx :
  (0 <= mx)%Z -> binary_round_aux prec emax sx mx ex lx <> S754_nan.
Proof.
  intros H. unfold binary_round_aux.
  pose proof (shr_fexp_nonneg prec emax ex lx H) as H1.
  destruct (shr_fexp prec emax mx ex lx) as [mrs' e']. simpl in H1.
  pose proof (shr_fexp_nonneg prec emax e' loc_Exact
                (round_nearest_even_nonneg (loc_of_shr_record mrs') H1)) as H2.
  destruct (shr_fexp prec emax _ e' loc_Exact) as [mrs'' e'']. simpl in H2.
  destruct (shr_m mrs'') as [|p|p]; try congruence; try lia.
  destruct (e'' <=? _)%Z; congruence.
Qed.

Lemma binary_normalize_not_nan prec emax m e s :
  binary_normalize prec emax m e s <> S754_nan.
Proof.
  destruct m as [|p|p]; simpl; try congruence; unfold binary_round;
    destruct (shl_align _ _ _); apply binary_round_aux_not_nan; lia.
Qed.

Lemma is_finite_spec x : is_finite x = true -> SFfinite (Prim2SF x).
Proof.
  unfold is_finite, is_infinity. intros H.
  apply negb_true_iff, orb_false_iff in H. destruct H as [Hn Hi].
  apply is_nan_spec in Hn. rewrite eqb_spec, abs_spec in Hi.
  change (Prim2SF infinity) with (S754_infinity false) in Hi.
  destruct (Prim2SF x) as [s|s| |s m e]; simpl in *; try congruence; auto.
  discriminate Hi.
Qed.

Lemma is_finite_nonnan x : is_finite x = true -> is_nan x = false.
Proof.
  unfold is_finite. intros H. apply negb_true_iff, orb_false_iff in H. tauto.
Qed.

Lemma sub_nonnan x y :
  is_finite x = true -> is_finite y = true -> is_nan (x - y) = false.
Proof.
  intros Hx Hy. apply is_finite_spec in Hx, Hy. apply is_nan_spec.
  rewrite sub_spec. unfold SF64sub, SFsub.
  destruct (Prim2SF x) as [sx|sx| |sx mx ex], (Prim2SF y) as [sy|sy| |sy my ey];
    simpl in *; try tauto; try congruence.
  - destruct sx, sy; congruence.
  - apply binary_normalize_not_nan.
Qed.

Lemma div_nonnan x y :
  is_nan x = false -> is_finite y = true -> (0 <? y) = true -> is_nan (x / y) = false.
Proof.
  intros Hx Hy H0. apply is_finite_spec in Hy. apply is_nan_spec in Hx. apply is_nan_spec.
  rewrite ltb_spec in H0. change (Prim2SF 0) with (S754_zero false) in H0.
  rewrite div_spec. unfold SF64div, SFdiv.
  destruct (Prim2SF x) as [sx|sx| |sx mx ex], (Prim2SF y) as [sy|sy| |sy my ey];
    simpl in *; try tauto; try congruence; try discriminate H0.
  unfold SFdiv_core_binary.
  match goal with |- context [Z.div_eucl ?a ?b] =>
    pose proof (Z_div_mod a b eq_refl) as Hd;
    assert (Ha : (0 <= a)%Z) by
      (destruct (_ - _ - _)%Z; try lia; apply Z.shiftl_nonneg; lia);
    destruct (Z.div_eucl a b) as [q r] end.
  apply binary_round_aux_not_nan. nia.
Qed.

Lemma mul_self_nonnan x : is_nan x = false -> is_nan (x * x) = false.
Proof.
  intros Hx. apply is_nan_spec in Hx. apply is_nan_spec.
  rewrite mul_spec. unfold SF64mul, SFmul.
  destruct (Prim2SF x) as [sx|sx| |sx mx ex]; simpl in *; try congruence.
  apply binary_round_aux_not_nan. lia.
Qed.

End F64.

(** ** Facts on the Python and numpy primitives *)

Lemma bind_Ok_inv {A B : Type} (c : result A) (k : A -> result B) (b : B) :
  bind c k = Ok b -> exists a, c = Ok a /\ k a = Ok b.
Proof. destruct c as [a|e]; simpl; [eauto | discriminate]. Qed.

(** A sequence of statements that returned: its first statement
    returned, and so did the rest. *)
Tactic Notation "bind_inv" hyp(H) "as" simple_intropattern(x) simple_intropattern(Hx) :=
  apply bind_Ok_inv in H; destruct H as [x [Hx H]].

Lemma getitem_Ok {A : Type} (a : list A) (i : nat) (x : A) :
  Py.getitem a i = Ok x <-> nth_error a i = Some x.
Proof.
  unfold Py.getitem. destruct (nth_error a i); split; congruence.
Qed.

Lemma getitem_lt {A : Type} (a : list A) (i : nat) :
  i < length a -> exists x, Py.getitem a i = Ok x /\ nth_error a i = Some x.
Proof.
  intros H. unfold Py.getitem.
  destruct (nth_error a i) as [x|] eqn:E; [eauto|].
  apply nth_error_None in E. lia.
Qed.

Lemma mapM_Ok_length {A B : Type} (f : A -> result B) (l : list A) (ys : list B) :
  mapM f l = Ok ys -> length ys = length l.
Proof.
  revert ys. induction l as [|a l IH]; simpl; intros ys H.
  - now inversion H.
  - bind_inv H as b _.
    bind_inv H as bs Hbs.
    inversion H. simpl. now rewrite (IH bs).
Qed.

Lemma mapM_Ok_nth {A B : Type} (f : A -> result B) (l : list A) (ys : list B) :
  mapM f l = Ok ys ->
  forall i a, nth_error l i = Some a ->
    exists b, nth_error ys i = Some b /\ f a = Ok b.
Proof.
  revert ys. induction l as [|a l IH]; simpl; intros ys H i x Hi.
  - destruct i; discriminate.
  - bind_inv H as b Hb.
    bind_inv H as bs Hbs.
    inversion H; subst. destruct i as [|i]; simpl in *.
    + inversion Hi; subst. eauto.
    + eapply IH; eauto.
Qed.

Lemma mapM_total {A B : Type} (f : A -> result B) (l : list A) :
  (forall a, In a l -> exists b, f a = Ok b) -> exists ys, mapM f l = Ok ys.
Proof.
  induction l as [|a l IH]; simpl; intros H; [eauto|].
  destruct (H a (or_introl eq_refl)) as [b ->]. simpl.
  destruct IH as [ys ->]; [intros; apply H; auto|]. simpl. eauto.
Qed.

Lemma nth_error_combine_seq {A : Type} (l : list A) : forall s i,
  nth_error (combine (seq s (length l)) l) i
  = option_map (fun a => (s + i, a)) (nth_error l i).
Proof.
  induction l as [|a l IH]; intros s i; simpl.
  - now destruct i.
  - destruct i as [|i]; simpl.
    + now rewrite Nat.add_0_r.
    + rewrite IH. now rewrite Nat.add_succ_r.
Qed.

Lemma nth_error_enumerate {A : Type} (l : list A) (i : nat) :
  nth_error (Py.enumerate l) i = option_map (fun a => (i, a)) (nth_error l i).
Proof. unfold Py.enumerate. now rewrite nth_error_combine_seq. Qed.

Lemma length_enumerate {A : Type} (l : list A) : length (Py.enumerate l) = length l.
Proof.
  unfold Py.enumerate. rewrite length_combine, length_seq. apply Nat.min_id.
Qed.

Lemma In_enumerate {A : Type} (l : list A) (i : nat) (a : A) :
  In (i, a) (Py.enumerate l) <-> nth_error l i = Some a.
Proof.
  split.
  - intros H. apply In_nth_error in H. destruct H as [k Hk].
    rewrite nth_error_enumerate in Hk.
    destruct (nth_error l k) as [x|] eqn:E; simpl in Hk; [|discriminate].
    now inversion Hk; subst.
  - intros H. apply (nth_error_In _ i). rewrite nth_error_enumerate, H. reflexivity.
Qed.

(** A loop over [enumerate(l)] whose body succeeds at every position
    returns one result per position. *)
Lemma mapM_enumerate_spec {A B : Type} (f : nat * A -> result B)
    (P : nat -> A -> B -> Prop) (l : list A) :
  (forall i a, nth_error l i = Some a -> exists b, f (i, a) = Ok b /\ P i a b) ->
  exists ys, mapM f (Py.enumerate l) = Ok ys /\ length ys = length l /\
    forall i a, nth_error l i = Some a -> exists b, nth_error ys i = Some b /\ P i a b.
Proof.
  intros H.
  destruct (mapM_total f (Py.enumerate l)) as [ys Hys].
  { intros [i a] Hin. apply In_enumerate in Hin.
    destruct (H i a Hin) as [b [Hb _]]. eauto. }
  exists ys. split; [exact Hys|]. split.
  - rewrite (mapM_Ok_length _ _ Hys). apply length_enumerate.
  - intros i a Hi.
    destruct (mapM_Ok_nth _ _ Hys i (a := (i, a))) as [b [Hb Hf]].
    { rewrite nth_error_enumerate, Hi. reflexivity. }
    exists b. split; [exact Hb|].
    destruct (H i a Hi) as [b' [Hb' HP]]. congruence.
Qed.

(** [np.where(mask)[0]]. *)

Lemma In_nonzero_from (mask : list bool) : forall i j,
  In j (Np.nonzero_from i mask) <-> i <= j /\ nth_error mask (j - i) = Some true.
Proof.
  induction mask as [|b mask IH]; intros i j; simpl.
  - split; [tauto|]. intros [_ H]. destruct (j - i); discriminate.
  - assert (Hrec : In j (Np.nonzero_from (S i) mask) <->
                   i < j /\ nth_error mask (j - S i) = Some true) by apply IH.
    destruct b; simpl; rewrite Hrec; split.
    + intros [<-|[Hlt H]].
      * rewrite Nat.sub_diag. auto.
      * split; [lia|]. replace (j - i) with (S (j - S i)) by lia. exact H.
    + intros [Hle H]. destruct (Nat.eq_dec i j) as [->|Hne]; [auto|right].
      split; [lia|]. replace (j - i) with (S (j - S i)) in H by lia. exact H.
    + intros [Hlt H]. split; [lia|].
      replace (j - i) with (S (j - S i)) by lia. exact H.
    + intros [Hle H]. destruct (Nat.eq_dec i j) as [->|Hne].
      * rewrite Nat.sub_diag in H. discriminate.
      * split; [lia|]. replace (j - i) with (S (j - S i)) in H by lia. exact H.
Qed.

Lemma nonzero_from_head (mask : list bool) : forall i j rest,
  Np.nonzero_from i mask = j :: rest ->
  forall k, i <= k -> k < j -> nth_error mask (k - i) = Some false.
Proof.
  induction mask as [|b mask IH]; intros i j rest H k Hik Hkj; simpl in H.
  - discriminate.
  - destruct b.
    + inversion H; subst. lia.
    + destruct (Nat.eq_dec i k) as [->|Hne].
      * now rewrite Nat.sub_diag.
      * replace (k - i) with (S (k - S i)) by lia. simpl.
        eapply IH; eauto. lia.
Qed.

Lemma nonzero_lt (mask : list bool) :
  Forall (fun j => j < length mask) (Np.nonzero mask).
Proof.
  apply Forall_forall. intros j H. apply In_nonzero_from in H.
  destruct H as [_ H]. rewrite Nat.sub_0_r in H.
  apply nth_error_Some. congruence.
Qed.

Lemma item0_nonzero {A : Type} (test : A -> bool) (l : list A) (j : nat) :
  Py.item0 (Np.nonzero (map test l)) = Ok j <-> first_position test l j.
Proof.
  unfold Py.item0, Np.nonzero. rewrite getitem_Ok. split.
  - intros H. destruct (Np.nonzero_from 0 (map test l)) as [|j' rest] eqn:E;
      simpl in H; [discriminate|]. inversion H; subst j'.
    assert (Hin : In j (Np.nonzero_from 0 (map test l))) by (rewrite E; left; auto).
    apply In_nonzero_from in Hin. destruct Hin as [_ Hj].
    rewrite Nat.sub_0_r, nth_error_map in Hj.
    split.
    + destruct (nth_error l j) as [x|]; simpl in Hj; [|discriminate].
      exists x. split; congruence.
    + intros k x Hk Hx.
      pose proof (nonzero_from_head _ E (k := k) (Nat.le_0_l k) Hk) as Hf.
      rewrite Nat.sub_0_r, nth_error_map, Hx in Hf. simpl in Hf. congruence.
  - intros [[x [Hx Ht]] Hfirst].
    assert (Hin : In j (Np.nonzero_from 0 (map test l))).
    { apply In_nonzero_from. split; [lia|].
      rewrite Nat.sub_0_r, nth_error_map, Hx. simpl. now rewrite Ht. }
    destruct (Np.nonzero_from 0 (map test l)) as [|j' rest] eqn:E; [contradiction|].
    simpl. f_equal.
    assert (Hin' : In j' (Np.nonzero_from 0 (map test l))) by (rewrite E; left; auto).
    apply In_nonzero_from in Hin'. destruct Hin' as [_ Hj'].
    rewrite Nat.sub_0_r, nth_error_map in Hj'.
    destruct (nth_error l j') as [x'|] eqn:Ex'; simpl in Hj'; [|discriminate].
    destruct (Nat.lt_trichotomy j' j) as [Hlt|[->|Hgt]]; [|reflexivity|].
    + specialize (Hfirst j' x' Hlt Ex'). congruence.
    + pose proof (nonzero_from_head _ E (k := j) (Nat.le_0_l j) Hgt) as Hf.
      rewrite Nat.sub_0_r, nth_error_map, Hx in Hf. simpl in Hf. congruence.
Qed.

Lemma first_position_exists {A : Type} (test : A -> bool) (l : list A) :
  (exists x, In x l /\ test x = true) -> exists j, first_position test l j.
Proof.
  induction l as [|a l IH]; intros [x [Hin Hx]]; [contradiction|].
  destruct (test a) eqn:Ea.
  - exists 0. split; [exists a; auto|]. intros k y Hk. lia.
  - destruct Hin as [->|Hin]; [congruence|].
    destruct IH as [j [[y [Hy Hty]] Hf]]; [eauto|].
    exists (S j). split; [exists y; auto|].
    intros k z Hk Hz. destruct k as [|k]; simpl in Hz.
    + congruence.
    + apply (Hf k z); [lia|exact Hz].
Qed.

Lemma first_position_lt {A : Type} (test : A -> bool) (l : list A) (j : nat) :
  first_position test l j -> j < length l.
Proof.
  intros [[x [Hx _]] _]. apply nth_error_Some. congruence.
Qed.

Lemma take_item0 {A : Type} (a : list A) (j : nat) (rest : list nat) :
  Forall (fun k => k < length a) (j :: rest) ->
  (l <- Np.take a (j :: rest) ;; Py.item0 l) = Py.getitem a j.
Proof.
  intros H. unfold Np.take. simpl.
  inversion H as [|? ? Hj Hrest]; subst.
  destruct (getitem_lt a Hj) as [x [-> _]]. simpl.
  destruct (mapM_total (Py.getitem a) rest) as [xs ->].
  { intros k Hk. rewrite Forall_forall in Hrest.
    destruct (getitem_lt a (Hrest k Hk)) as [y [Hy _]]. eauto. }
  reflexivity.
Qed.

(** Builtin [min] on floats that are no NaN: a least element. *)

Lemma fold_min_spec (r : list float) : forall x,
  is_nan x = false -> Forall (fun y => is_nan y = false) r ->
  let m := fold_left (fun m y => if (y <? m)%float then y else m) r x in
  In m (x :: r) /\ is_nan m = false /\
  (m <=? x)%float = true /\ forall y, In y r -> (m <=? y)%float = true.
Proof.
  induction r as [|y r IH]; intros x Hx Hr; simpl.
  - split; [auto|]. split; [exact Hx|]. split; [now apply F64.leb_refl|].
    intros y [].
  - inversion Hr as [|? ? Hy Hr']; subst.
    destruct (y <? x)%float eqn:E.
    + destruct (IH y Hy Hr') as [Hin [Hn [Hle Hall]]].
      split; [simpl in Hin; tauto|]. split; [exact Hn|]. split.
      * eapply F64.leb_trans; [exact Hle|]. now apply F64.ltb_leb.
      * intros z [<-|Hz]; auto.
    + destruct (IH x Hx Hr') as [Hin [Hn [Hle Hall]]].
      split; [simpl in Hin; tauto|]. split; [exact Hn|]. split; [exact Hle|].
      intros z [<-|Hz]; auto.
      eapply F64.leb_trans; [exact Hle|]. now apply F64.ltb_false_leb.
Qed.

Lemma py_min_spec (l : list float) :
  l <> [] -> Forall (fun y => is_nan y = false) l ->
  exists m, Py.min l = Ok m /\ In m l /\ is_nan m = false /\
            forall y, In y l -> (m <=? y)%float = true.
Proof.
  destruct l as [|x r]; [congruence|]. intros _ H.
  inversion H as [|? ? Hx Hr]; subst.
  destruct (@fold_min_spec r x Hx Hr) as [Hin [Hn [Hle Hall]]].
  eexists. split; [reflexivity|]. repeat split; auto.
  intros y [<-|Hy]; auto.
Qed.

Lemma eqb_ltb_trans (x y z : float) :
  (x =? y)%float = true -> (y <? z)%float = true -> (x <? z)%float = true.
Proof.
  intros Hxy Hyz. destruct (F64.eqb_leb Hxy) as [Hle Hge].
  apply F64.leb_neq_ltb.
  - eapply F64.leb_trans; [exact Hle|]. now apply F64.ltb_leb.
  - destruct (x =? z)%float eqn:E; [|reflexivity].
    destruct (F64.eqb_leb E) as [_ Hzx].
    pose proof (F64.leb_trans Hzx Hle) as Hzy.
    rewrite (F64.ltb_not_leb Hyz) in Hzy. discriminate.
Qed.

Lemma item0_cons_inv {A : Type} (l : list A) (x : A) :
  Py.item0 l = Ok x -> exists rest, l = x :: rest.
Proof.
  unfold Py.item0. rewrite getitem_Ok. destruct l as [|y l]; simpl; [discriminate|].
  intros H. inversion H. eauto.
Qed.

(** ** SequenceMatcher *)

Section Matcher.

Variable scalar_pow2 : float -> float.
Hypothesis pow2_numbers : pow2_of_number scalar_pow2.
Variables (tperiods : list float) (orders : list Z).
Hypothesis orders_aligned : length orders = length tperiods.
Hypothesis tperiods_finite : Forall (fun t => is_finite t = true) tperiods.

Lemma chisqs_of_nonnan (period err : float) :
  is_finite period = true -> positive_error err ->
  Forall (fun c => is_nan c = false) (chisqs_of scalar_pow2 tperiods period err).
Proof.
  intros Hp [He1 He2]. unfold chisqs_of. apply Forall_map.
  eapply Forall_impl; [|exact tperiods_finite]. intros t Ht. simpl.
  apply pow2_numbers, F64.div_nonnan; auto.
  now apply F64.sub_nonnan.
Qed.

Lemma nth_error_chisqs_of (period err : float) (k : nat) :
  nth_error (chisqs_of scalar_pow2 tperiods period err) k
  = option_map (fun t => scalar_pow2 ((period - t) / err)%float) (nth_error tperiods k).
Proof. unfold chisqs_of. apply nth_error_map. Qed.

(** The row built for one observed period: the theoretical period of
    least chi-square, the first one among equals. *)
Lemma best_pair_spec (operiods_errors : list float) (ii : nat) (period err : float) :
  tperiods <> [] ->
  nth_error operiods_errors ii = Some err ->
  is_finite period = true -> positive_error err ->
  let chi := fun t => scalar_pow2 ((period - t) / err)%float in
  exists j t o,
    nth_error tperiods j = Some t /\ nth_error orders j = Some o /\
    best_pair scalar_pow2 tperiods orders operiods_errors ii period
      = Ok (mkPair period t (Np.float_of_int64 o) (chi t)) /\
    (forall k t', nth_error tperiods k = Some t' -> (chi t <=? chi t')%float = true) /\
    (forall k t', k < j -> nth_error tperiods k = Some t' ->
                  (chi t <? chi t')%float = true).
Proof.
  intros Hne Herr Hp He chi.
  pose proof (@chisqs_of_nonnan period err Hp He) as Hnn.
  set (chisqs := chisqs_of scalar_pow2 tperiods period err) in *.
  assert (Hlen : length chisqs = length tperiods) by apply length_map.
  destruct (@py_min_spec chisqs) as [m [Hmin [Hin [Hm Hall]]]]; auto.
  { intros E. apply Hne. apply length_zero_iff_nil. rewrite <- Hlen, E. reflexivity. }
  destruct (@first_position_exists _ (fun c => (c =? m)%float) chisqs) as [j Hj].
  { exists m. split; [exact Hin|]. now apply F64.eqb_refl. }
  pose proof (proj2 (item0_nonzero _ _ _) Hj) as Hitem.
  destruct (item0_cons_inv _ Hitem) as [rest Hnz].
  pose proof (nonzero_lt (map (fun c => (c =? m)%float) chisqs)) as Hlt.
  rewrite Hnz, length_map in Hlt.
  pose proof (first_position_lt Hj) as Hjlt.
  destruct Hj as [[c [Hc Hcm]] Hfirst].
  unfold chisqs in Hc. rewrite nth_error_chisqs_of in Hc.
  destruct (nth_error tperiods j) as [t|] eqn:Et; simpl in Hc; [|discriminate].
  inversion Hc as [Hct]. 
  destruct (@getitem_lt _ orders j) as [o [Ho Eo]]; [lia|].
  exists j, t, o. split; [exact Et|]. split; [exact Eo|].
  assert (Hle : forall k t', nth_error tperiods k = Some t' ->
                             (chi t <=? chi t')%float = true).
  { intros k t' Hk. fold (chi t) in Hct. rewrite Hct.
    eapply F64.leb_trans; [apply (F64.eqb_leb Hcm)|].
    apply Hall. apply (nth_error_In _ k). unfold chisqs.
    rewrite nth_error_chisqs_of, Hk. reflexivity. }
  split; [|split; [exact Hle|]].
  - subst chisqs. unfold best_pair.
    destruct tperiods as [|t0 tp] eqn:Etp; [congruence|].
    rewrite <- Etp in *. unfold Py.getitem at 1. rewrite Herr. simpl bind.
    rewrite Hmin. simpl bind. rewrite Hnz.
    rewrite take_item0 by (rewrite <- Hlen; exact Hlt).
    rewrite take_item0 by (rewrite orders_aligned, <- Hlen; exact Hlt).
    rewrite take_item0 by exact Hlt.
    unfold Py.getitem at 1. rewrite Et. simpl bind. rewrite Ho. simpl bind.
    unfold Py.getitem. rewrite nth_error_chisqs_of, Et. reflexivity.
  - intros k t' Hk Ht'. fold (chi t) in Hct. rewrite Hct.
    apply eqb_ltb_trans with (y := m); [exact Hcm|].
    assert (Hck : nth_error chisqs k = Some (chi t')).
    { unfold chisqs. rewrite nth_error_chisqs_of, Ht'. reflexivity. }
    apply F64.leb_neq_ltb.
    + apply Hall. eapply nth_error_In; eauto.
    + rewrite F64.eqb_sym. apply (Hfirst k _ Hk Hck).
Qed.

(** The row is the one of position [j] as soon as [j] is the first
    position of least chi-square. *)
Lemma best_pair_at (operiods_errors : list float) (ii : nat) (period err : float)
    (j : nat) (t : float) (o : Z) :
  tperiods <> [] ->
  nth_error operiods_errors ii = Some err ->
  is_finite period = true -> positive_error err ->
  nth_error tperiods j = Some t -> nth_error orders j = Some o ->
  let chi := fun t => scalar_pow2 ((period - t) / err)%float in
  (forall k t', nth_error tperiods k = Some t' -> (chi t <=? chi t')%float = true) ->
  (forall k t', k < j -> nth_error tperiods k = Some t' ->
                (chi t <? chi t')%float = true) ->
  best_pair scalar_pow2 tperiods orders operiods_errors ii period
  = Ok (mkPair period t (Np.float_of_int64 o) (chi t)).
Proof.
  intros Hne Herr Hp He Ht Ho chi Hle Hlt.
  destruct (@best_pair_spec operiods_errors ii period err Hne Herr Hp He)
    as [j' [t' [o' [Ht' [Ho' [Hrow [Hle' Hlt']]]]]]].
  fold chi in Hrow, Hle', Hlt'.
  assert (j' = j).
  { destruct (Nat.lt_trichotomy j' j) as [C|[C|C]]; [|exact C|].
    - pose proof (Hlt j' t' C Ht') as H1. pose proof (Hle' j t Ht) as H2.
      apply F64.ltb_not_leb in H1. unfold chi in *. congruence.
    - pose proof (Hlt' j t C Ht) as H1. pose proof (Hle j' t' Ht') as H2.
      apply F64.ltb_not_leb in H1. unfold chi in *. congruence. }
  subst j'. assert (t' = t) by congruence. assert (o' = o) by congruence.
  subst. exact Hrow.
Qed.

End Matcher.

(** The rows of a call of the matcher on numbers: one per observed
    period, holding that period and one of the theoretical periods. *)
Lemma sequence_matcher_rows (scalar_pow2 : float -> float)
    (tperiods : list float) (orders : list Z) (operiods operiods_errors : list float) :
  pow2_of_number scalar_pow2 ->
  length orders = length tperiods ->
  length operiods_errors = length operiods ->
  length operiods <= length tperiods ->
  Forall (fun t => is_finite t = true) tperiods ->
  Forall (fun p => is_finite p = true) operiods ->
  Forall positive_error operiods_errors ->
  exists pairs_orders,
    sequence_matcher scalar_pow2 tperiods orders operiods operiods_errors
    = Ok pairs_orders /\
    length pairs_orders = length operiods /\
    forall i row, nth_error pairs_orders i = Some row ->
      nth_error operiods i = Some (obs_period row) /\ In (best_match row) tperiods.
Proof.
  intros Hpow Hord Herr HTO Htf Hpf Hef. unfold sequence_matcher.
  destruct (@mapM_enumerate_spec _ _
              (fun ip => best_pair scalar_pow2 tperiods orders operiods_errors
                                   (fst ip) (snd ip))
              (fun i p row => obs_period row = p /\ In (best_match row) tperiods)
              operiods) as [rows [Hrows [Hlen Hnth]]].
  - intros i p Hi. cbn [fst snd].
    assert (Hilt : i < length operiods) by (apply nth_error_Some; congruence).
    destruct (@getitem_lt _ operiods_errors i) as [s [_ Es]]; [lia|].
    assert (Hne : tperiods <> []) by (intros ->; simpl in HTO; lia).
    assert (Hp : is_finite p = true).
    { rewrite Forall_forall in Hpf. eapply Hpf, nth_error_In, Hi. }
    assert (Hs : positive_error s).
    { rewrite Forall_forall in Hef. eapply Hef, nth_error_In, Es. }
    destruct (@best_pair_spec scalar_pow2 Hpow tperiods orders Hord Htf
                operiods_errors i p s Hne Es Hp Hs)
      as [j [t [o [Ht [_ [Hrow _]]]]]].
    eexists. split; [exact Hrow|]. simpl. split; [reflexivity|].
    eapply nth_error_In, Ht.
  - exists rows. split; [exact Hrows|]. split; [exact Hlen|].
    intros i row Hrow.
    assert (Hilt : i < length operiods).
    { rewrite <- Hlen. apply nth_error_Some. congruence. }
    destruct (getitem_lt operiods Hilt) as [p [_ Ep]].
    destruct (Hnth i p Ep) as [row' [Hrow' [Hop Hbm]]].
    rewrite Hrow in Hrow'. apply (f_equal (fun r => match r with
                                                    | Some r => r
                                                    | None => row
                                                    end)) in Hrow'.
    simpl in Hrow'. subst row'. rewrite Hop. auto.
Qed.

(** The product is a scalar power of the kind the properties ask for:
    the correctly rounded one. *)
Lemma pow2_is_of_number : pow2_of_number pow2.
Proof. intros x Hx. now apply F64.mul_self_nonnan. Qed.

Lemma pow2_is_libm : libm_pow2 pow2.
Proof.
  split; [exact pow2_is_of_number|]. split.
  - intros x. unfold pow2. apply FloatAxioms.Prim2SF_inj.
    rewrite !FloatAxioms.mul_spec, FloatAxioms.opp_spec.
    destruct (Prim2SF x) as [sx|sx| |sx mx ex]; simpl; try reflexivity;
      destruct sx; reflexivity.
  - intros x. now left.
Qed.

(** C3. For every observed period [p_i] with a finite error
    [sigma_i > 0], finite periods and a theoretical spectrum of length
    [T >= O], SequenceMatcher returns one row per observed period, and
    the row of [p_i] is [(p_i, t_j, order_j, chi2_j)] where
    [chi2_k = ((p_i - t_k)/sigma_i)**2] is computed with the scalar power
    of the C library and [j] minimises [chi2] over [0 <= k < T], the
    lowest such index among equals. It holds for every scalar power
    that gives a number for a number. *)
Theorem sequence_matcher_first_minimum (scalar_pow2 : float -> float)
    (tperiods : list float) (orders : list Z) (operiods operiods_errors : list float) :
  pow2_of_number scalar_pow2 ->
  length orders = length tperiods ->
  length operiods_errors = length operiods ->
  length operiods <= length tperiods ->
  Forall (fun t => is_finite t = true) tperiods ->
  Forall (fun p => is_finite p = true) operiods ->
  Forall positive_error operiods_errors ->
  exists pairs_orders,
    sequence_matcher scalar_pow2 tperiods orders operiods operiods_errors
    = Ok pairs_orders /\
    length pairs_orders = length operiods /\
    forall i p s,
      nth_error operiods i = Some p -> nth_error operiods_errors i = Some s ->
      let chi := fun t => scalar_pow2 ((p - t) / s)%float in
      exists j t o,
        nth_error tperiods j = Some t /\ nth_error orders j = Some o /\
        nth_error pairs_orders i = Some (mkPair p t (Np.float_of_int64 o) (chi t)) /\
        (forall k t', nth_error tperiods k = Some t' ->
                      (chi t <=? chi t')%float = true) /\
        (forall k t', k < j -> nth_error tperiods k = Some t' ->
                      (chi t <? chi t')%float = true).
Proof.
  intros Hpow Hord Herr HTO Htf Hpf Hef. unfold sequence_matcher.
  destruct (@mapM_enumerate_spec _ _
              (fun ip => best_pair scalar_pow2 tperiods orders operiods_errors
                                   (fst ip) (snd ip))
              (fun i p row => forall s, nth_error operiods_errors i = Some s ->
                 let chi := fun t => scalar_pow2 ((p - t) / s)%float in
                 exists j t o,
                   nth_error tperiods j = Some t /\ nth_error orders j = Some o /\
                   row = mkPair p t (Np.float_of_int64 o) (chi t) /\
                   (forall k t', nth_error tperiods k = Some t' ->
                                 (chi t <=? chi t')%float = true) /\
                   (forall k t', k < j -> nth_error tperiods k = Some t' ->
                                 (chi t <? chi t')%float = true))
              operiods) as [rows [Hrows [Hlen Hnth]]].
  - intros i p Hi. simpl.
    assert (Hilt : i < length operiods) by (apply nth_error_Some; congruence).
    destruct (nth_error operiods_errors i) as [s|] eqn:Es;
      [|apply nth_error_None in Es; lia].
    assert (Hne : tperiods <> []) by (intros ->; simpl in HTO; lia).
    assert (Hp : is_finite p = true).
    { rewrite Forall_forall in Hpf. eapply Hpf, nth_error_In, Hi. }
    assert (Hs : positive_error s).
    { rewrite Forall_forall in Hef. eapply Hef, nth_error_In, Es. }
    destruct (@best_pair_spec scalar_pow2 Hpow tperiods orders Hord Htf
                operiods_errors i p s Hne Es Hp Hs)
      as [j [t [o [Ht [Ho [Hrow [Hle Hlt]]]]]]].
    eexists. split; [exact Hrow|].
    intros s' Hs'. injection Hs' as <-. exists j, t, o. auto.
  - exists rows. split; [exact Hrows|]. split; [exact Hlen|].
    intros i p s Hi Hs. cbv zeta.
    destruct (Hnth i p Hi) as [row [Hrow Hspec]].
    destruct (Hspec s Hs) as [j [t [o [Ht [Ho [-> [Hle Hlt]]]]]]].
    exists j, t, o. auto.
Qed.

Lemma sequence_matcher_first_minimum_witness :
  (pow2_of_number pow2 /\
   length orders_M = length tperiods_M /\
   length errors_M = length operiods_M /\
   length operiods_M <= length tperiods_M /\
   Forall (fun t => is_finite t = true) tperiods_M /\
   Forall (fun p => is_finite p = true) operiods_M /\
   Forall positive_error errors_M) /\
  sequence_matcher pow2 tperiods_M orders_M operiods_M errors_M
  = Ok [mkPair 1.5 1.0 (-5) 16.0; mkPair 4.0 4.0 (-2) 0.0] /\
  exists pairs_orders,
    sequence_matcher pow2 tperiods_M orders_M operiods_M errors_M = Ok pairs_orders /\
    length pairs_orders = length operiods_M /\
    forall i p s,
      nth_error operiods_M i = Some p -> nth_error errors_M i = Some s ->
      let chi := fun t => pow2 ((p - t) / s)%float in
      exists j t o,
        nth_error tperiods_M j = Some t /\ nth_error orders_M j = Some o /\
        nth_error pairs_orders i = Some (mkPair p t (Np.float_of_int64 o) (chi t)) /\
        (forall k t', nth_error tperiods_M k = Some t' ->
                      (chi t <=? chi t')%float = true) /\
        (forall k t', k < j -> nth_error tperiods_M k = Some t' ->
                      (chi t <? chi t')%float = true).
Proof.
  assert (H : pow2_of_number pow2 /\
              length orders_M = length tperiods_M /\
              length errors_M = length operiods_M /\
              length operiods_M <= length tperiods_M /\
              Forall (fun t => is_finite t = true) tperiods_M /\
              Forall (fun p => is_finite p = true) operiods_M /\
              Forall positive_error errors_M).
  { split; [exact pow2_is_of_number|].
    repeat split; try reflexivity; simpl; try lia; repeat constructor. }
  split; [exact H|]. split; [vm_compute; reflexivity|].
  destruct H as [H0 [H1 [H2 [H3 [H4 [H5 H6]]]]]].
  exact (@sequence_matcher_first_minimum pow2 tperiods_M orders_M operiods_M errors_M
           H0 H1 H2 H3 H4 H5 H6).
Defined.

(** ** RunSegmenter *)

Lemma combine_app_eq {A B : Type} (l1 : list A) : forall (l1' : list B) l2 l2',
  length l1 = length l1' ->
  combine (l1 ++ l2) (l1' ++ l2') = combine l1 l1' ++ combine l2 l2'.
Proof.
  induction l1 as [|a l1 IH]; intros [|b l1'] l2 l2' H; simpl in *;
    try discriminate; [reflexivity|].
  f_equal. apply IH. now inversion H.
Qed.

Lemma enumerate_snoc {A : Type} (l : list A) (x : A) :
  Py.enumerate (l ++ [x]) = Py.enumerate l ++ [(length l, x)].
Proof.
  unfold Py.enumerate. rewrite length_app. simpl.
  rewrite seq_app. simpl.
  rewrite combine_app_eq by (now rewrite length_seq). reflexivity.
Qed.

Lemma enumerate_fst_lt {A : Type} (l : list A) :
  Forall (fun it => fst it < length l) (Py.enumerate l).
Proof.
  apply Forall_forall. intros [i a] H. apply In_enumerate in H. simpl.
  apply nth_error_Some. congruence.
Qed.

Lemma map_snd_enumerate {A : Type} (l : list A) : map snd (Py.enumerate l) = l.
Proof.
  unfold Py.enumerate. generalize 0. induction l as [|a l IH]; intros s; simpl.
  - reflexivity.
  - now rewrite IH.
Qed.

Section Segmenter.

Variables (pairs_orders : list pair) (step : Z) (lp : nat).

Lemma segment_step_inner st rows ii sett :
  ii <> lp - 1 -> segmented st rows ->
  segmented (segment_step pairs_orders step lp st (ii, sett)) (rows ++ [sett]).
Proof.
  intros Hii [Hrows Hne]. destruct st as [current sequences]. simpl in *.
  apply Nat.eqb_neq in Hii. rewrite Hii.
  destruct (consecutive step sett _); unfold segmented; simpl.
  - split; [|exact Hne]. now rewrite app_assoc, Hrows.
  - split.
    + rewrite concat_app. simpl. rewrite !app_nil_r, app_assoc. now rewrite Hrows.
    + apply Forall_app. split; [exact Hne|]. constructor; [|constructor].
      now destruct current.
Qed.

Lemma segment_fold_inner items : forall st rows,
  Forall (fun it => fst it <> lp - 1) items -> segmented st rows ->
  segmented (fold_left (segment_step pairs_orders step lp) items st)
            (rows ++ map snd items).
Proof.
  induction items as [|[ii sett] items IH]; intros st rows Hit Hst; simpl.
  - now rewrite app_nil_r.
  - inversion Hit as [|? ? Hii Hrest]; subst. simpl in Hii.
    replace (rows ++ sett :: map snd items) with ((rows ++ [sett]) ++ map snd items)
      by (now rewrite <- app_assoc).
    apply IH; [exact Hrest|]. now apply segment_step_inner.
Qed.

(** The last turn closes the open run after appending the row of the
    turn a second time. *)
Lemma segment_step_last st rows ii sett :
  ii = lp - 1 -> segmented st rows ->
  let st' := segment_step pairs_orders step lp st (ii, sett) in
  fst st' = [] /\ concat (snd st') = rows ++ [sett; sett] /\
  Forall (fun r => r <> []) (snd st').
Proof.
  intros Hii [Hrows Hne]. destruct st as [current sequences]. simpl in *.
  apply Nat.eqb_eq in Hii. rewrite Hii.
  destruct (consecutive step sett _); simpl.
  - split; [reflexivity|]. split.
    + rewrite <- Hrows, concat_app. simpl.
      rewrite ?app_nil_r, <- ?app_assoc. reflexivity.
    + apply Forall_app. split; [exact Hne|]. constructor; [|constructor].
      now destruct current.
  - split; [reflexivity|]. split.
    + rewrite <- Hrows, !concat_app. simpl.
      rewrite ?app_nil_r, <- ?app_assoc. reflexivity.
    + repeat (apply Forall_app; split); auto; constructor; try constructor;
        try discriminate. now destruct current.
Qed.

End Segmenter.

(** What the loop of RunSegmenter builds from the rows [body ++ [x; y]]:
    runs that hold [body], then [x] twice; the last row [y] is in no
    run by its own position. *)
Lemma run_segmenter_concat (step : Z) (body : list pair) (x y : pair) :
  concat (run_segmenter step (body ++ [x; y])) = body ++ [x; x] /\
  Forall (fun r => r <> []) (run_segmenter step (body ++ [x; y])).
Proof.
  unfold run_segmenter.
  replace (body ++ [x; y]) with ((body ++ [x]) ++ [y]) by (now rewrite <- app_assoc).
  rewrite removelast_last, enumerate_snoc, fold_left_app. simpl fold_left.
  set (ps := (body ++ [x]) ++ [y]).
  set (lp := length (body ++ [x])).
  assert (Hinner : segmented (fold_left (segment_step ps step lp) (Py.enumerate body)
                                        ([], [])) body).
  { rewrite <- (map_snd_enumerate body) at 2.
    apply (@segment_fold_inner ps step lp (Py.enumerate body) ([], []) []).
    - eapply Forall_impl; [|apply enumerate_fst_lt]. intros it Hit.
      cbv beta in *. unfold lp. rewrite length_app. simpl. lia.
    - split; [reflexivity|constructor]. }
  assert (Hlast : length body = lp - 1).
  { unfold lp. rewrite length_app. simpl. lia. }
  destruct (@segment_step_last ps step lp _ body (length body) x Hlast Hinner)
    as [_ [Hc Hne]].
  split; [exact Hc|exact Hne].
Qed.

Lemma run_segmenter_short (step : Z) (pairs_orders : list pair) :
  length pairs_orders <= 1 -> run_segmenter step pairs_orders = [].
Proof.
  destruct pairs_orders as [|x [|y l]]; simpl; intros H; try reflexivity. lia.
Qed.

Lemma run_segmenter_nonempty (step : Z) (body : list pair) (x y : pair) :
  run_segmenter step (body ++ [x; y]) <> [].
Proof.
  intros E. destruct (run_segmenter_concat step body x y) as [Hc _].
  rewrite E in Hc. simpl in Hc. destruct body; discriminate.
Qed.

(** ** A single observed period *)

Lemma chisq_longest_sequence_single_raises (np_sum : list float -> float)
    (scalar_pow2 : float -> float)
    (tperiods : list float) (orders : list Z) (p e : float) :
  1 <= length tperiods ->
  raises (chisq_longest_sequence np_sum scalar_pow2 tperiods orders [p] [e]).
Proof.
  intros HT. unfold chisq_longest_sequence, raises.
  replace (length tperiods <? length [p]) with false
    by (symmetry; apply Nat.ltb_ge; simpl; lia).
  destruct (sequence_matcher scalar_pow2 tperiods orders [p] [e]) as [rows|err] eqn:Em;
    simpl; [|eauto].
  destruct (increase_or_decrease orders) as [step|err]; simpl; [|eauto].
  rewrite run_segmenter_short.
  - simpl. eauto.
  - unfold sequence_matcher in Em. apply mapM_Ok_length in Em.
    rewrite Em. reflexivity.
Qed.

(** ** Scenario A with the scalar power of the C library *)

(** Every chi-square is replaced by the square or one of its two
    neighbours, and the comparison is computed. *)
Ltac ulp_compare Hulp c :=
  repeat match goal with
         | |- context [c ?a] =>
             let E := fresh "E" in
             destruct (Hulp a) as [E|[E|E]]; rewrite E; clear E
         end;
  vm_compute; reflexivity.

Lemma Some_inj {A : Type} (a b : A) : Some a = Some b -> a = b.
Proof. congruence. Qed.

Lemma scenario_A_matcher (scalar_pow2 : float -> float) :
  libm_pow2 scalar_pow2 ->
  sequence_matcher scalar_pow2 tperiods_A orders_A operiods_A errors_A
  = Ok [pair_A0 scalar_pow2; pair_A1 scalar_pow2].
Proof.
  intros [Hnum [Heven Hulp]].
  assert (Hfin : Forall (fun t => is_finite t = true) tperiods_A)
    by (repeat constructor).
  assert (Herr : positive_error 0.01%float) by (split; reflexivity).
  assert (Hne : tperiods_A <> []) by discriminate.
  assert (H0 : best_pair scalar_pow2 tperiods_A orders_A errors_A 0 1.05%float
               = Ok (pair_A0 scalar_pow2)).
  { refine (@best_pair_at scalar_pow2 Hnum tperiods_A orders_A eq_refl Hfin
              errors_A 0 1.05%float 0.01%float 0 1.0%float (-5)%Z
              Hne eq_refl eq_refl Herr eq_refl eq_refl _ _).
    - intros k t' Hk.
      destruct k as [|[|[|[|[|k]]]]]; unfold tperiods_A in Hk; cbn [nth_error] in Hk;
        try (destruct k; discriminate); apply Some_inj in Hk; subst t';
        [ulp_compare Hulp scalar_pow2| |
         ulp_compare Hulp scalar_pow2|ulp_compare Hulp scalar_pow2|
         ulp_compare Hulp scalar_pow2].
      replace ((1.05 - 1.1) / 0.01)%float with (- ((1.05 - 1.0) / 0.01))%float
        by (vm_compute; reflexivity).
      rewrite Heven. ulp_compare Hulp scalar_pow2.
    - intros k t' Hk. lia. }
  assert (H1 : best_pair scalar_pow2 tperiods_A orders_A errors_A 1 1.22%float
               = Ok (pair_A1 scalar_pow2)).
  { refine (@best_pair_at scalar_pow2 Hnum tperiods_A orders_A eq_refl Hfin
              errors_A 1 1.22%float 0.01%float 2 1.2%float (-3)%Z
              Hne eq_refl eq_refl Herr eq_refl eq_refl _ _).
    - intros k t' Hk.
      destruct k as [|[|[|[|[|k]]]]]; unfold tperiods_A in Hk; cbn [nth_error] in Hk;
        try (destruct k; discriminate); apply Some_inj in Hk; subst t';
        ulp_compare Hulp scalar_pow2.
    - intros k t' Hlt Hk.
      destruct k as [|[|k]]; [| |lia]; unfold tperiods_A in Hk;
        cbn [nth_error] in Hk; apply Some_inj in Hk; subst t';
        ulp_compare Hulp scalar_pow2. }
  unfold sequence_matcher, operiods_A, Py.enumerate.
  cbn [length seq combine mapM fst snd]. rewrite H0. cbn [bind]. rewrite H1. reflexivity.
Qed.

Lemma pair_A0_not_pair_A1 (scalar_pow2 : float -> float) :
  pair_A0 scalar_pow2 <> pair_A1 scalar_pow2.
Proof.
  intros H. apply (f_equal (fun r => (obs_period r =? 1.05)%float)) in H.
  vm_compute in H. discriminate.
Qed.

Lemma scenario_A_runs (scalar_pow2 : float -> float) :
  run_segmenter 1 [pair_A0 scalar_pow2; pair_A1 scalar_pow2]
  = [[pair_A0 scalar_pow2]; [pair_A0 scalar_pow2]].
Proof. vm_compute. reflexivity. Qed.

(** C1 (the code departs from it). On scenario A the matcher hands two
    rows to RunSegmenter, and the runs returned are [[row0]] and
    [[row0]]: the last row is in no run and the row before it is in
    two, so the runs are no partition of the input. It holds with every
    scalar power that is even and within one unit in the last place of
    the square. *)
Theorem run_segmenter_loses_last_pair (scalar_pow2 : float -> float) :
  libm_pow2 scalar_pow2 ->
  sequence_matcher scalar_pow2 tperiods_A orders_A operiods_A errors_A
  = Ok [pair_A0 scalar_pow2; pair_A1 scalar_pow2] /\
  increase_or_decrease orders_A = Ok 1%Z /\
  run_segmenter 1 [pair_A0 scalar_pow2; pair_A1 scalar_pow2]
  = [[pair_A0 scalar_pow2]; [pair_A0 scalar_pow2]] /\
  concat (run_segmenter 1 [pair_A0 scalar_pow2; pair_A1 scalar_pow2])
  <> [pair_A0 scalar_pow2; pair_A1 scalar_pow2] /\
  ~ In (pair_A1 scalar_pow2)
       (concat (run_segmenter 1 [pair_A0 scalar_pow2; pair_A1 scalar_pow2])).
Proof.
  intros Hpow. pose proof (@pair_A0_not_pair_A1 scalar_pow2) as Hne.
  split; [exact (scenario_A_matcher Hpow)|]. split; [vm_compute; reflexivity|].
  rewrite scenario_A_runs. split; [reflexivity|]. simpl. split.
  - intros H. apply (f_equal (fun l => nth 1 l (pair_A0 scalar_pow2))) in H.
    exact (Hne H).
  - intros [H|[H|[]]]; exact (Hne H).
Qed.

Lemma run_segmenter_loses_last_pair_witness :
  libm_pow2 pow2 /\
  sequence_matcher pow2 tperiods_A orders_A operiods_A errors_A
  = Ok [pair_A0 pow2; pair_A1 pow2] /\
  increase_or_decrease orders_A = Ok 1%Z /\
  run_segmenter 1 [pair_A0 pow2; pair_A1 pow2] = [[pair_A0 pow2]; [pair_A0 pow2]] /\
  concat (run_segmenter 1 [pair_A0 pow2; pair_A1 pow2])
  <> [pair_A0 pow2; pair_A1 pow2] /\
  ~ In (pair_A1 pow2) (concat (run_segmenter 1 [pair_A0 pow2; pair_A1 pow2])).
Proof.
  split; [exact pow2_is_libm|].
  exact (@run_segmenter_loses_last_pair pow2 pow2_is_libm).
Defined.

(** C2 (the code departs from it). With one observed period and two
    theoretical ones the loop of RunSegmenter has no turn, no run is
    returned and [max] of the empty list of lengths raises. It holds
    with every reduction [np.sum] and every scalar power that gives a
    number for a number. *)
Theorem chisq_longest_sequence_single_period_fails :
  forall (np_sum : list float -> float) (scalar_pow2 : float -> float),
    pow2_of_number scalar_pow2 ->
    run_segmenter 1 [mkPair 1.05 1.0 (-2) (scalar_pow2 ((1.05 - 1.0) / 0.01)%float)]
    = [] /\
    chisq_longest_sequence np_sum scalar_pow2
                           [1.0; 1.1]%float [-2; -1]%Z [1.05]%float [0.01]%float
    = Raise ValueError.
Proof.
  intros np_sum scalar_pow2 Hnum. split; [reflexivity|].
  destruct (@sequence_matcher_rows scalar_pow2 [1.0; 1.1]%float [-2; -1]%Z
              [1.05]%float [0.01]%float Hnum eq_refl eq_refl)
    as [rows [Hm [Hl _]]].
  - simpl. lia.
  - repeat constructor.
  - repeat constructor.
  - repeat constructor.
  - unfold chisq_longest_sequence. cbn [length Nat.ltb Nat.leb].
    rewrite Hm. cbn [bind].
    replace (increase_or_decrease [-2; -1]%Z) with (Ok 1%Z : result Z)
      by (vm_compute; reflexivity).
    cbn [bind]. rewrite run_segmenter_short by (rewrite Hl; simpl; lia).
    reflexivity.
Qed.

Lemma chisq_longest_sequence_single_period_fails_witness :
  pow2_of_number pow2 /\
  run_segmenter 1 [mkPair 1.05 1.0 (-2) (pow2 ((1.05 - 1.0) / 0.01)%float)] = [] /\
  chisq_longest_sequence np_sum_seq pow2
                         [1.0; 1.1]%float [-2; -1]%Z [1.05]%float [0.01]%float
  = Raise ValueError.
Proof.
  split; [exact pow2_is_of_number|].
  exact (@chisq_longest_sequence_single_period_fails np_sum_seq pow2 pow2_is_of_number).
Defined.

(** ** SequenceSelector *)

Lemma fold_max_nat (r : list nat) : forall x,
  fold_left (fun m y => if m <? y then y else m) r x = Nat.max x (list_max r).
Proof.
  induction r as [|y r IH]; intros x; simpl.
  - now rewrite Nat.max_0_r.
  - rewrite IH. destruct (Nat.ltb_spec x y); lia.
Qed.

Lemma py_max_nat_spec (l : list nat) :
  l <> [] -> Py.max_nat l = Ok (list_max l).
Proof.
  destruct l as [|x r]; [congruence|]. intros _. simpl. now rewrite fold_max_nat.
Qed.

Lemma list_max_In (l : list nat) : l <> [] -> In (list_max l) l.
Proof.
  induction l as [|x l IH]; [congruence|]. intros _. simpl.
  destruct l as [|y l'].
  - left. simpl. lia.
  - destruct (Nat.max_spec x (list_max (y :: l'))) as [[_ ->]|[_ ->]].
    + right. apply IH. discriminate.
    + now left.
Qed.


Lemma nonzero_from_sorted (mask : list bool) : forall i,
  StronglySorted lt (Np.nonzero_from i mask).
Proof.
  induction mask as [|b mask IH]; intros i; simpl; [constructor|].
  destruct b; [|apply IH]. constructor; [apply IH|].
  apply Forall_forall. intros j Hj. apply In_nonzero_from in Hj. lia.
Qed.

Lemma sorted_nth_lt (l : list nat) : StronglySorted lt l ->
  forall q q' a b, q < q' -> nth_error l q = Some a -> nth_error l q' = Some b -> a < b.
Proof.
  induction 1 as [|x l Hs IH Hall]; intros q q' a b Hq Ha Hb.
  - destruct q; discriminate.
  - destruct q' as [|q']; [lia|]. simpl in Hb. destruct q as [|q]; simpl in Ha.
    + inversion Ha; subst. rewrite Forall_forall in Hall.
      eapply Hall, nth_error_In, Hb.
    + apply (IH q q' a b); [lia|exact Ha|exact Hb].
Qed.

Lemma sorted_nth_inj (l : list nat) : StronglySorted lt l ->
  forall q q' a, nth_error l q = Some a -> nth_error l q' = Some a -> q = q'.
Proof.
  intros Hs q q' a Ha Hb.
  destruct (Nat.lt_trichotomy q q') as [H|[H|H]]; [|exact H|].
  - pose proof (sorted_nth_lt Hs H Ha Hb). lia.
  - pose proof (sorted_nth_lt Hs H Hb Ha). lia.
Qed.

Lemma mapM_getitem_scores (np_sum : list float -> float)
    (sequences : list (list pair)) (ind : list nat) :
  Forall (fun i => i < length sequences) ind ->
  mapM (fun ii => s <- Py.getitem sequences ii ;; Ok (score np_sum s)) ind
  = Ok (map (fun ii => score np_sum (nth ii sequences [])) ind).
Proof.
  induction ind as [|i ind IH]; intros H; simpl; [reflexivity|].
  inversion H as [|? ? Hi Hrest]; subst.
  destruct (getitem_lt sequences Hi) as [s [-> Hs]]. simpl.
  rewrite (IH Hrest). simpl. now rewrite (nth_error_nth _ _ _ Hs).
Qed.

Lemma In_longest_runs (sequences : list (list pair)) (i : nat) :
  In i (longest_runs sequences) <->
  exists s, nth_error sequences i = Some s /\ length s = max_length sequences.
Proof.
  unfold longest_runs, Np.nonzero. rewrite In_nonzero_from, Nat.sub_0_r.
  rewrite !nth_error_map. destruct (nth_error sequences i) as [s|]; simpl.
  - split.
    + intros [_ H]. exists s. split; [reflexivity|].
      apply Nat.eqb_eq. congruence.
    + intros [s' [E H]]. inversion E; subst s'. split; [lia|].
      f_equal. now apply Nat.eqb_eq.
  - split; [intros [_ H]; discriminate|intros [s [E _]]; discriminate].
Qed.

Lemma longest_runs_nonempty (sequences : list (list pair)) :
  sequences <> [] -> longest_runs sequences <> [].
Proof.
  intros Hne E.
  assert (Hin : In (max_length sequences) (map (@length pair) sequences)).
  { apply list_max_In. intros H. apply map_eq_nil in H. contradiction. }
  apply in_map_iff in Hin. destruct Hin as [s [Hlen Hs]].
  apply In_nth_error in Hs. destruct Hs as [i Hi].
  assert (H : In i (longest_runs sequences)) by (apply In_longest_runs; eauto).
  rewrite E in H. contradiction.
Qed.

Lemma longest_runs_lt (sequences : list (list pair)) :
  Forall (fun i => i < length sequences) (longest_runs sequences).
Proof.
  apply Forall_forall. intros i H. apply In_longest_runs in H.
  destruct H as [s [Hs _]]. apply nth_error_Some. congruence.
Qed.

Section Selector.

Variable np_sum : list float -> float.
Variable sequences : list (list pair).
Hypothesis sequences_nonempty : sequences <> [].
Hypothesis scores_not_nan :
  forall s, In s sequences -> length s = max_length sequences ->
            is_nan (score np_sum s) = false.


(** The run chosen when there is one longest run. *)
Lemma sequence_selector_single (l0 : nat) :
  longest_runs sequences = [l0] ->
  exists lseq,
    sequence_selector np_sum sequences = Ok lseq /\
    nth_error sequences l0 = Some lseq /\
    length lseq = max_length sequences /\
    forall j s, nth_error sequences j = Some s ->
                length s = max_length sequences -> j = l0.
Proof.
  intros HL.
  assert (Hin : In l0 (longest_runs sequences)) by (rewrite HL; now left).
  apply In_longest_runs in Hin. destruct Hin as [lseq [Hl Hlen]].
  exists lseq. split; [|split; [exact Hl|split; [exact Hlen|]]].
  - unfold sequence_selector.
    rewrite py_max_nat_spec
      by (intros H; apply map_eq_nil in H; contradiction).
    simpl bind. fold (max_length sequences). fold (longest_runs sequences).
    rewrite HL. simpl. unfold Py.getitem. now rewrite Hl.
  - intros j s Hj Hs.
    assert (H : In j (longest_runs sequences)) by (apply In_longest_runs; eauto).
    rewrite HL in H. destruct H as [H|[]]. now symmetry.
Qed.

(** The run chosen among several longest runs. *)
Lemma sequence_selector_tie :
  length (longest_runs sequences) <> 1 ->
  exists k lseq,
    sequence_selector np_sum sequences = Ok lseq /\
    nth_error sequences k = Some lseq /\
    length lseq = max_length sequences /\
    (forall s, In s sequences -> length s = max_length sequences ->
               (score np_sum lseq <=? score np_sum s)%float = true) /\
    (forall j s, j < k -> nth_error sequences j = Some s ->
                 length s = max_length sequences ->
                 (score np_sum lseq <? score np_sum s)%float = true).
Proof.
  intros Hlen1.
  set (scores := map (fun ii => score np_sum (nth ii sequences [])) (longest_runs sequences)).
  assert (Hscores : forall q i, nth_error (longest_runs sequences) q = Some i ->
            exists s, nth_error sequences i = Some s /\
                      length s = max_length sequences /\
                      nth_error scores q = Some (score np_sum s)).
  { intros q i Hq.
    assert (Hi : In i (longest_runs sequences)) by (eapply nth_error_In; eauto).
    apply In_longest_runs in Hi. destruct Hi as [s [Hs Hl]].
    exists s. split; [exact Hs|]. split; [exact Hl|].
    unfold scores. rewrite nth_error_map, Hq. simpl.
    now rewrite (nth_error_nth _ _ _ Hs). }
  assert (Hnn : Forall (fun y => is_nan y = false) scores).
  { apply Forall_forall. intros y Hy. apply In_nth_error in Hy.
    destruct Hy as [q Hq].
    destruct (nth_error (longest_runs sequences) q) as [i|] eqn:Ei.
    - destruct (Hscores q i Ei) as [s [Hs [Hl Hsc]]].
      rewrite Hsc in Hq. inversion Hq; subst y.
      apply scores_not_nan; [eapply nth_error_In; eauto|exact Hl].
    - unfold scores in Hq. rewrite nth_error_map, Ei in Hq. discriminate. }
  assert (Hne : scores <> []).
  { intros E. apply map_eq_nil in E.
    now apply (longest_runs_nonempty sequences_nonempty). }
  destruct (py_min_spec Hne Hnn) as [ms [Hmin [Hms [Hmsn Hall]]]].
  destruct (@first_position_exists _ (fun c => (c =? ms)%float) scores) as [q Hq].
  { exists ms. split; [exact Hms|]. now apply F64.eqb_refl. }
  pose proof (proj2 (item0_nonzero _ _ _) Hq) as Hitem.
  pose proof (first_position_lt Hq) as Hqlt.
  unfold scores in Hqlt. rewrite length_map in Hqlt.
  destruct (getitem_lt (longest_runs sequences) Hqlt) as [k [Hgk Hk]].
  destruct (Hscores q k Hk) as [lseq [Hlseq [Hl Hsc]]].
  destruct Hq as [[c [Hc Hcm]] Hfirst].
  rewrite Hsc in Hc. inversion Hc; subst c.
  exists k, lseq. split; [|split; [exact Hlseq|split; [exact Hl|split]]].
  - unfold sequence_selector.
    rewrite py_max_nat_spec
      by (intros H; apply map_eq_nil in H; contradiction).
    simpl bind. fold (max_length sequences). fold (longest_runs sequences).
    fold (longest_runs sequences). apply Nat.eqb_neq in Hlen1. rewrite Hlen1.
    rewrite (@mapM_getitem_scores np_sum sequences _ (longest_runs_lt sequences)).
    simpl bind. fold scores. rewrite Hmin. simpl bind.
    rewrite Hitem. simpl bind. rewrite Hgk. simpl bind.
    unfold Py.getitem. now rewrite Hlseq.
  - intros s Hs Hls.
    eapply F64.leb_trans; [apply (F64.eqb_leb Hcm)|]. apply Hall.
    apply In_nth_error in Hs. destruct Hs as [i Hi].
    assert (Hin : In i (longest_runs sequences)) by (apply In_longest_runs; eauto).
    apply In_nth_error in Hin. destruct Hin as [q' Hq'].
    destruct (Hscores q' i Hq') as [s' [Hs' [_ Hsc']]].
    rewrite Hi in Hs'. inversion Hs'; subst s'.
    eapply nth_error_In; eauto.
  - intros j s Hjk Hj Hls.
    assert (Hin : In j (longest_runs sequences)) by (apply In_longest_runs; eauto).
    apply In_nth_error in Hin. destruct Hin as [q' Hq'].
    destruct (Hscores q' j Hq') as [s' [Hs' [_ Hsc']]].
    rewrite Hj in Hs'. inversion Hs'; subst s'.
    assert (Hsorted : StronglySorted lt (longest_runs sequences)) by apply nonzero_from_sorted.
    assert (Hq'q : q' < q).
    { destruct (Nat.lt_trichotomy q' q) as [H|[H|H]]; [exact H| |].
      - subst q'. rewrite Hk in Hq'. inversion Hq'. lia.
      - pose proof (sorted_nth_lt Hsorted H Hk Hq'). lia. }
    apply eqb_ltb_trans with (y := ms); [exact Hcm|].
    apply F64.leb_neq_ltb.
    + apply Hall. eapply nth_error_In; eauto.
    + rewrite F64.eqb_sym. apply (Hfirst q' _ Hq'q Hsc').
Qed.

End Selector.

(** The selector returns one of the runs. *)
Lemma sequence_selector_returns
    (np_sum : list float -> float) (sequences : list (list pair)) :
  sequences <> [] ->
  (forall s, In s sequences -> length s = max_length sequences ->
             is_nan (score np_sum s) = false) ->
  exists lseq, sequence_selector np_sum sequences = Ok lseq /\ In lseq sequences.
Proof.
  intros Hne Hnan.
  destruct (Nat.eq_dec (length (longest_runs sequences)) 1) as [H1|H1].
  - destruct (longest_runs sequences) as [|l0 [|l1 rest]] eqn:HL;
      try discriminate H1.
    destruct (sequence_selector_single np_sum Hne HL) as [lseq [Hsel [Hl _]]].
    exists lseq. split; [exact Hsel|]. eapply nth_error_In, Hl.
  - destruct (sequence_selector_tie np_sum Hne Hnan H1) as [k [lseq [Hsel [Hl _]]]].
    exists lseq. split; [exact Hsel|]. eapply nth_error_In, Hl.
Qed.



(** ** PatternAligner *)

Lemma aligned_at_spec (tperiods : list float) (orders : list Z) (start : Z) (i : nat) :
  length orders = length tperiods ->
  exists row,
    aligned_at tperiods orders start i = Ok row /\
    let k := (start + Z.of_nat i)%Z in
    if ((0 <=? k) && (k <? Z.of_nat (length tperiods)))%Z
    then nth_error tperiods (Z.to_nat k) = Some (fst row) /\
         nth_error orders (Z.to_nat k) = Some (snd row)
    else row = sentinel.
Proof.
  intros Hlen. unfold aligned_at. cbv zeta.
  set (k := (start + Z.of_nat i)%Z).
  rewrite Z.geb_leb.
  destruct (Z.ltb_spec k 0) as [Hneg|Hpos].
  - exists sentinel. split; [reflexivity|].
    destruct (Z.leb_spec 0 k); [lia|reflexivity].
  - destruct (Z.leb_spec 0 k); [|lia]. simpl andb.
    destruct (Z.leb_spec (Z.of_nat (length tperiods)) k) as [Hge|Hlt].
    + exists sentinel. split; [reflexivity|].
      destruct (Z.ltb_spec k (Z.of_nat (length tperiods))); [lia|reflexivity].
    + destruct (Z.ltb_spec k (Z.of_nat (length tperiods))); [|lia].
      assert (Hk : Z.to_nat k < length tperiods) by lia.
      destruct (getitem_lt tperiods Hk) as [t [Ht Et]].
      destruct (@getitem_lt _ orders (Z.to_nat k)) as [o [Ho Eo]]; [lia|].
      exists (t, o). rewrite Ht. simpl. rewrite Ho. simpl. auto.
Qed.

(** Once the two anchors are found the aligner returns one period and
    one order per observed period. *)
Lemma pattern_aligner_returns
    (tperiods : list float) (orders : list Z) (operiods : list float)
    (row0 : pair) (rest : list pair) :
  length orders = length tperiods ->
  (exists oi, first_position (fun p => (p =? obs_period row0)%float) operiods oi) ->
  (exists ti, first_position (fun t => (t =? best_match row0)%float) tperiods ti) ->
  exists ps os,
    pattern_aligner tperiods orders operiods (row0 :: rest) = Ok (ps, os) /\
    length ps = length operiods /\ length os = length operiods.
Proof.
  intros Hlen [oi Hoi] [ti Hti]. unfold pattern_aligner. simpl bind.
  rewrite (proj2 (item0_nonzero _ _ _) Hoi). simpl bind.
  rewrite (proj2 (item0_nonzero _ _ _) Hti). simpl bind.
  destruct (mapM_total
              (fun io : nat * float =>
                 aligned_at tperiods orders (Z.of_nat ti - Z.of_nat oi) (fst io))
              (Py.enumerate operiods)) as [rows Hrows].
  { intros [i p] _.
    destruct (@aligned_at_spec tperiods orders (Z.of_nat ti - Z.of_nat oi) i Hlen)
      as [row [Hrow _]]. eauto. }
  rewrite Hrows. simpl bind. exists (map fst rows), (map snd rows).
  split; [reflexivity|].
  rewrite !length_map, (mapM_Ok_length _ _ Hrows), length_enumerate. auto.
Qed.

(** C5. For a selected run whose first row has its observed period
    first at position [oi] of the observed segment and its matched
    theoretical period first at position [ti] of the spectrum, with
    [offset = ti - oi], PatternAligner returns one period and one order
    per observed period, in the order of the observed periods: at
    position [i] the theoretical period and order of index [offset + i]
    when [0 <= offset + i < T], and the sentinel pair (-1, -1) when
    [offset + i] is outside [0, T). *)
Theorem pattern_aligner_offset
    (tperiods : list float) (orders : list Z) (operiods : list float)
    (lseq : list pair) (row0 : pair) (rest : list pair) (oi ti : nat) :
  length orders = length tperiods ->
  lseq = row0 :: rest ->
  first_position (fun p => (p =? obs_period row0)%float) operiods oi ->
  first_position (fun t => (t =? best_match row0)%float) tperiods ti ->
  let offset := (Z.of_nat ti - Z.of_nat oi)%Z in
  exists ps os,
    pattern_aligner tperiods orders operiods lseq = Ok (ps, os) /\
    length ps = length operiods /\ length os = length operiods /\
    forall i, i < length operiods ->
      let k := (offset + Z.of_nat i)%Z in
      if ((0 <=? k) && (k <? Z.of_nat (length tperiods)))%Z
      then nth_error ps i = nth_error tperiods (Z.to_nat k) /\
           nth_error os i = nth_error orders (Z.to_nat k)
      else nth_error ps i = Some (fst sentinel) /\
           nth_error os i = Some (snd sentinel).
Proof.
  intros Hlen -> Hoi Hti offset.
  destruct (@mapM_enumerate_spec _ _
              (fun io : nat * float => aligned_at tperiods orders offset (fst io))
              (fun i (_ : float) row =>
                 let k := (offset + Z.of_nat i)%Z in
                 if ((0 <=? k) && (k <? Z.of_nat (length tperiods)))%Z
                 then nth_error tperiods (Z.to_nat k) = Some (fst row) /\
                      nth_error orders (Z.to_nat k) = Some (snd row)
                 else row = sentinel)
              operiods) as [rows [Hrows [Hlr Hnth]]].
  { intros i p _. simpl. apply aligned_at_spec, Hlen. }
  exists (map fst rows), (map snd rows). split; [|split; [|split]].
  - unfold pattern_aligner. simpl bind.
    rewrite (proj2 (item0_nonzero _ _ _) Hoi). simpl bind.
    rewrite (proj2 (item0_nonzero _ _ _) Hti). simpl bind.
    fold offset. rewrite Hrows. reflexivity.
  - now rewrite length_map.
  - now rewrite length_map.
  - intros i Hi. cbv zeta.
    destruct (nth_error operiods i) as [p|] eqn:Ep;
      [|apply nth_error_None in Ep; lia].
    destruct (Hnth i p Ep) as [row [Hrow Hspec]]. cbv zeta in Hspec.
    rewrite !nth_error_map, Hrow. simpl.
    destruct ((0 <=? offset + Z.of_nat i) &&
              (offset + Z.of_nat i <? Z.of_nat (length tperiods)))%Z.
    + destruct Hspec as [-> ->]. auto.
    + subst row. auto.
Qed.

Lemma pattern_aligner_offset_witness :
  (length orders_A = length tperiods_A /\
   [pair_A1 pow2] = pair_A1 pow2 :: [] /\
   first_position (fun p => (p =? obs_period (pair_A1 pow2))%float) operiods_A 1 /\
   first_position (fun t => (t =? best_match (pair_A1 pow2))%float) tperiods_A 2) /\
  exists ps os,
    pattern_aligner tperiods_A orders_A operiods_A [pair_A1 pow2] = Ok (ps, os) /\
    length ps = length operiods_A /\ length os = length operiods_A /\
    forall i, i < length operiods_A ->
      let k := (Z.of_nat 2 - Z.of_nat 1 + Z.of_nat i)%Z in
      if ((0 <=? k) && (k <? Z.of_nat (length tperiods_A)))%Z
      then nth_error ps i = nth_error tperiods_A (Z.to_nat k) /\
           nth_error os i = nth_error orders_A (Z.to_nat k)
      else nth_error ps i = Some (fst sentinel) /\
           nth_error os i = Some (snd sentinel).
Proof.
  assert (H1 : length orders_A = length tperiods_A) by reflexivity.
  assert (H3 : first_position (fun p => (p =? obs_period (pair_A1 pow2))%float) operiods_A 1).
  { apply item0_nonzero. vm_compute. reflexivity. }
  assert (H4 : first_position (fun t => (t =? best_match (pair_A1 pow2))%float) tperiods_A 2).
  { apply item0_nonzero. vm_compute. reflexivity. }
  split; [auto|].
  exact (@pattern_aligner_offset tperiods_A orders_A operiods_A [pair_A1 pow2] (pair_A1 pow2) []
           1 2 H1 eq_refl H3 H4).
Defined.

(** ** SpacingSeriesBuilder *)

Lemma nth_error_removelast {A : Type} (l : list A) (i : nat) :
  nth_error (removelast l) i = if S i <? length l then nth_error l i else None.
Proof.
  rewrite removelast_firstn_len, nth_error_firstn.
  destruct (Nat.ltb_spec i (Nat.pred (length l))), (Nat.ltb_spec (S i) (length l));
    try reflexivity; lia.
Qed.

Lemma length_removelast_pred {A : Type} (l : list A) :
  length (removelast l) = length l - 1.
Proof. rewrite removelast_firstn_len, length_firstn. lia. Qed.

Lemma generate_thry_series_spec (periods : list float) :
  exists thr_series,
    generate_thry_series periods = Ok thr_series /\
    length thr_series = length periods - 1 /\
    forall i p q, nth_error periods i = Some p -> nth_error periods (S i) = Some q ->
      nth_error thr_series i = Some (abs (p - q) * 86400)%float.
Proof.
  unfold generate_thry_series.
  destruct (@mapM_enumerate_spec _ _
              (fun kp : nat * float =>
                 prd_k_p_1 <- Py.getitem periods (S (fst kp)) ;;
                 Ok (abs (snd kp - prd_k_p_1) * 86400)%float)
              (fun i p v => forall q, nth_error periods (S i) = Some q ->
                                      v = (abs (p - q) * 86400)%float)
              (removelast periods)) as [ys [Hys [Hlen Hnth]]].
  - intros i p Hi. rewrite nth_error_removelast in Hi.
    destruct (Nat.ltb_spec (S i) (length periods)) as [Hlt|]; [|discriminate].
    destruct (getitem_lt periods Hlt) as [q [Hq Eq]].
    cbn [fst snd]. rewrite Hq. cbn [bind].
    eexists. split; [reflexivity|]. intros q' Hq'.
    rewrite Eq in Hq'. now inversion Hq'.
  - exists ys. split; [exact Hys|]. split.
    + now rewrite Hlen, length_removelast_pred.
    + intros i p q Hp Hq.
      destruct (Hnth i p) as [v [Hv Hspec]].
      { rewrite nth_error_removelast.
        assert (S i < length periods) by (apply nth_error_Some; congruence).
        destruct (Nat.ltb_spec (S i) (length periods)); [exact Hp|lia]. }
      rewrite Hv. f_equal. now apply Hspec.
Qed.

Lemma generate_obs_series_spec (scalar_pow2 : float -> float) (periods errors : list float) :
  length errors = length periods ->
  exists obs_series obs_series_errors,
    generate_obs_series scalar_pow2 periods errors = Ok (obs_series, obs_series_errors) /\
    length obs_series = length periods - 1 /\
    length obs_series_errors = length periods - 1 /\
    (forall i p q, nth_error periods i = Some p -> nth_error periods (S i) = Some q ->
       nth_error obs_series i = Some (abs (p - q) * 86400)%float) /\
    (forall i e f, nth_error errors i = Some e -> nth_error errors (S i) = Some f ->
       nth_error obs_series_errors i = Some (sqrt (scalar_pow2 e + scalar_pow2 f) * 86400)%float).
Proof.
  intros Herr. unfold generate_obs_series.
  destruct (@mapM_enumerate_spec _ _
              (fun kp : nat * float =>
                 prd_k_p_1 <- Py.getitem periods (S (fst kp)) ;;
                 e_k <- Py.getitem errors (fst kp) ;;
                 e_k_p_1 <- Py.getitem errors (S (fst kp)) ;;
                 Ok ((abs (snd kp - prd_k_p_1) * 86400)%float,
                     (sqrt (scalar_pow2 e_k + scalar_pow2 e_k_p_1) * 86400)%float))
              (fun i p v =>
                 (forall q, nth_error periods (S i) = Some q ->
                            fst v = (abs (p - q) * 86400)%float) /\
                 (forall e f, nth_error errors i = Some e ->
                              nth_error errors (S i) = Some f ->
                              snd v = (sqrt (scalar_pow2 e + scalar_pow2 f) * 86400)%float))
              (removelast periods)) as [ys [Hys [Hlen Hnth]]].
  - intros i p Hi. rewrite nth_error_removelast in Hi.
    destruct (Nat.ltb_spec (S i) (length periods)) as [Hlt|]; [|discriminate].
    destruct (getitem_lt periods Hlt) as [q [Hq Eq]].
    destruct (@getitem_lt _ errors i) as [e [He Ee]]; [lia|].
    destruct (@getitem_lt _ errors (S i)) as [f [Hf Ef]]; [lia|].
    cbn [fst snd]. rewrite Hq. cbn [bind]. rewrite He. cbn [bind].
    rewrite Hf. cbn [bind].
    eexists. split; [reflexivity|]. cbn [fst snd]. split.
    + intros q' Hq'. rewrite Eq in Hq'. now inversion Hq'.
    + intros e' f' He' Hf'. rewrite Ee in He'. rewrite Ef in Hf'.
      inversion He'. now inversion Hf'.
  - exists (map fst ys), (map snd ys). rewrite Hys. cbn [bind].
    split; [reflexivity|]. rewrite !length_map, Hlen, length_removelast_pred.
    split; [reflexivity|]. split; [reflexivity|].
    assert (Hrow : forall i, S i < length periods ->
              exists p v, nth_error periods i = Some p /\ nth_error ys i = Some v /\
                (forall q, nth_error periods (S i) = Some q ->
                           fst v = (abs (p - q) * 86400)%float) /\
                (forall e f, nth_error errors i = Some e ->
                             nth_error errors (S i) = Some f ->
                             snd v = (sqrt (scalar_pow2 e + scalar_pow2 f) * 86400)%float)).
    { intros i Hi.
      destruct (@getitem_lt _ periods i) as [p [_ Ep]]; [lia|].
      destruct (Hnth i p) as [v [Hv [H1 H2]]].
      { rewrite nth_error_removelast.
        destruct (Nat.ltb_spec (S i) (length periods)); [exact Ep|lia]. }
      exists p, v. auto. }
    split.
    + intros i p q Hp Hq.
      assert (Hi : S i < length periods) by (apply nth_error_Some; congruence).
      destruct (Hrow i Hi) as [p' [v [Hp' [Hv [H1 _]]]]].
      rewrite nth_error_map, Hv. simpl. f_equal.
      rewrite Hp in Hp'. inversion Hp'; subst p'. now apply H1.
    + intros i e f He Hf.
      assert (Hi : S i < length periods).
      { rewrite <- Herr. apply nth_error_Some. congruence. }
      destruct (Hrow i Hi) as [p' [v [Hp' [Hv [_ H2]]]]].
      rewrite nth_error_map, Hv. simpl. f_equal. now apply H2.
Qed.


(** ** The stages of a call that returns *)

Lemma chisq_longest_sequence_inv (np_sum : list float -> float)
    (scalar_pow2 : float -> float)
    (tperiods : list float) (orders : list Z) (operiods operiods_errors : list float)
    (c : float) (fp : pyseq) (os : list Z) :
  length operiods <= length tperiods ->
  chisq_longest_sequence np_sum scalar_pow2 tperiods orders operiods operiods_errors = Ok (c, fp, os) ->
  exists pairs_orders step lseq ps obs_series obs_series_errors thr_series,
    sequence_matcher scalar_pow2 tperiods orders operiods operiods_errors = Ok pairs_orders /\
    increase_or_decrease orders = Ok step /\
    sequence_selector np_sum (run_segmenter step pairs_orders) = Ok lseq /\
    pattern_aligner tperiods orders operiods lseq = Ok (ps, os) /\
    fp = NdArray ps /\
    generate_obs_series scalar_pow2 operiods operiods_errors = Ok (obs_series, obs_series_errors) /\
    generate_thry_series ps = Ok thr_series /\
    c = series_chi2_of np_sum obs_series obs_series_errors thr_series.
Proof.
  intros HTO. unfold chisq_longest_sequence.
  replace (length tperiods <? length operiods) with false
    by (symmetry; apply Nat.ltb_ge; exact HTO).
  intros H.
  bind_inv H as pairs_orders Hm.
  bind_inv H as step Hs.
  bind_inv H as lseq Hl.
  bind_inv H as [ps os'] Ha.
  bind_inv H as [obs_series obs_series_errors] Ho.
  bind_inv H as thr_series Ht.
  inversion H; subst.
  exists pairs_orders, step, lseq, ps, obs_series, obs_series_errors, thr_series.
  repeat split; assumption.
Qed.

(** ** Fewer theoretical than observed periods *)

Lemma map_const_repeat {A B : Type} (b : B) (l : list A) :
  map (fun _ => b) l = repeat b (length l).
Proof. induction l as [|a l IH]; simpl; [reflexivity|now rewrite IH]. Qed.

(** C6 (amended). For every input with fewer theoretical than observed
    periods the function raises nothing: its first statement returns
    the penalty score 1e16 with a list of [O] theoretical periods -1 and
    a list of [O] radial orders -1, before any matching or
    segmentation. *)
Theorem chisq_longest_sequence_insufficient_theory
    (np_sum : list float -> float)
    (scalar_pow2 : float -> float) (tperiods : list float) (orders : list Z)
    (operiods operiods_errors : list float) :
  length tperiods < length operiods ->
  chisq_longest_sequence np_sum scalar_pow2 tperiods orders operiods operiods_errors
  = Ok (1e16%float,
        PyList (repeat (-1)%float (length operiods)),
        repeat (-1)%Z (length operiods)).
Proof.
  intros H. unfold chisq_longest_sequence.
  apply Nat.ltb_lt in H. rewrite H.
  rewrite !map_const_repeat, length_seq. reflexivity.
Qed.

Lemma chisq_longest_sequence_insufficient_theory_witness :
  length [1.0; 1.1; 1.2]%float < length [1.0; 1.1; 1.2; 1.3; 1.4]%float /\
  chisq_longest_sequence np_sum_seq pow2 [1.0; 1.1; 1.2]%float [-3; -2; -1]%Z
    [1.0; 1.1; 1.2; 1.3; 1.4]%float [0.01; 0.01; 0.01; 0.01; 0.01]%float
  = Ok (1e16%float, PyList (repeat (-1)%float 5), repeat (-1)%Z 5).
Proof.
  assert (H : length [1.0; 1.1; 1.2]%float < length [1.0; 1.1; 1.2; 1.3; 1.4]%float)
    by (simpl; lia).
  split; [exact H|].
  exact (@chisq_longest_sequence_insufficient_theory np_sum_seq pow2
           [1.0; 1.1; 1.2]%float [-3; -2; -1]%Z [1.0; 1.1; 1.2; 1.3; 1.4]%float
           [0.01; 0.01; 0.01; 0.01; 0.01]%float H).
Defined.

(** C6 as stated fails: with three theoretical and five observed
    periods (scenario B) nothing is raised, at the matching stage or
    elsewhere. *)
Lemma insufficient_theory_raises_nothing :
  ~ raises (chisq_longest_sequence np_sum_seq pow2 [1.0; 1.1; 1.2]%float [-3; -2; -1]%Z
              [1.0; 1.1; 1.2; 1.3; 1.4]%float [0.01; 0.01; 0.01; 0.01; 0.01]%float).
Proof.
  intros [e H]. vm_compute in H. discriminate H.
Qed.

(** ** Scenario A *)

(** C8 as stated fails: with no scalar power of the C library are the
    rows matched for scenario A those of the theoretical periods 1.1 and
    1.2, and the aligned pattern returned [(1.1,-4), (1.2,-3)]. *)
Lemma scenario_A_counterexample :
  ~ (exists scalar_pow2 pairs_orders,
       libm_pow2 scalar_pow2 /\
       sequence_matcher scalar_pow2 tperiods_A orders_A operiods_A errors_A
       = Ok pairs_orders /\
       map best_match pairs_orders = [1.1; 1.2]%float /\
       run_segmenter 1 pairs_orders = [pairs_orders] /\
       exists chi2,
         chisq_longest_sequence np_sum_seq scalar_pow2
                                tperiods_A orders_A operiods_A errors_A
         = Ok (chi2, NdArray [1.1; 1.2]%float, [-4; -3]%Z)).
Proof.
  intros [scalar_pow2 [pairs_orders [Hpow [Hm [Hb _]]]]].
  rewrite (scenario_A_matcher Hpow) in Hm.
  apply (f_equal (fun r => match r with Ok l => map best_match l | Raise _ => [] end))
    in Hm.
  rewrite Hb in Hm.
  apply (f_equal (fun l => match l with
                           | x :: _ => (x =? 1.0)%float
                           | [] => false
                           end)) in Hm.
  vm_compute in Hm. discriminate Hm.
Qed.

(** C8 (amended). On scenario A the rows matched are those of the
    theoretical indices 0 and 2, periods 1.0 and 1.2 with orders -5 and
    -3: the chi-squares of 1.05 against 1.0 and against 1.1 are equal and
    the first minimum is taken. The two orders are not consecutive, so
    every run has length 1 and no run of length 2 is formed. It holds
    with every scalar power that is even and within one unit in the
    last place of the square. *)
Theorem scenario_A_by_design (scalar_pow2 : float -> float) :
  libm_pow2 scalar_pow2 ->
  sequence_matcher scalar_pow2 tperiods_A orders_A operiods_A errors_A
  = Ok [pair_A0 scalar_pow2; pair_A1 scalar_pow2] /\
  (nth_error tperiods_A 0 = Some (best_match (pair_A0 scalar_pow2)) /\
   nth_error orders_A 0 = Some (-5)%Z /\
   best_order (pair_A0 scalar_pow2) = Np.float_of_int64 (-5)) /\
  (nth_error tperiods_A 2 = Some (best_match (pair_A1 scalar_pow2)) /\
   nth_error orders_A 2 = Some (-3)%Z /\
   best_order (pair_A1 scalar_pow2) = Np.float_of_int64 (-3)) /\
  (scalar_pow2 ((1.05 - 1.0) / 0.01) =? scalar_pow2 ((1.05 - 1.1) / 0.01))%float = true /\
  increase_or_decrease orders_A = Ok 1%Z /\
  consecutive 1 (pair_A0 scalar_pow2) (pair_A1 scalar_pow2) = false /\
  Forall (fun run => length run = 1)
         (run_segmenter 1 [pair_A0 scalar_pow2; pair_A1 scalar_pow2]).
Proof.
  intros Hpow. split; [exact (scenario_A_matcher Hpow)|].
  split; [repeat split; vm_compute; reflexivity|].
  split; [repeat split; vm_compute; reflexivity|].
  split.
  { destruct Hpow as [Hnum [Heven Hulp]].
    replace ((1.05 - 1.1) / 0.01)%float with (- ((1.05 - 1.0) / 0.01))%float
      by (vm_compute; reflexivity).
    rewrite Heven. apply F64.eqb_refl. apply Hnum. reflexivity. }
  split; [vm_compute; reflexivity|].
  split; [vm_compute; reflexivity|].
  rewrite scenario_A_runs. repeat constructor.
Qed.

Lemma scenario_A_by_design_witness :
  libm_pow2 pow2 /\
  sequence_matcher pow2 tperiods_A orders_A operiods_A errors_A
  = Ok [pair_A0 pow2; pair_A1 pow2] /\
  (nth_error tperiods_A 0 = Some (best_match (pair_A0 pow2)) /\
   nth_error orders_A 0 = Some (-5)%Z /\
   best_order (pair_A0 pow2) = Np.float_of_int64 (-5)) /\
  (nth_error tperiods_A 2 = Some (best_match (pair_A1 pow2)) /\
   nth_error orders_A 2 = Some (-3)%Z /\
   best_order (pair_A1 pow2) = Np.float_of_int64 (-3)) /\
  (pow2 ((1.05 - 1.0) / 0.01) =? pow2 ((1.05 - 1.1) / 0.01))%float = true /\
  increase_or_decrease orders_A = Ok 1%Z /\
  consecutive 1 (pair_A0 pow2) (pair_A1 pow2) = false /\
  Forall (fun run => length run = 1) (run_segmenter 1 [pair_A0 pow2; pair_A1 pow2]).
Proof.
  split; [exact pow2_is_libm|].
  exact (@scenario_A_by_design pow2 pow2_is_libm).
Defined.

(** What the function returns on scenario A, the defect of the
    segmentation loop included. *)
Lemma scenario_A_returned :
  exists chi2,
    chisq_longest_sequence np_sum_seq pow2 tperiods_A orders_A operiods_A errors_A
    = Ok (chi2, NdArray [1.0; 1.1]%float, [-5; -4]%Z).
Proof. eexists. vm_compute. reflexivity. Qed.

(** ** The theoretical arrays across the parts of a pattern *)

Lemma expr_stmt_frame {A : Type} (c : result A) (st st' : locals) :
  expr_stmt c st = Ok st' -> st' = st.
Proof.
  unfold expr_stmt. destruct c as [a|e]; simpl; intros H; [|discriminate].
  now inversion H.
Qed.

Lemma remove_chosen_statement_frame (orders : list Z) (which : observable)
    (st st' : locals) :
  remove_chosen_statement orders which st = Ok st' -> st' = st.
Proof.
  unfold remove_chosen_statement.
  destruct (0 <? length (ouput_pulsations st)); [|intros H; now inversion H].
  destruct (Py.getitem orders 1) as [o1|e]; simpl; [|discriminate].
  destruct (Py.getitem orders 0) as [o0|e]; simpl; [|discriminate].
  destruct which; try (intros H; now inversion H);
    destruct (o1 =? Np.wrap64 (o0 - 1))%Z; apply expr_stmt_frame.
Qed.

Lemma part_inputs_frame (orders : list Z) (which : observable)
    (st st' : locals) (pt : part) (inp : turn_inputs) :
  part_inputs orders which st pt = Ok (st', inp) ->
  freqs st' = freqs st /\ periods st' = periods st /\
  theo_periods inp = periods st /\
  Theo_value inp = match which with
                   | Frequency => freqs st
                   | _ => periods st
                   end.
Proof.
  unfold part_inputs.
  set (st1 := if 0 <? length (ouput_pulsations st)
              then mkLocals (freqs st) (periods st) (ouput_pulsations st ++ [0%float])
              else st).
  assert (H1 : freqs st1 = freqs st /\ periods st1 = periods st).
  { unfold st1. destruct (0 <? length (ouput_pulsations st)); auto. }
  destruct H1 as [Hf Hp].
  destruct which; [| |discriminate]; intros H.
  - bind_inv H as st2 Hrm.
    apply remove_chosen_statement_frame in Hrm. subst st2.
    bind_inv H as err _.
    bind_inv H as hi _.
    inversion H; subst. simpl. auto.
  - bind_inv H as st2 Hrm.
    apply remove_chosen_statement_frame in Hrm. subst st2.
    bind_inv H as hi _.
    inversion H; subst. simpl. auto.
Qed.

Lemma part_step_frame (np_sum : list float -> float)
    (scalar_pow2 : float -> float) (orders : list Z)
    (which : observable) (meth : method) (st st' : locals) (pt : part) :
  part_step np_sum scalar_pow2 orders which meth st pt = Ok st' ->
  freqs st' = freqs st /\ periods st' = periods st.
Proof.
  unfold part_step. intros H.
  bind_inv H as [st1 inp] Hin.
  apply part_inputs_frame in Hin. destruct Hin as [Hf [Hp _]].
  bind_inv H as sel _.
  inversion H; subst. simpl. auto.
Qed.

Lemma parts_loop_frame (np_sum : list float -> float)
    (scalar_pow2 : float -> float) (orders : list Z)
    (which : observable) (meth : method) (parts : list part) :
  forall st st',
    parts_loop np_sum scalar_pow2 orders which meth st parts = Ok st' ->
    freqs st' = freqs st /\ periods st' = periods st.
Proof.
  induction parts as [|pt parts IH]; intros st st' H; simpl in H.
  - inversion H. auto.
  - bind_inv H as st1 Hstep.
    apply part_step_frame in Hstep. apply IH in H.
    destruct Hstep, H. split; congruence.
Qed.

(** C10. After any number of parts of the pattern the arrays [freqs]
    and [periods] are the arrays the loop started with, the [np.delete]
    statements notwithstanding, and the turn of every later part hands
    them in full to the pattern builders: [Theo_value] and the periods
    given to [chisq_longest_sequence]. *)
Theorem theory_arrays_unchanged
    (np_sum : list float -> float)
    (scalar_pow2 : float -> float) (orders : list Z) (which : observable)
    (meth : method) (st0 st st' : locals) (earlier : list part) (pt : part)
    (inp : turn_inputs) :
  parts_loop np_sum scalar_pow2 orders which meth st0 earlier = Ok st ->
  part_inputs orders which st pt = Ok (st', inp) ->
  (freqs st = freqs st0 /\ periods st = periods st0) /\
  (freqs st' = freqs st0 /\ periods st' = periods st0) /\
  theo_periods inp = periods st0 /\
  Theo_value inp = match which with
                   | Frequency => freqs st0
                   | _ => periods st0
                   end.
Proof.
  intros Hloop Hin.
  apply parts_loop_frame in Hloop. destruct Hloop as [Hf Hp].
  apply part_inputs_frame in Hin. destruct Hin as [Hf' [Hp' [Ht Hv]]].
  split; [auto|]. split; [split; congruence|]. split; [congruence|].
  rewrite Hv. destruct which; congruence.
Qed.

Lemma theory_arrays_unchanged_witness :
  (parts_loop np_sum_seq pow2 orders_A Period ChisqLongestSequence locals_W [part_W1]
   = Ok locals_W1 /\
   part_inputs orders_A Period locals_W1 part_W2 = Ok (locals_W2, inputs_W2)) /\
  Np.delete (periods locals_W2)
            (Np.nonzero (map (fun p => (1.1 <=? p)%float) (periods locals_W2)))
  = [1.0]%float /\
  (freqs locals_W1 = freqs locals_W /\ periods locals_W1 = periods locals_W) /\
  (freqs locals_W2 = freqs locals_W /\ periods locals_W2 = periods locals_W) /\
  theo_periods inputs_W2 = periods locals_W /\
  Theo_value inputs_W2 = periods locals_W.
Proof.
  assert (H1 : parts_loop np_sum_seq pow2 orders_A Period ChisqLongestSequence
                 locals_W [part_W1] = Ok locals_W1) by (vm_compute; reflexivity).
  assert (H2 : part_inputs orders_A Period locals_W1 part_W2
               = Ok (locals_W2, inputs_W2)) by (vm_compute; reflexivity).
  split; [split; [exact H1|exact H2]|].
  split; [vm_compute; reflexivity|].
  exact (@theory_arrays_unchanged np_sum_seq pow2 orders_A Period ChisqLongestSequence
           locals_W locals_W1 locals_W2 [part_W1] part_W2 inputs_W2 H1 H2).
Defined.

(** ** The sentinel pattern in the caller *)

(** With the observable 'period' the sentinel values of a part with
    too few theoretical periods are appended and the loop goes on. *)
Lemma sentinel_part_period :
  pattern_of_model np_sum_seq pow2 [1.0; 0.5]%float [-2; -1]%Z Period ChisqLongestSequence
    [mkPart [1.0; 2.0; 3.0]%float [0.01; 0.01; 0.01]%float None;
     mkPart [1.0; 2.0]%float [0.01; 0.01]%float None]
  = Ok [-1; -1; -1; 0; 1.0; 2.0]%float.
Proof. vm_compute. reflexivity. Qed.

(** With the observable 'frequency' the caller divides 1 by what the
    function returned, a Python list on the early return. *)
Lemma sentinel_part_frequency :
  pattern_of_model np_sum_seq pow2 [1.0; 0.5]%float [-2; -1]%Z Frequency ChisqLongestSequence
    [mkPart [1.0; 2.0; 3.0]%float [0.01; 0.01; 0.01]%float None;
     mkPart [1.0; 2.0]%float [0.01; 0.01]%float None]
  = Raise TypeError.
Proof. vm_compute. reflexivity. Qed.

(** Scenario D: the anchor of the run maps the last observed periods
    past the end of the spectrum, which the sentinel marks. *)
Lemma scenario_D_trailing_sentinels :
  pattern_aligner tperiods_A orders_A [1.3; 1.4; 1.5; 1.6]%float
                  [mkPair 1.3 1.3 (-2) 0]
  = Ok ([1.3; 1.4; -1; -1]%float, [-2; -1; -1; -1]%Z).
Proof. vm_compute. reflexivity. Qed.

(** ** A call that returns *)

Lemma two_last {A : Type} (l : list A) :
  2 <= length l -> exists body x y, l = body ++ [x; y].
Proof.
  induction l as [|a l IH]; simpl; intros H; [lia|].
  destruct l as [|b [|c l']].
  - simpl in H. lia.
  - exists [], a, b. reflexivity.
  - destruct IH as [body [x [y E]]]; [simpl; lia|].
    exists (a :: body), x, y. simpl. now rewrite E.
Qed.

Lemma increase_or_decrease_Ok (orders : list Z) :
  2 <= length orders -> exists step, increase_or_decrease orders = Ok step.
Proof.
  intros H. unfold increase_or_decrease.
  destruct (@getitem_lt _ orders 1) as [o1 [-> _]]; [lia|].
  destruct (@getitem_lt _ orders 0) as [o0 [-> _]]; [lia|].
  simpl. eauto.
Qed.

(** With at least two observed periods, no more of them than
    theoretical ones, values that are numbers and scores that are
    numbers, the function returns: a chi-square, one theoretical period
    and one order per observed period. *)
Lemma chisq_longest_sequence_returns (np_sum : list float -> float)
    (scalar_pow2 : float -> float)
    (tperiods : list float) (orders : list Z) (operiods operiods_errors : list float) :
  pow2_of_number scalar_pow2 ->
  length orders = length tperiods ->
  length operiods_errors = length operiods ->
  2 <= length operiods <= length tperiods ->
  Forall (fun t => is_finite t = true) tperiods ->
  Forall (fun p => is_finite p = true) operiods ->
  Forall positive_error operiods_errors ->
  (forall pairs_orders step s,
     sequence_matcher scalar_pow2 tperiods orders operiods operiods_errors = Ok pairs_orders ->
     increase_or_decrease orders = Ok step ->
     In s (run_segmenter step pairs_orders) ->
     is_nan (score np_sum s) = false) ->
  exists chi2 ps os,
    chisq_longest_sequence np_sum scalar_pow2 tperiods orders operiods operiods_errors
    = Ok (chi2, NdArray ps, os) /\
    length ps = length operiods /\ length os = length operiods.
Proof.
  intros Hpow Hord Herr [HO HTO] Htf Hpf Hef Hscore.
  destruct (@sequence_matcher_rows scalar_pow2 tperiods orders operiods operiods_errors
              Hpow Hord Herr HTO Htf Hpf Hef) as [pairs_orders [Hm [Hlen Hrows]]].
  destruct (@increase_or_decrease_Ok orders) as [step Hstep]; [lia|].
  destruct (@two_last _ pairs_orders) as [body [x [y Epairs]]]; [lia|].
  destruct (run_segmenter_concat step body x y) as [Hconcat Hruns].
  pose proof (@run_segmenter_nonempty step body x y) as Hne.
  rewrite <- Epairs in Hconcat, Hruns, Hne.
  destruct (@sequence_selector_returns np_sum (run_segmenter step pairs_orders) Hne)
    as [lseq [Hsel Hin]].
  { intros s Hs _. exact (Hscore pairs_orders step s Hm Hstep Hs). }
  destruct lseq as [|row0 rest].
  { rewrite Forall_forall in Hruns. now specialize (Hruns [] Hin). }
  assert (Hrow0 : In row0 pairs_orders).
  { assert (H : In row0 (concat (run_segmenter step pairs_orders))).
    { apply in_concat. exists (row0 :: rest). split; [exact Hin|now left]. }
    rewrite Hconcat in H. rewrite Epairs. apply in_app_iff in H.
    apply in_app_iff. destruct H as [H|[H|[H|[]]]]; auto; right; left; exact H. }
  apply In_nth_error in Hrow0. destruct Hrow0 as [i Hi].
  destruct (Hrows i row0 Hi) as [Hop Hbm].
  destruct (@pattern_aligner_returns tperiods orders operiods row0 rest Hord)
    as [ps [os [Hal [Hlps Hlos]]]].
  { apply first_position_exists. exists (obs_period row0).
    split; [eapply nth_error_In, Hop|].
    apply F64.eqb_refl, F64.is_finite_nonnan.
    rewrite Forall_forall in Hpf. eapply Hpf, nth_error_In, Hop. }
  { apply first_position_exists. exists (best_match row0).
    split; [exact Hbm|].
    apply F64.eqb_refl, F64.is_finite_nonnan.
    rewrite Forall_forall in Htf. now apply Htf. }
  destruct (@generate_obs_series_spec scalar_pow2 operiods operiods_errors Herr)
    as [obs_series [obs_series_errors [Hobs _]]].
  destruct (generate_thry_series_spec ps) as [thr_series [Hthr _]].
  exists (series_chi2_of np_sum obs_series obs_series_errors thr_series), ps, os.
  split; [|split; assumption].
  unfold chisq_longest_sequence.
  replace (length tperiods <? length operiods) with false
    by (symmetry; apply Nat.ltb_ge; exact HTO).
  rewrite Hm. cbn [bind]. rewrite Hstep. cbn [bind]. rewrite Hsel. cbn [bind].
  rewrite Hal. cbn [bind]. rewrite Hobs. cbn [bind]. rewrite Hthr. reflexivity.
Qed.

Lemma chisq_longest_sequence_returns_scenario_A :
  exists chi2 ps os,
    chisq_longest_sequence np_sum_seq pow2 tperiods_A orders_A operiods_A errors_A
    = Ok (chi2, NdArray ps, os) /\
    length ps = length operiods_A /\ length os = length operiods_A.
Proof.
  apply chisq_longest_sequence_returns; try reflexivity.
  - exact pow2_is_of_number.
  - simpl. lia.
  - repeat constructor.
  - repeat constructor.
  - repeat constructor.
  - intros pairs_orders step s Hm Hs Hin.
    rewrite (scenario_A_matcher pow2_is_libm) in Hm.
    apply (f_equal (fun r => match r with Ok l => l | Raise _ => [] end)) in Hm.
    apply (f_equal (fun r => match r with Ok z => z | Raise _ => 0%Z end)) in Hs.
    simpl in Hm. subst pairs_orders. vm_compute in Hs. subst step.
    rewrite scenario_A_runs in Hin.
    destruct Hin as [<-|[<-|[]]]; vm_compute; reflexivity.
Qed.

(** ** The chi-square of the alignment *)



(** ** The same part twice *)

(** Two turns of the loop on the same part of the pattern hand the same
    arrays to the pattern builders, whatever was appended in between. *)
Lemma part_inputs_same (orders : list Z) (which : observable)
    (st1 st2 sa sb : locals) (pt : part) (ia ib : turn_inputs) :
  freqs st2 = freqs st1 -> periods st2 = periods st1 ->
  part_inputs orders which st1 pt = Ok (sa, ia) ->
  part_inputs orders which st2 pt = Ok (sb, ib) ->
  ia = ib.
Proof.
  intros Hf Hp H1 H2.
  pose proof (part_inputs_frame _ _ _ _ H1) as [_ [_ [Ht1 Hv1]]].
  pose proof (part_inputs_frame _ _ _ _ H2) as [_ [_ [Ht2 Hv2]]].
  assert (Hrest : ObsPeriod ia = ObsPeriod ib /\ ObsErr_P ia = ObsErr_P ib /\
                  highest_obs_freq ia = highest_obs_freq ib).
  { unfold part_inputs in H1, H2. destruct which; [| |discriminate].
    - bind_inv H1 as s1 _.
      bind_inv H1 as e1 He1.
      bind_inv H1 as h1 Hh1.
      bind_inv H2 as s2 _.
      bind_inv H2 as e2 He2.
      bind_inv H2 as h2 Hh2.
      rewrite He1 in He2. rewrite Hh1 in Hh2.
      inversion H1; inversion H2; subst; simpl.
      inversion He2; inversion Hh2; auto.
    - bind_inv H1 as s1 _.
      bind_inv H1 as h1 Hh1.
      bind_inv H2 as s2 _.
      bind_inv H2 as h2 Hh2.
      rewrite Hh1 in Hh2.
      inversion H1; inversion H2; subst; simpl.
      inversion Hh2; auto. }
  destruct Hrest as [Ho [He Hh]].
  destruct ia, ib; simpl in *. subst.
  f_equal; try congruence. destruct which; congruence.
Qed.

(* ================================================================== *)
(** * Properties of src/foam/support_functions.py *)

Section SupportFunctions.

Import support_functions.

Lemma strip_prefix_Some (sep : str) : forall line tail,
  strip_prefix sep line = Some tail <-> line = sep ++ tail.
Proof.
  induction sep as [|c sep IH]; intros line tail; simpl.
  - split; congruence.
  - destruct line as [|d line]; [split; discriminate|].
    destruct (Ascii.eqb_spec c d) as [->|Hne].
    + rewrite IH. split; congruence.
    + split; [discriminate|]. intros H. congruence.
Qed.

Lemma find_Some (sep : str) : forall line head tail,
  find sep line = Some (head, tail) ->
  line = head ++ sep ++ tail /\
  forall h' t', line = h' ++ sep ++ t' -> length head <= length h'.
Proof.
  induction line as [|c line IH]; intros head tail H; simpl in H.
  - destruct (strip_prefix sep []) as [t0|] eqn:E; [|discriminate].
    apply strip_prefix_Some in E.
    assert (head = [] /\ tail = t0) as [-> ->] by (split; congruence).
    split; [exact E|]. intros; simpl; lia.
  - destruct (strip_prefix sep (c :: line)) as [t0|] eqn:E.
    + apply strip_prefix_Some in E.
      assert (head = [] /\ tail = t0) as [-> ->] by (split; congruence).
      split; [exact E|]. intros; simpl; lia.
    + destruct (find sep line) as [[h0 t1]|] eqn:F; [|discriminate].
      assert (head = c :: h0 /\ tail = t1) as [-> ->] by (split; congruence).
      destruct (IH h0 t1 eq_refl) as [Hl Hmin]. split.
      * simpl. now rewrite <- Hl.
      * intros h' t' Hh. destruct h' as [|c' h''].
        -- simpl in Hh. apply strip_prefix_Some in Hh. congruence.
        -- simpl in Hh. injection Hh as _ Hh. simpl.
           specialize (Hmin h'' t' Hh). lia.
Qed.

Lemma find_None (sep : str) : forall line,
  find sep line = None -> absent sep line.
Proof.
  induction line as [|c line IH]; intros H h t Hh; simpl in H.
  - destruct (strip_prefix sep []) as [t0|] eqn:E; [discriminate|].
    destruct h as [|c' h']; [|discriminate].
    simpl in Hh. apply strip_prefix_Some in Hh. congruence.
  - destruct (strip_prefix sep (c :: line)) as [t0|] eqn:E; [discriminate|].
    destruct (find sep line) as [[h0 t1]|] eqn:F; [discriminate|].
    destruct h as [|c' h'].
    + simpl in Hh. apply strip_prefix_Some in Hh. congruence.
    + simpl in Hh. injection Hh as _ Hh. eapply IH; eauto.
Qed.

Lemma app_same_length {A : Type} : forall (a b x y : list A),
  length a = length b -> a ++ x = b ++ y -> a = b /\ x = y.
Proof.
  induction a as [|c a IH]; intros [|d b] x y Hl E; simpl in *; try discriminate.
  - now split.
  - injection E as -> E. injection Hl as Hl.
    destruct (IH b x y Hl E) as [-> ->]. now split.
Qed.

Lemma first_occurrence_unique (sep line h1 h2 : str) :
  first_occurrence sep line h1 -> first_occurrence sep line h2 -> h1 = h2.
Proof.
  intros [[t1 E1] M1] [[t2 E2] M2].
  pose proof (M1 h2 t2 E2). pose proof (M2 h1 t1 E1).
  assert (Hlen : length h1 = length h2) by lia.
  rewrite E1 in E2.
  now destruct (@app_same_length _ h1 h2 _ _ Hlen E2).
Qed.

Lemma find_first_occurrence (sep line head tail : str) :
  find sep line = Some (head, tail) <->
  line = head ++ sep ++ tail /\ first_occurrence sep line head.
Proof.
  split.
  - intros F. destruct (@find_Some sep line head tail F) as [E M].
    split; [exact E|]. split; [eauto|exact M].
  - intros [E Hf]. destruct (find sep line) as [[h t]|] eqn:F.
    + destruct (@find_Some sep line h t F) as [E' M'].
      assert (h = head).
      { apply (@first_occurrence_unique sep line h head); [|exact Hf].
        split; [eauto|exact M']. }
      subst h. rewrite E in E'. apply app_inv_head in E'. apply app_inv_head in E'.
      now subst.
    + exfalso. eapply find_None; eauto.
Qed.

Lemma str_eqb_refl (a : str) : str_eqb a a = true.
Proof. unfold str_eqb. destruct (list_eq_dec Ascii.ascii_dec a a); congruence. Qed.

Lemma str_eqb_eq (a b : str) : str_eqb a b = true <-> a = b.
Proof.
  unfold str_eqb. destruct (list_eq_dec Ascii.ascii_dec a b); split; congruence.
Qed.

Lemma split_line_Returns (line sep head tail : str) :
  split_line line sep = Returns (head, tail) <->
  sep <> [] /\ find sep line = Some (head, tail).
Proof.
  unfold split_line, partition. destruct sep as [|c sep].
  - split; [discriminate|]. intros [H _]. congruence.
  - destruct (find (c :: sep) line) as [[h t]|] eqn:F.
    + rewrite str_eqb_refl. split.
      * intros H. split; [discriminate|]. congruence.
      * intros [_ H]. congruence.
    + unfold str_eqb. destruct (list_eq_dec Ascii.ascii_dec [] (c :: sep)); [discriminate|].
      split; [discriminate|]. intros [_ H]. discriminate.
Qed.

(** X1. [split_line(line, sep)] returns [(head, tail)] exactly when
    [sep] is not empty, [line] is [head + sep + tail], and no occurrence
    of [sep] in [line] starts before the end of [head]: the line is cut
    around the leftmost separator and nothing of it is lost. *)
Theorem split_line_first_occurrence (line sep head tail : str) :
  split_line line sep = Returns (head, tail) <->
  sep <> [] /\ line = head ++ sep ++ tail /\
  forall h' t', line = h' ++ sep ++ t' -> length head <= length h'.
Proof.
  rewrite split_line_Returns, find_first_occurrence. unfold first_occurrence.
  split.
  - intros [Hs [E [_ M]]]. auto.
  - intros [Hs [E M]]. split; [exact Hs|]. split; [exact E|]. split; eauto.
Qed.

(** X2. [split_line] raises ValueError exactly when the separator is
    empty, and AssertionError exactly when the separator is not empty
    and occurs nowhere in the line. *)
Theorem split_line_raises (line sep : str) :
  (split_line line sep = Raises ValueError <-> sep = []) /\
  (split_line line sep = Raises AssertionError <-> sep <> [] /\ absent sep line).
Proof.
  unfold split_line, partition. destruct sep as [|c sep].
  - split; [split; [reflexivity|reflexivity]|].
    split; [discriminate|]. intros [H _]. congruence.
  - destruct (find (c :: sep) line) as [[h t]|] eqn:F.
    + rewrite str_eqb_refl. split; [split; discriminate|].
      split; [discriminate|].
      intros [_ Ha]. exfalso.
      destruct (@find_Some (c :: sep) line h t F) as [E _]. exact (Ha _ _ E).
    + unfold str_eqb. destruct (list_eq_dec Ascii.ascii_dec [] (c :: sep)); [discriminate|].
      split; [split; discriminate|].
      split; [|reflexivity].
      intros _. split; [discriminate|]. apply find_None; exact F.
Qed.

Lemma contains_false (sep line : str) : contains sep line = false <-> absent sep line.
Proof.
  unfold contains. destruct (find sep line) as [[h t]|] eqn:F; split; try discriminate.
  - intros Ha. exfalso. destruct (@find_Some sep line h t F) as [E _]. exact (Ha _ _ E).
  - intros _. apply find_None; exact F.
  - reflexivity.
Qed.

Lemma absent_shorter (sep line head tail : str) :
  sep <> [] -> find sep line = Some (head, tail) -> absent sep head.
Proof.
  intros Hs F h t E. destruct (@find_Some sep line head tail F) as [El M].
  rewrite E in El. rewrite <- !app_assoc in El.
  specialize (M h (t ++ sep ++ tail) El). rewrite E in M.
  rewrite !length_app in M. destruct sep; [congruence|]. simpl in M. lia.
Qed.

(** X3. What [substring] returns lies in the line right after the
    leftmost first separator, and the second separator occurs nowhere in
    it. *)
Theorem substring_free_of_second_separator (line sep_first sep_second value : str) :
  substring line sep_first sep_second = Returns value ->
  absent sep_second value /\
  exists head rest,
    line = head ++ sep_first ++ value ++ rest /\ first_occurrence sep_first line head.
Proof.
  unfold substring. intros H.
  destruct (split_line line sep_first) as [[head tail]|e] eqn:S1; [|discriminate].
  apply split_line_Returns in S1. destruct S1 as [Hs1 F1].
  apply find_first_occurrence in F1. destruct F1 as [E1 Hf1].
  destruct (contains sep_second tail) eqn:C; simpl in H.
  - destruct (split_line tail sep_second) as [[h2 t2]|e] eqn:S2; [|discriminate].
    apply split_line_Returns in S2. destruct S2 as [Hs2 F2].
    assert (h2 = value) by congruence. subst h2.
    split; [exact (@absent_shorter sep_second tail value t2 Hs2 F2)|].
    destruct (@find_Some sep_second tail value t2 F2) as [E2 _].
    exists head, (sep_second ++ t2). split; [|exact Hf1]. now rewrite <- E2.
  - assert (tail = value) by congruence. subst tail.
    split; [apply contains_false; exact C|].
    exists head, []. split; [|exact Hf1]. now rewrite app_nil_r.
Qed.

Lemma substring_free_of_second_separator_witness :
  substring stem_W name_Z underscore
  = Returns value_Z /\
  absent underscore value_Z.
Proof.
  split; [reflexivity|].
  exact (proj1 (@substring_free_of_second_separator stem_W name_Z underscore
                  value_Z eq_refl)).
Defined.

(** X4. [substring] decodes a value written between the two separators:
    when the first separator is first met after [head], and the second is
    first met in what follows at the end of [value], the value is
    returned; when the second separator occurs nowhere after the first,
    everything after the first is returned. *)
Theorem substring_between (head sep_first value sep_second rest : str) :
  sep_first <> [] ->
  first_occurrence sep_first (head ++ sep_first ++ value ++ rest) head ->
  (sep_second <> [] /\ exists rest', rest = sep_second ++ rest' /\
                                     first_occurrence sep_second (value ++ rest) value) \/
  (rest = [] /\ absent sep_second value) ->
  substring (head ++ sep_first ++ value ++ rest) sep_first sep_second = Returns value.
Proof.
  intros Hs1 Hf1 Hcase. unfold substring.
  assert (S1 : split_line (head ++ sep_first ++ value ++ rest) sep_first
               = Returns (head, value ++ rest)).
  { apply split_line_Returns. split; [exact Hs1|].
    apply find_first_occurrence. split; [reflexivity|exact Hf1]. }
  rewrite S1. destruct Hcase as [[Hs2 [rest' [-> Hf2]]]|[-> Ha]].
  - assert (F2 : find sep_second (value ++ sep_second ++ rest') = Some (value, rest')).
    { apply find_first_occurrence. split; [reflexivity|exact Hf2]. }
    unfold contains. rewrite F2. simpl.
    assert (S2 : split_line (value ++ sep_second ++ rest') sep_second
                 = Returns (value, rest')).
    { apply split_line_Returns. split; assumption. }
    now rewrite S2.
  - rewrite app_nil_r. apply contains_false in Ha. now rewrite Ha.
Qed.

Lemma substring_between_witness :
  (name_Z <> [] /\
   first_occurrence name_Z (head_Z ++ name_Z ++ value_Z ++ underscore ++ rest_Z) head_Z /\
   ((underscore <> [] /\
     exists rest', underscore ++ rest_Z = underscore ++ rest' /\
                   first_occurrence underscore (value_Z ++ underscore ++ rest_Z) value_Z) \/
    (underscore ++ rest_Z = [] /\ absent underscore value_Z))) /\
  substring (head_Z ++ name_Z ++ value_Z ++ underscore ++ rest_Z) name_Z underscore
  = Returns value_Z.
Proof.
  assert (H1 : name_Z <> []) by discriminate.
  assert (H2 : first_occurrence name_Z
                 (head_Z ++ name_Z ++ value_Z ++ underscore ++ rest_Z) head_Z).
  { apply (proj1 (@find_first_occurrence name_Z _ head_Z
                    (value_Z ++ underscore ++ rest_Z))). reflexivity. }
  assert (H3 : (underscore <> [] /\
     exists rest', underscore ++ rest_Z = underscore ++ rest' /\
                   first_occurrence underscore (value_Z ++ underscore ++ rest_Z) value_Z) \/
    (underscore ++ rest_Z = [] /\ absent underscore value_Z)).
  { left. split; [discriminate|]. exists rest_Z. split; [reflexivity|].
    apply (proj1 (@find_first_occurrence underscore _ value_Z rest_Z)). reflexivity. }
  split; [split; [exact H1|split; [exact H2|exact H3]]|].
  exact (@substring_between head_Z name_Z value_Z underscore (underscore ++ rest_Z)
           H1 H2 H3).
Defined.

Lemma get_setitem (d : dict) (k v q : str) :
  get (setitem d k v) q = if str_eqb k q then Some v else get d q.
Proof.
  induction d as [|[k' v'] d IH]; simpl.
  - reflexivity.
  - destruct (str_eqb k' k) eqn:E; simpl.
    + apply str_eqb_eq in E. subst k'. destruct (str_eqb k q); reflexivity.
    + rewrite IH. destruct (str_eqb k' q) eqn:E1; [|reflexivity].
      destruct (str_eqb k q) eqn:E2; [|reflexivity].
      apply str_eqb_eq in E1, E2. subst. rewrite str_eqb_refl in E. discriminate.
Qed.

Lemma get_param_loop (stem : str) (parameters : list str) : forall (d : dict) (name : str),
  get (fold_left
         (fun param_dict parameter =>
            match substring stem parameter underscore with
            | Returns p => setitem param_dict parameter p
            | Raises _ => setitem param_dict parameter zero_value
            end) parameters d) name
  = if existsb (fun p => str_eqb p name) parameters
    then Some match substring stem name underscore with
              | Returns p => p
              | Raises _ => zero_value
              end
    else get d name.
Proof.
  induction parameters as [|p ps IH]; intros d name; simpl; [reflexivity|].
  rewrite IH. destruct (existsb (fun q => str_eqb q name) ps) eqn:E.
  - now rewrite orb_true_r.
  - rewrite orb_false_r.
    destruct (str_eqb p name) eqn:Ep.
    + apply str_eqb_eq in Ep. subst p.
      destruct (substring stem name underscore); rewrite get_setitem, str_eqb_refl;
        reflexivity.
    + destruct (substring stem p underscore); rewrite get_setitem, Ep; reflexivity.
Qed.

Lemma existsb_str_eqb (name : str) (parameters : list str) :
  existsb (fun p => str_eqb p name) parameters = true <-> In name parameters.
Proof.
  rewrite existsb_exists. split.
  - intros [p [Hin E]]. apply str_eqb_eq in E. now subst.
  - intros Hin. exists name. split; [exact Hin|apply str_eqb_refl].
Qed.

(** X5. [get_param_from_filename] gives the dictionary one key per
    requested parameter and no other: the value is what [substring]
    returns for the parameter and ['_'] in the stem of the file name,
    and ['0'] when the parameter is the empty string or occurs nowhere
    in the stem. No exception leaves the function. *)
Theorem get_param_from_filename_values (stem : str) (parameters : list str) (name : str) :
  (get (get_param_from_filename stem parameters) name <> None <-> In name parameters) /\
  (In name parameters -> name = [] \/ absent name stem ->
   get (get_param_from_filename stem parameters) name = Some zero_value) /\
  (forall value, In name parameters ->
   substring stem name underscore = Returns value ->
   get (get_param_from_filename stem parameters) name = Some value).
Proof.
  unfold get_param_from_filename. fold underscore. rewrite get_param_loop. simpl.
  split; [|split].
  - rewrite <- existsb_str_eqb.
    destruct (existsb (fun p => str_eqb p name) parameters); split; congruence.
  - intros Hin Hcase. apply existsb_str_eqb in Hin. rewrite Hin.
    assert (Hr : exists e, split_line stem name = Raises e).
    { destruct name as [|c name]; [exists ValueError; reflexivity|].
      destruct Hcase as [Hn|Ha]; [discriminate|].
      exists AssertionError. unfold split_line, partition.
      apply contains_false in Ha. unfold contains in Ha.
      destruct (find (c :: name) stem); [discriminate|]. reflexivity. }
    destruct Hr as [e Hr]. unfold substring. now rewrite Hr.
  - intros value Hin Hs. apply existsb_str_eqb in Hin. now rewrite Hin, Hs.
Qed.

(** X6. [sign] returns ['+'] exactly for the numbers that are [>= 0],
    the float [-0.0] among them, and ['-'] for every other one, NaN
    among them. *)
Theorem sign_plus_iff_nonnegative (x : number) :
  (sign x = plus_sign <->
   match x with
   | Float x => (0 <=? x)%float = true
   | Int n => (0 <= n)%Z
   end) /\
  (sign x = minus_sign <->
   match x with
   | Float x => (0 <=? x)%float = false
   | Int n => (n < 0)%Z
   end).
Proof.
  destruct x as [x|n]; simpl.
  - assert (E : (abs x =? x)%float = (0 <=? x)%float).
    { rewrite FloatAxioms.eqb_spec, FloatAxioms.abs_spec, FloatAxioms.leb_spec.
      replace (Prim2SF 0) with (S754_zero false) by reflexivity.
      destruct (Prim2SF x) as [s|s| |s m e].
      - destruct s; reflexivity.
      - destruct s; reflexivity.
      - reflexivity.
      - destruct s; unfold SFabs, SFeqb, SFleb, SFcompare.
        + reflexivity.
        + rewrite Z.compare_refl, Pos.compare_refl. reflexivity. }
    rewrite E. unfold plus_sign, minus_sign.
    destruct (0 <=? x)%float; split; split; intros H; try reflexivity; discriminate.
  - unfold plus_sign, minus_sign.
    destruct (Z.eqb_spec (Z.abs n) n) as [E|E];
      split; split; intros H; try reflexivity; try discriminate; lia.
Qed.

End SupportFunctions.
(* ================================================================== *)
(** * Mode classification and scanning range *)

(** X7. [calculate_k] raises exactly when [abs(l) < abs(m)], with or
    without [rossby]; the sign of [l] is not looked at. When it returns,
    the Rossby value is [-(k+1)] for the gravity-mode value [k], and for
    [l >= 0] the gravity-mode value lies in [0..l] and the Rossby value
    in [-(l+1)..-1]. *)
Theorem calculate_k_ranges (l m : Z) :
  (forall rossby,
     (exists k, calculate_k l m rossby = K k) <-> (Z.abs m <= Z.abs l)%Z) /\
  (forall rossby,
     calculate_k l m rossby = Exception_l_smaller_than_m l m <-> (Z.abs l < Z.abs m)%Z) /\
  (forall k, calculate_k l m false = K k -> calculate_k l m true = K (- (k + 1))%Z) /\
  (forall k, (0 <= l)%Z -> calculate_k l m false = K k -> (0 <= k <= l)%Z) /\
  (forall k, (0 <= l)%Z -> calculate_k l m true = K k -> (- (l + 1) <= k <= -1)%Z).
Proof.
  unfold calculate_k. split; [|split; [|split; [|split]]].
  - intros rossby. destruct rossby; cbn [negb];
      destruct (Z.geb_spec (Z.abs l) (Z.abs m)) as [H|H]; split; intros H';
      try lia; eauto; destruct H' as [k E]; discriminate.
  - intros rossby. destruct rossby; cbn [negb];
      destruct (Z.geb_spec (Z.abs l) (Z.abs m)) as [H|H]; split; intros H';
      try lia; try discriminate; reflexivity.
  - intros k. cbn [negb]. destruct (Z.geb_spec (Z.abs l) (Z.abs m)) as [H|H]; intros E;
      [|discriminate].
    apply (f_equal (fun r => match r with K k0 => k0 | _ => 0%Z end)) in E;
      cbv beta iota in E. f_equal. lia.
  - intros k Hl. cbn [negb]. destruct (Z.geb_spec (Z.abs l) (Z.abs m)) as [H|H]; intros E;
      [|discriminate].
    apply (f_equal (fun r => match r with K k0 => k0 | _ => 0%Z end)) in E;
      cbv beta iota in E. lia.
  - intros k Hl. cbn [negb]. destruct (Z.geb_spec (Z.abs l) (Z.abs m)) as [H|H]; intros E;
      [|discriminate].
    apply (f_equal (fun r => match r with K k0 => k0 | _ => 0%Z end)) in E;
      cbv beta iota in E. lia.
Qed.

(** X8. The radial orders [calc_scanning_range] computes its frequency
    bounds from: the lower one is at least 1 for every input; the upper
    one is 0 exactly for [npg_min = 3]; for requested orders
    [npg_min <= n <= npg_max <= -1] the range [n_min_used..n_max_used]
    holds [abs(n)] with a margin of 3 above, and of 3 below unless that
    would go under 1. *)
Theorem scanning_orders_cover (npg_min npg_max n : Z) :
  (1 <= n_min_used npg_max)%Z /\
  (n_max_used npg_min = 0 <-> npg_min = 3)%Z /\
  ((npg_min <= n <= npg_max)%Z -> (npg_max <= -1)%Z ->
   (n_min_used npg_max <= Z.abs n)%Z /\
   (Z.abs n + 3 <= n_max_used npg_min)%Z /\
   (n_min_used npg_max = Z.max 1 (Z.abs npg_max - 3))%Z).
Proof.
  unfold n_min_used, n_max_used. repeat split; lia.
Qed.

(* ================================================================== *)
(** * Properties of [puls_series_from_given_puls] *)

Lemma length_slice {A : Type} (a : list A) (lo hi : nat) :
  length (Py.slice a lo hi) = Nat.min hi (length a) - lo.
Proof. unfold Py.slice. now rewrite length_skipn, length_firstn. Qed.

Lemma nth_error_slice {A : Type} (a : list A) (lo hi j : nat) :
  nth_error (Py.slice a lo hi) j = if lo + j <? hi then nth_error a (lo + j) else None.
Proof. unfold Py.slice. now rewrite nth_error_skipn, nth_error_firstn. Qed.

Lemma nth_error_const {A B : Type} (c : B) (l : list A) (j : nat) :
  nth_error (map (fun _ => c) l) j = if j <? length l then Some c else None.
Proof.
  rewrite nth_error_map. destruct (Nat.ltb_spec j (length l)) as [H|H].
  - destruct (nth_error l j) eqn:E; [reflexivity|].
    apply nth_error_None in E. lia.
  - apply nth_error_None in H. now rewrite H.
Qed.

(** The minimum Python takes when the first item is NaN is that item;
    otherwise it is an item of the sequence and no NaN. *)
Lemma fold_min_nan (r : list float) (x : float) :
  is_nan x = true ->
  fold_left (fun m y => if (y <? m)%float then y else m) r x = x.
Proof.
  intros Hx. induction r as [|y r IH]; simpl; [reflexivity|].
  destruct (y <? x)%float eqn:E; [|exact IH].
  apply F64.ltb_leb in E. apply F64.leb_nonnan in E. destruct E; congruence.
Qed.

Lemma fold_min_first_nonnan (r : list float) : forall x,
  is_nan x = false ->
  let m := fold_left (fun m y => if (y <? m)%float then y else m) r x in
  In m (x :: r) /\ is_nan m = false.
Proof.
  induction r as [|y r IH]; intros x Hx; simpl.
  - auto.
  - destruct (y <? x)%float eqn:E.
    + assert (Hy : is_nan y = false).
      { apply F64.ltb_leb in E. apply F64.leb_nonnan in E. tauto. }
      destruct (IH y Hy) as [Hin Hm]. simpl in Hin. split; [|exact Hm].
      destruct Hin as [<-|Hin]; auto.
    + destruct (IH x Hx) as [Hin Hm]. simpl in Hin. split; [|exact Hm].
      destruct Hin as [<-|Hin]; auto.
Qed.

Lemma eqb_true_nonnan (x y : float) :
  (x =? y)%float = true -> is_nan x = false /\ is_nan y = false.
Proof. intros E. apply F64.eqb_leb in E. destruct E as [E _]. exact (F64.leb_nonnan E). Qed.

(** What the statements of [puls_series_from_given_puls] computed when
    it returned. *)
Lemma puls_series_from_given_puls_inv (TheoIn Obs : list float) (v : float)
    (s : list float) :
  puls_series_from_given_puls TheoIn Obs (Some v) = Ok s ->
  exists nth_obs m index,
    first_position (fun o => (o =? v)%float) Obs nth_obs /\
    Py.min (map (fun t => abs (t - v)%float) TheoIn) = Ok m /\
    first_position (fun t => (abs (t - v) =? m)%float) TheoIn index /\
    length s = length Obs /\
    forall i, i < length Obs ->
      let k := (Z.of_nat index - Z.of_nat nth_obs + Z.of_nat i)%Z in
      nth_error s i
      = if ((0 <=? k) && (k <? Z.of_nat (length TheoIn)))%Z
        then nth_error TheoIn (Z.to_nat k)
        else Some (-1)%float.
Proof.
  unfold puls_series_from_given_puls. intros H.
  bind_inv H as nth_obs Hn. bind_inv H as m Hm. bind_inv H as index Hi.
  apply item0_nonzero in Hn. rewrite map_map in Hi. apply item0_nonzero in Hi.
  exists nth_obs, m, index. split; [exact Hn|]. split; [exact Hm|]. split; [exact Hi|].
  pose proof (first_position_lt Hn) as Ln. pose proof (first_position_lt Hi) as Li.
  apply (f_equal (fun r => match r with Ok l => l | Raise _ => [] end)) in H.
  cbv beta iota zeta in H. subst s.
  set (hi := index + (length Obs - nth_obs)).
  split.
  - destruct (Nat.ltb_spec index nth_obs) as [C1|C1];
      destruct (Nat.ltb_spec (length TheoIn) hi) as [C2|C2];
      rewrite ?length_app, ?length_map, ?length_seq, ?length_slice; subst hi; lia.
  - intros i Hlt. cbv zeta.
    destruct (Nat.ltb_spec index nth_obs) as [C1|C1];
      destruct (Nat.ltb_spec (length TheoIn) hi) as [C2|C2];
      rewrite ?nth_error_app, ?length_app, ?length_map, ?length_seq, ?length_slice,
              ?nth_error_const, ?length_seq, ?nth_error_slice;
      repeat match goal with
             | |- context [Nat.ltb ?a ?b] => destruct (Nat.ltb_spec a b)
             end;
      repeat match goal with
             | |- context [Z.leb ?a ?b] => destruct (Z.leb_spec a b)
             | |- context [Z.ltb ?a ?b] => destruct (Z.ltb_spec a b)
             end;
      cbn [andb]; subst hi; try lia; try reflexivity;
      try (f_equal; lia);
      try (symmetry; apply nth_error_None; lia).
Qed.

(** X9. When [puls_series_from_given_puls] returns, the list has one
    entry per observation. With [nth_obs] the first position of the
    given value in [Obs] and [index] the first position of [TheoIn] at
    the least distance from it, entry [i] is
    [TheoIn[index - nth_obs + i]] where that position exists and [-1]
    where it does not. *)
Theorem puls_series_from_given_puls_entries (TheoIn Obs : list float) (v : float)
    (s : list float) :
  puls_series_from_given_puls TheoIn Obs (Some v) = Ok s ->
  length s = length Obs /\
  exists nth_obs m index,
    first_position (fun o => (o =? v)%float) Obs nth_obs /\
    Py.min (map (fun t => abs (t - v)%float) TheoIn) = Ok m /\
    first_position (fun t => (abs (t - v) =? m)%float) TheoIn index /\
    forall i, i < length Obs ->
      let k := (Z.of_nat index - Z.of_nat nth_obs + Z.of_nat i)%Z in
      nth_error s i
      = if ((0 <=? k) && (k <? Z.of_nat (length TheoIn)))%Z
        then nth_error TheoIn (Z.to_nat k)
        else Some (-1)%float.
Proof.
  intros H. destruct (@puls_series_from_given_puls_inv _ _ _ _ H)
    as [nth_obs [m [index [Hn [Hm [Hi [Hl He]]]]]]].
  split; [exact Hl|]. exists nth_obs, m, index. auto.
Qed.

Lemma puls_series_from_given_puls_entries_witness :
  puls_series_from_given_puls tperiods_A [1.22; 1.31]%float (Some 1.31%float)
  = Ok [1.2; 1.3]%float /\
  length [1.2; 1.3]%float = length [1.22; 1.31]%float /\
  exists nth_obs m index,
    first_position (fun o => (o =? 1.31)%float) [1.22; 1.31]%float nth_obs /\
    Py.min (map (fun t => abs (t - 1.31)%float) tperiods_A) = Ok m /\
    first_position (fun t => (abs (t - 1.31) =? m)%float) tperiods_A index /\
    forall i, i < length [1.22; 1.31]%float ->
      let k := (Z.of_nat index - Z.of_nat nth_obs + Z.of_nat i)%Z in
      nth_error [1.2; 1.3]%float i
      = if ((0 <=? k) && (k <? Z.of_nat (length tperiods_A)))%Z
        then nth_error tperiods_A (Z.to_nat k)
        else Some (-1)%float.
Proof.
  split; [vm_compute; reflexivity|].
  apply (@puls_series_from_given_puls_entries tperiods_A [1.22; 1.31]%float 1.31%float
           [1.2; 1.3]%float).
  vm_compute. reflexivity.
Defined.

(** X10. [puls_series_from_given_puls] returns exactly when the given
    value is equal to an observation and the first theoretical value
    exists and is at a distance from it that is a number. It raises
    IndexError when no observation is equal to the given value (a NaN
    is equal to none), and ValueError when an observation is and there
    is no theoretical value. *)
Theorem puls_series_from_given_puls_returns_iff (TheoIn Obs : list float) (v : float) :
  ((exists s, puls_series_from_given_puls TheoIn Obs (Some v) = Ok s) <->
   (exists o, In o Obs /\ (o =? v)%float = true) /\
   (exists t0 rest, TheoIn = t0 :: rest /\ is_nan (abs (t0 - v)) = false)) /\
  ((forall o, In o Obs -> (o =? v)%float = false) ->
   puls_series_from_given_puls TheoIn Obs (Some v) = Raise IndexError) /\
  ((exists o, In o Obs /\ (o =? v)%float = true) -> TheoIn = [] ->
   puls_series_from_given_puls TheoIn Obs (Some v) = Raise ValueError).
Proof.
  split; [split|split].
  - intros [s H].
    destruct (@puls_series_from_given_puls_inv _ _ _ _ H)
      as [nth_obs [m [index [Hn [Hm [Hi _]]]]]].
    split.
    + destruct Hn as [[o [Ho Ht]] _]. exists o. split; [|exact Ht].
      eapply nth_error_In; eauto.
    + destruct TheoIn as [|t0 rest]; [discriminate|].
      exists t0, rest. split; [reflexivity|].
      destruct (is_nan (abs (t0 - v))) eqn:En; [|reflexivity].
      simpl in Hm. rewrite (@fold_min_nan _ _ En) in Hm.
      assert (m = abs (t0 - v)) by congruence. subst m.
      destruct Hi as [[t [_ Ht]] _]. apply eqb_true_nonnan in Ht.
      destruct Ht; congruence.
  - intros [Ho [t0 [rest [-> Hnan]]]].
    destruct (first_position_exists _ _ Ho) as [nth_obs Hn].
    pose proof (@fold_min_first_nonnan
                  (map (fun t => abs (t - v)%float) rest) (abs (t0 - v)) Hnan) as Hf.
    cbv zeta in Hf. destruct Hf as [Hin Hm].
    set (m := fold_left (fun m y => if (y <? m)%float then y else m)
                        (map (fun t => abs (t - v)%float) rest) (abs (t0 - v))) in *.
    assert (Hex : exists t, In t (t0 :: rest) /\ (abs (t - v) =? m)%float = true).
    { change (abs (t0 - v) :: map (fun t => abs (t - v)%float) rest)
        with (map (fun t => abs (t - v)%float) (t0 :: rest)) in Hin.
      apply in_map_iff in Hin. destruct Hin as [t [Et Hin]].
      exists t. split; [exact Hin|]. rewrite Et. now apply F64.eqb_refl. }
    destruct (first_position_exists _ _ Hex) as [index Hi].
    unfold puls_series_from_given_puls.
    rewrite (proj2 (item0_nonzero _ _ _) Hn). cbn [bind].
    assert (Hmin : Py.min (map (fun t => abs (t - v)%float) (t0 :: rest)) = Ok m)
      by reflexivity.
    rewrite Hmin. cbn [bind]. rewrite map_map. rewrite (proj2 (item0_nonzero _ _ _) Hi). cbn [bind]. eauto.
  - intros Hno. unfold puls_series_from_given_puls.
    assert (E : Np.nonzero (map (fun o => (o =? v)%float) Obs) = []).
    { destruct (Np.nonzero (map (fun o => (o =? v)%float) Obs)) as [|j r] eqn:E;
        [reflexivity|].
      assert (Hj : Py.item0 (Np.nonzero (map (fun o => (o =? v)%float) Obs)) = Ok j)
        by (rewrite E; reflexivity).
      apply item0_nonzero in Hj. destruct Hj as [[o [Ho Ht]] _].
      apply nth_error_In in Ho. rewrite (Hno o Ho) in Ht. discriminate. }
    rewrite E. reflexivity.
  - intros Ho ->. destruct (first_position_exists _ _ Ho) as [nth_obs Hn].
    unfold puls_series_from_given_puls.
    rewrite (proj2 (item0_nonzero _ _ _) Hn). reflexivity.
Qed.

Lemma abs_nonnan (x : float) : is_nan (abs x) = is_nan x.
Proof.
  destruct (is_nan x) eqn:E.
  - destruct (is_nan (abs x)) eqn:E'; [reflexivity|].
    apply F64.is_nan_spec in E'. rewrite FloatAxioms.abs_spec in E'.
    assert (Prim2SF x = S754_nan).
    { destruct (Prim2SF x) eqn:P; try reflexivity;
        exfalso; assert (Hn : Prim2SF x <> S754_nan) by (rewrite P; discriminate);
        apply F64.is_nan_spec in Hn; congruence. }
    rewrite H in E'. simpl in E'. congruence.
  - apply F64.is_nan_spec. apply F64.is_nan_spec in E.
    rewrite FloatAxioms.abs_spec. destruct (Prim2SF x); simpl; congruence.
Qed.

(** X11. For finite theoretical values and a finite given value, the
    entry [puls_series_from_given_puls] writes at the position of the
    given observation is a theoretical value at the least distance from
    it, the first such in [TheoIn]. *)
Theorem puls_series_anchor_closest (TheoIn Obs : list float) (v : float)
    (s : list float) :
  Forall (fun t => is_finite t = true) TheoIn ->
  is_finite v = true ->
  puls_series_from_given_puls TheoIn Obs (Some v) = Ok s ->
  exists nth_obs index t,
    first_position (fun o => (o =? v)%float) Obs nth_obs /\
    nth_error s nth_obs = Some t /\
    nth_error TheoIn index = Some t /\
    (forall t', In t' TheoIn -> (abs (t - v) <=? abs (t' - v))%float = true) /\
    (forall j t', j < index -> nth_error TheoIn j = Some t' ->
                  (abs (t - v) <? abs (t' - v))%float = true).
Proof.
  intros Hfin Hv H.
  destruct (@puls_series_from_given_puls_inv _ _ _ _ H)
    as [nth_obs [m [index [Hn [Hm [Hi [_ He]]]]]]].
  pose proof (first_position_lt Hn) as Ln. pose proof (first_position_lt Hi) as Li.
  assert (Hnn : Forall (fun y => is_nan y = false) (map (fun t => abs (t - v)%float) TheoIn)).
  { apply Forall_map. eapply Forall_impl; [|exact Hfin].
    intros t Ht. cbv beta. rewrite abs_nonnan. now apply F64.sub_nonnan. }
  assert (Hne : map (fun t => abs (t - v)%float) TheoIn <> []).
  { destruct TheoIn; [simpl in Li; lia|discriminate]. }
  destruct (py_min_spec Hne Hnn) as [m' [Hm' [_ [_ Hmin]]]].
  assert (m' = m) by congruence. subst m'.
  destruct Hi as [[t [Ht Heq]] Hfirst].
  exists nth_obs, index, t. split; [exact Hn|]. split; [|split; [exact Ht|split]].
  - specialize (He nth_obs Ln). cbv zeta in He. rewrite He.
    replace (Z.of_nat index - Z.of_nat nth_obs + Z.of_nat nth_obs)%Z
      with (Z.of_nat index) by lia.
    rewrite Nat2Z.id.
    destruct (Z.leb_spec 0 (Z.of_nat index)); [|lia].
    destruct (Z.ltb_spec (Z.of_nat index) (Z.of_nat (length TheoIn))); [|lia].
    exact Ht.
  - intros t' Hin. apply F64.eqb_leb in Heq. destruct Heq as [Hle _].
    eapply F64.leb_trans; [exact Hle|]. apply Hmin. exact (in_map (fun t0 => abs (t0 - v)%float) TheoIn t' Hin).
  - intros j t' Hj Hjt. specialize (Hfirst j t' Hj Hjt). cbv beta in Hfirst.
    assert (Hle : (m <=? abs (t' - v))%float = true).
    { apply Hmin. apply (in_map (fun t0 => abs (t0 - v)%float) TheoIn t').
      eapply nth_error_In; eauto. }
    assert (Hlt : (m <? abs (t' - v))%float = true).
    { apply F64.leb_neq_ltb; [exact Hle|]. rewrite F64.eqb_sym. exact Hfirst. }
    eapply eqb_ltb_trans; eauto.
Qed.

Lemma puls_series_anchor_closest_witness :
  (Forall (fun t => is_finite t = true) tperiods_A /\ is_finite 1.31%float = true /\
   puls_series_from_given_puls tperiods_A [1.22; 1.31]%float (Some 1.31%float)
   = Ok [1.2; 1.3]%float) /\
  exists nth_obs index t,
    first_position (fun o => (o =? 1.31)%float) [1.22; 1.31]%float nth_obs /\
    nth_error [1.2; 1.3]%float nth_obs = Some t /\
    nth_error tperiods_A index = Some t /\
    (forall t', In t' tperiods_A -> (abs (t - 1.31) <=? abs (t' - 1.31))%float = true) /\
    (forall j t', j < index -> nth_error tperiods_A j = Some t' ->
                  (abs (t - 1.31) <? abs (t' - 1.31))%float = true).
Proof.
  assert (H1 : Forall (fun t => is_finite t = true) tperiods_A) by (repeat constructor).
  assert (H2 : is_finite 1.31%float = true) by reflexivity.
  assert (H3 : puls_series_from_given_puls tperiods_A [1.22; 1.31]%float (Some 1.31%float)
               = Ok [1.2; 1.3]%float) by (vm_compute; reflexivity).
  split; [split; [exact H1|split; [exact H2|exact H3]]|].
  exact (@puls_series_anchor_closest tperiods_A [1.22; 1.31]%float 1.31%float
           [1.2; 1.3]%float H1 H2 H3).
Defined.

(* ================================================================== *)
(** * More properties of the matching engine *)

Lemma pattern_aligner_lengths (tperiods : list float) (orders : list Z)
    (operiods : list float) (lseq : list pair) (ps : list float) (os : list Z) :
  pattern_aligner tperiods orders operiods lseq = Ok (ps, os) ->
  length ps = length operiods /\ length os = length operiods.
Proof.
  unfold pattern_aligner. intros H.
  bind_inv H as row0 H0. bind_inv H as oi Hoi. bind_inv H as ti Hti.
  bind_inv H as rows Hrows.
  apply mapM_Ok_length in Hrows. rewrite length_enumerate in Hrows.
  assert (E : (map fst rows, map snd rows) = (ps, os)) by congruence.
  assert (E1 : map fst rows = ps) by congruence.
  assert (E2 : map snd rows = os) by congruence.
  subst ps os. now rewrite !length_map.
Qed.

Lemma chisq_longest_sequence_lengths (np_sum : list float -> float)
    (scalar_pow2 : float -> float)
    (tperiods : list float) (orders : list Z) (operiods operiods_errors : list float)
    (c : float) (fp : pyseq) (os : list Z) :
  chisq_longest_sequence np_sum scalar_pow2 tperiods orders operiods operiods_errors = Ok (c, fp, os) ->
  length (values fp) = length operiods /\ length os = length operiods /\
  match fp with
  | PyList _ => length tperiods < length operiods
  | NdArray _ => length operiods <= length tperiods
  end.
Proof.
  intros H. destruct (Nat.ltb_spec (length tperiods) (length operiods)) as [C|C].
  - unfold chisq_longest_sequence in H.
    replace (length tperiods <? length operiods) with true in H
      by (symmetry; apply Nat.ltb_lt; exact C).
    assert (E1 : fp = PyList (map (fun _ => (-1)%float) (seq 0 (length operiods))))
      by congruence.
    assert (E2 : os = map (fun _ => (-1)%Z) (seq 0 (length operiods))) by congruence.
    subst fp os. cbn [values]. rewrite !length_map, !length_seq. auto.
  - destruct (@chisq_longest_sequence_inv np_sum scalar_pow2 tperiods orders operiods operiods_errors
                c fp os C H)
      as [pairs_orders [step [lseq [ps [obs [obse [thr [_ [_ [_ [Ha [-> _]]]]]]]]]]]].
    destruct (pattern_aligner_lengths _ _ _ _ Ha) as [L1 L2].
    cbn [values]. auto.
Qed.

(** X12. Whatever [chisq_longest_sequence] returns holds one
    theoretical period and one radial order per observed period. The
    periods come as a Python list exactly when there are fewer
    theoretical than observed periods, and as a numpy array otherwise. *)
Theorem chisq_longest_sequence_output_lengths (np_sum : list float -> float)
    (scalar_pow2 : float -> float)
    (tperiods : list float) (orders : list Z) (operiods operiods_errors : list float)
    (c : float) (fp : pyseq) (os : list Z) :
  chisq_longest_sequence np_sum scalar_pow2 tperiods orders operiods operiods_errors = Ok (c, fp, os) ->
  length (values fp) = length operiods /\ length os = length operiods /\
  ((exists l, fp = PyList l) <-> length tperiods < length operiods) /\
  ((exists a, fp = NdArray a) <-> length operiods <= length tperiods).
Proof.
  intros H. destruct (chisq_longest_sequence_lengths _ _ _ _ _ _ H) as [L1 [L2 K]].
  split; [exact L1|]. split; [exact L2|].
  destruct fp as [l|a]; split; split; intros H'; eauto; try lia;
    destruct H' as [x Hx]; discriminate.
Qed.

Lemma chisq_longest_sequence_output_lengths_witness :
  (exists c, chisq_longest_sequence np_sum_seq pow2 tperiods_A orders_A operiods_A errors_A
             = Ok (c, NdArray [1.0; 1.1]%float, [-5; -4]%Z)) /\
  length (values (NdArray [1.0; 1.1]%float)) = length operiods_A /\
  length [-5; -4]%Z = length operiods_A /\
  ((exists l, NdArray [1.0; 1.1]%float = PyList l)
   <-> length tperiods_A < length operiods_A) /\
  ((exists a, NdArray [1.0; 1.1]%float = NdArray a)
   <-> length operiods_A <= length tperiods_A).
Proof.
  destruct scenario_A_returned as [c Hc].
  split; [exists c; exact Hc|].
  exact (@chisq_longest_sequence_output_lengths np_sum_seq pow2 tperiods_A orders_A
           operiods_A errors_A c (NdArray [1.0; 1.1]%float) [-5; -4]%Z Hc).
Defined.

(** X13. RunSegmenter on any rows: with fewer than two rows there is no
    run; with two or more, no run is empty, the runs hold as many rows
    as were given, and written one after the other they are the rows
    with the last one replaced by a second copy of the one before it. *)
Theorem run_segmenter_rows (step : Z) (pairs_orders : list pair) :
  (length pairs_orders <= 1 -> run_segmenter step pairs_orders = []) /\
  (forall body x y, pairs_orders = body ++ [x; y] ->
     concat (run_segmenter step pairs_orders) = body ++ [x; x] /\
     Forall (fun r => r <> []) (run_segmenter step pairs_orders) /\
     list_sum (map (@length pair) (run_segmenter step pairs_orders))
     = length pairs_orders).
Proof.
  split; [apply run_segmenter_short|].
  intros body x y ->. destruct (run_segmenter_concat step body x y) as [Hc Hne].
  split; [exact Hc|]. split; [exact Hne|].
  rewrite <- length_concat, Hc, !length_app. reflexivity.
Qed.

Lemma mapM_raises_only {A B : Type} (f : A -> result B) (l : list A) (e : exn) :
  (forall a e', f a = Raise e' -> e' = e) ->
  forall e', mapM f l = Raise e' -> e' = e.
Proof.
  intros Hf. induction l as [|a l IH]; intros e' H; simpl in H; [discriminate|].
  destruct (f a) as [b|e0] eqn:Ea; simpl in H.
  - destruct (mapM f l) as [bs|e1]; simpl in H; [discriminate|].
    assert (e1 = e') by congruence. subst. now apply IH.
  - assert (e0 = e') by congruence. subst. now apply (Hf a).
Qed.

Lemma mapM_ext_in {A B : Type} (f g : A -> result B) (l : list A) :
  (forall a, In a l -> f a = g a) -> mapM f l = mapM g l.
Proof.
  induction l as [|a l IH]; intros H; [reflexivity|].
  cbn [mapM]. rewrite (H a (or_introl eq_refl)), IH; [reflexivity|].
  intros b Hb. apply H. now right.
Qed.

Lemma getitem_raises {A : Type} (a : list A) (i : nat) (e : exn) :
  Py.getitem a i = Raise e -> e = IndexError.
Proof. unfold Py.getitem. destruct (nth_error a i); congruence. Qed.

(** X14. [generate_obs_series] returns exactly when there are fewer
    than two periods or at least as many errors as periods; otherwise it
    raises IndexError. Errors beyond the number of periods are not
    read. *)
Theorem generate_obs_series_returns_iff (scalar_pow2 : float -> float) (periods errors : list float) :
  ((exists r, generate_obs_series scalar_pow2 periods errors = Ok r) <->
   length periods <= 1 \/ length periods <= length errors) /\
  (2 <= length periods -> length errors < length periods ->
   generate_obs_series scalar_pow2 periods errors = Raise IndexError) /\
  (forall r, generate_obs_series scalar_pow2 periods errors = Ok r ->
   generate_obs_series scalar_pow2 periods (firstn (length periods) errors) = Ok r).
Proof.
  assert (Hret : forall errs, length periods <= 1 \/ length periods <= length errs ->
                 exists r, generate_obs_series scalar_pow2 periods errs = Ok r).
  { intros errs Hc. unfold generate_obs_series.
    match goal with |- context [mapM ?f ?l] =>
      destruct (@mapM_total _ _ f l) as [rows Hrows] end.
    - intros [kk p] Hin. apply In_enumerate in Hin. cbn [fst snd].
      rewrite nth_error_removelast in Hin.
      destruct (Nat.ltb_spec (S kk) (length periods)) as [Hk|Hk]; [|discriminate].
      destruct Hc as [Hc|Hc]; [lia|].
      destruct (@getitem_lt _ periods (S kk) Hk) as [q [Hq _]].
      destruct (@getitem_lt _ errs kk ltac:(lia)) as [e1 [He1 _]].
      destruct (@getitem_lt _ errs (S kk) ltac:(lia)) as [e2 [He2 _]].
      rewrite Hq, He1, He2. cbn [bind]. eauto.
    - rewrite Hrows. cbn [bind]. eauto. }
  assert (Hinv : forall errs r, generate_obs_series scalar_pow2 periods errs = Ok r ->
                 length periods <= 1 \/ length periods <= length errs).
  { intros errs r H. unfold generate_obs_series in H. bind_inv H as rows Hrows.
    destruct (Nat.le_gt_cases (length periods) 1) as [C|C]; [auto|]. right.
    destruct (nth_error periods (length periods - 2)) as [p|] eqn:Ep;
      [|apply nth_error_None in Ep; lia].
    assert (Hin : nth_error (Py.enumerate (removelast periods)) (length periods - 2)
                  = Some (length periods - 2, p)).
    { rewrite nth_error_enumerate, nth_error_removelast.
      replace (S (length periods - 2) <? length periods) with true
        by (symmetry; apply Nat.ltb_lt; lia).
      now rewrite Ep. }
    destruct (mapM_Ok_nth _ _ Hrows _ Hin) as [b [_ Hb]]. cbn [fst snd] in Hb.
    bind_inv Hb as q Hq. bind_inv Hb as e1 He1. bind_inv Hb as e2 He2.
    apply getitem_Ok in He2.
    assert (nth_error errs (S (length periods - 2)) <> None) by congruence.
    apply nth_error_Some in H0. lia. }
  split; [split|split].
  - intros [r H]. eapply Hinv; eauto.
  - apply Hret.
  - intros H2 Hlt. destruct (generate_obs_series scalar_pow2 periods errors) as [r|e] eqn:E.
    + apply Hinv in E. lia.
    + f_equal. unfold generate_obs_series in E.
      match type of E with context [mapM ?f ?l] =>
        destruct (mapM f l) as [rows|e0] eqn:Em end; [discriminate|].
      cbn [bind] in E. assert (e0 = e) by congruence. subst e0.
      eapply mapM_raises_only; [|exact Em].
      intros [kk p] e' Hf. cbn [fst snd] in Hf.
      destruct (Py.getitem periods (S kk)) eqn:G1;
        [|cbn [bind] in Hf; apply (@getitem_raises _ periods (S kk)); congruence].
      cbn [bind] in Hf.
      destruct (Py.getitem errors kk) eqn:G2;
        [|cbn [bind] in Hf; apply (@getitem_raises _ errors kk); congruence].
      cbn [bind] in Hf.
      destruct (Py.getitem errors (S kk)) eqn:G3;
        [|cbn [bind] in Hf; apply (@getitem_raises _ errors (S kk)); congruence].
      discriminate.
  - intros r H. unfold generate_obs_series in *.
    match goal with |- context [mapM ?f ?l] =>
      match type of H with context [mapM ?g l] =>
        assert (Em : mapM f l = mapM g l) end end.
    { apply mapM_ext_in. intros [kk p] Hin. apply In_enumerate in Hin.
      rewrite nth_error_removelast in Hin.
      destruct (Nat.ltb_spec (S kk) (length periods)) as [Hk|Hk]; [|discriminate].
      cbn [fst snd]. unfold Py.getitem. rewrite !nth_error_firstn.
      replace (kk <? length periods) with true by (symmetry; apply Nat.ltb_lt; lia).
      replace (S kk <? length periods) with true by (symmetry; apply Nat.ltb_lt; lia).
      reflexivity. }
    rewrite Em. exact H.
Qed.

(** X15. The spacings [generate_obs_series] computes from the observed
    periods are the ones [generate_thry_series] computes from the same
    periods: the two series are built alike and can be compared entry by
    entry. *)
Theorem generate_obs_series_spacings (scalar_pow2 : float -> float) (periods errors obs_series obs_series_errors : list float) :
  generate_obs_series scalar_pow2 periods errors = Ok (obs_series, obs_series_errors) ->
  generate_thry_series periods = Ok obs_series /\
  length obs_series = length periods - 1 /\
  length obs_series_errors = length periods - 1.
Proof.
  intros H. unfold generate_obs_series in H. bind_inv H as rows Hrows.
  assert (E1 : map fst rows = obs_series) by congruence.
  assert (E2 : map snd rows = obs_series_errors) by congruence.
  pose proof (mapM_Ok_length _ _ Hrows) as Hl.
  rewrite length_enumerate, length_removelast_pred in Hl.
  split; [|subst; rewrite !length_map; auto].
  destruct (generate_thry_series_spec periods) as [thr [Ht [Hlt Hnth]]].
  rewrite Ht. f_equal. apply nth_error_ext. intros i.
  destruct (Nat.ltb_spec (S i) (length periods)) as [C|C].
  - destruct (nth_error periods i) as [p|] eqn:Ep; [|apply nth_error_None in Ep; lia].
    destruct (nth_error periods (S i)) as [q|] eqn:Eq; [|apply nth_error_None in Eq; lia].
    rewrite (Hnth i p q Ep Eq).
    assert (Hin : nth_error (Py.enumerate (removelast periods)) i = Some (i, p)).
    { rewrite nth_error_enumerate, nth_error_removelast.
      replace (S i <? length periods) with true by (symmetry; apply Nat.ltb_lt; lia).
      now rewrite Ep. }
    destruct (mapM_Ok_nth _ _ Hrows _ Hin) as [b [Hb Hf]]. cbn [fst snd] in Hf.
    bind_inv Hf as q' Hq. bind_inv Hf as e1 He1. bind_inv Hf as e2 He2.
    apply getitem_Ok in Hq. assert (q' = q) by congruence. subst q'.
    rewrite <- E1, nth_error_map, Hb. cbn [option_map].
    assert (Eb : b = ((abs (p - q) * 86400)%float,
                       (sqrt (scalar_pow2 e1 + scalar_pow2 e2) * 86400)%float))
      by congruence.
    now rewrite Eb.
  - transitivity (@None float); [|symmetry]; apply nth_error_None; subst; 
      rewrite ?length_map; lia.
Qed.

Lemma generate_obs_series_spacings_witness :
  generate_obs_series pow2 operiods_A errors_A
  = Ok ([(abs (1.05 - 1.22) * 86400)%float],
        [(sqrt (pow2 0.01 + pow2 0.01) * 86400)%float]) /\
  generate_thry_series operiods_A = Ok [(abs (1.05 - 1.22) * 86400)%float] /\
  length [(abs (1.05 - 1.22) * 86400)%float] = length operiods_A - 1 /\
  length [(sqrt (pow2 0.01 + pow2 0.01) * 86400)%float] = length operiods_A - 1.
Proof.
  split; [reflexivity|].
  exact (@generate_obs_series_spacings pow2 operiods_A errors_A
           [(abs (1.05 - 1.22) * 86400)%float]
           [(sqrt (pow2 0.01 + pow2 0.01) * 86400)%float] eq_refl).
Defined.

Lemma binary_round_aux_nonneg prec emax mx ex lx :
  (0 <= mx)%Z ->
  SFleb (S754_zero false) (binary_round_aux prec emax false mx ex lx) = true.
Proof.
  intros H. unfold binary_round_aux.
  pose proof (F64.shr_fexp_nonneg prec emax ex lx H) as H1.
  destruct (shr_fexp prec emax mx ex lx) as [mrs' e']. simpl in H1.
  pose proof (F64.shr_fexp_nonneg prec emax e' loc_Exact
                (F64.round_nearest_even_nonneg (loc_of_shr_record mrs') H1)) as H2.
  destruct (shr_fexp prec emax _ e' loc_Exact) as [mrs'' e'']. simpl in H2.
  destruct (shr_m mrs'') as [|p|p]; try reflexivity; try lia.
  destruct (e'' <=? _)%Z; reflexivity.
Qed.

Lemma spacing_nonneg (d : float) :
  is_nan d = false -> (0 <=? abs d * 86400)%float = true.
Proof.
  intros Hd. apply F64.is_nan_spec in Hd.
  rewrite FloatAxioms.leb_spec, FloatAxioms.mul_spec, FloatAxioms.abs_spec.
  assert (Hc : exists m e, Prim2SF 86400 = S754_finite false m e)
    by (vm_compute; eauto).
  destruct Hc as [m [e Hc]]. rewrite Hc.
  change (Prim2SF 0) with (S754_zero false).
  unfold SF64mul, SFmul.
  destruct (Prim2SF d) as [s|s| |s md ed]; simpl; try reflexivity; try congruence.
  apply binary_round_aux_nonneg. lia.
Qed.

(** X16. For finite periods every spacing of [generate_thry_series] is
    a number [>= 0], whatever the order of the periods: the series has
    no sign and no NaN. *)
Theorem generate_thry_series_nonnegative (periods thr_series : list float) :
  Forall (fun p => is_finite p = true) periods ->
  generate_thry_series periods = Ok thr_series ->
  Forall (fun d => (0 <=? d)%float = true) thr_series.
Proof.
  intros Hfin H. destruct (generate_thry_series_spec periods) as [thr [Ht [Hl Hnth]]].
  assert (thr = thr_series) by congruence. subst thr.
  apply Forall_forall. intros d Hin. apply In_nth_error in Hin. destruct Hin as [i Hi].
  assert (Hlt : i < length thr_series) by (apply nth_error_Some; congruence).
  destruct (nth_error periods i) as [p|] eqn:Ep; [|apply nth_error_None in Ep; lia].
  destruct (nth_error periods (S i)) as [q|] eqn:Eq; [|apply nth_error_None in Eq; lia].
  rewrite (Hnth i p q Ep Eq) in Hi. assert (d = (abs (p - q) * 86400)%float) by congruence.
  subst d. apply spacing_nonneg. apply F64.sub_nonnan.
  - eapply (proj1 (Forall_forall _ _) Hfin). eapply nth_error_In; eauto.
  - eapply (proj1 (Forall_forall _ _) Hfin). eapply nth_error_In; eauto.
Qed.

Lemma generate_thry_series_nonnegative_witness :
  (Forall (fun p => is_finite p = true) [1.4; 1.2; 1.3]%float /\
   generate_thry_series [1.4; 1.2; 1.3]%float
   = Ok [(abs (1.4 - 1.2) * 86400)%float; (abs (1.2 - 1.3) * 86400)%float]) /\
  Forall (fun d => (0 <=? d)%float = true)
         [(abs (1.4 - 1.2) * 86400)%float; (abs (1.2 - 1.3) * 86400)%float].
Proof.
  assert (H1 : Forall (fun p => is_finite p = true) [1.4; 1.2; 1.3]%float)
    by (repeat constructor).
  assert (H2 : generate_thry_series [1.4; 1.2; 1.3]%float
               = Ok [(abs (1.4 - 1.2) * 86400)%float; (abs (1.2 - 1.3) * 86400)%float])
    by reflexivity.
  split; [split; [exact H1|exact H2]|].
  exact (@generate_thry_series_nonnegative _ _ H1 H2).
Defined.

(* ================================================================== *)
(** * Properties of the whole of [theoretical_pattern_from_dfrow] *)

(** X17. With [chisq_longest_sequence] and fewer theoretical than
    observed periods in a part, the engine hands back a Python list of
    [-1]: for periods it is taken as the part of the pattern, for
    frequencies [1/final_theoretical_periods] raises TypeError. *)
Theorem build_series_insufficient_theory (np_sum : list float -> float)
    (scalar_pow2 : float -> float)
    (orders : list Z) (pt : part) (inp : turn_inputs) :
  length (theo_periods inp) < length (ObsPeriod inp) ->
  build_series np_sum scalar_pow2 orders Frequency ChisqLongestSequence pt inp = Raise TypeError /\
  build_series np_sum scalar_pow2 orders Period ChisqLongestSequence pt inp
  = Ok (repeat (-1)%float (length (ObsPeriod inp))).
Proof.
  intros H. unfold build_series, chisq_longest_sequence.
  replace (length (theo_periods inp) <? length (ObsPeriod inp)) with true
    by (symmetry; apply Nat.ltb_lt; exact H).
  cbn [bind values]. split; [reflexivity|].
  now rewrite map_const_repeat, length_seq.
Qed.

Lemma build_series_insufficient_theory_witness :
  length (theo_periods (mkInputs [1.0; 2.0]%float [1.0; 0.5]%float [1.0; 0.5; 0.25]%float [0.1; 0.1; 0.1]%float 4%float))
  < length (ObsPeriod (mkInputs [1.0; 2.0]%float [1.0; 0.5]%float [1.0; 0.5; 0.25]%float [0.1; 0.1; 0.1]%float 4%float)) /\
  build_series np_sum_seq pow2 [-2; -1]%Z Frequency ChisqLongestSequence
    (mkPart [1.0; 2.0; 4.0]%float [0.1; 0.1; 0.1]%float None)
    (mkInputs [1.0; 2.0]%float [1.0; 0.5]%float [1.0; 0.5; 0.25]%float [0.1; 0.1; 0.1]%float 4%float)
  = Raise TypeError /\
  build_series np_sum_seq pow2 [-2; -1]%Z Period ChisqLongestSequence
    (mkPart [1.0; 2.0; 4.0]%float [0.1; 0.1; 0.1]%float None)
    (mkInputs [1.0; 2.0]%float [1.0; 0.5]%float [1.0; 0.5; 0.25]%float [0.1; 0.1; 0.1]%float 4%float)
  = Ok (repeat (-1)%float
          (length (ObsPeriod (mkInputs [1.0; 2.0]%float [1.0; 0.5]%float [1.0; 0.5; 0.25]%float [0.1; 0.1; 0.1]%float 4%float)))).
Proof.
  assert (H : length (theo_periods (mkInputs [1.0; 2.0]%float [1.0; 0.5]%float [1.0; 0.5; 0.25]%float [0.1; 0.1; 0.1]%float 4%float))
              < length (ObsPeriod (mkInputs [1.0; 2.0]%float [1.0; 0.5]%float [1.0; 0.5; 0.25]%float [0.1; 0.1; 0.1]%float 4%float)))
    by (simpl; lia).
  split; [exact H|].
  exact (@build_series_insufficient_theory np_sum_seq pow2 [-2; -1]%Z
           (mkPart [1.0; 2.0; 4.0]%float [0.1; 0.1; 0.1]%float None) _ H).
Defined.

(** ** The split of the observed pattern *)

Lemma nonzero_from_shift (mask : list bool) : forall i,
  Np.nonzero_from (S i) mask = map S (Np.nonzero_from i mask).
Proof.
  induction mask as [|b mask IH]; intros i; simpl; [reflexivity|].
  destruct b; simpl; now rewrite IH.
Qed.

Lemma adjust_shift_both (l : list nat) : forall k,
  map (fun im => snd im - fst im) (combine (seq (S k) (length (map S l))) (map S l))
  = map (fun im => snd im - fst im) (combine (seq k (length l)) l).
Proof.
  induction l as [|a l IH]; intros k; simpl; [reflexivity|].
  f_equal. apply IH.
Qed.

Lemma adjust_shift (mask : list bool) : forall j k, k <= j ->
  map (fun im => snd im - fst im)
      (combine (seq k (length (map S (Np.nonzero_from j mask))))
               (map S (Np.nonzero_from j mask)))
  = map S (map (fun im => snd im - fst im)
               (combine (seq k (length (Np.nonzero_from j mask)))
                        (Np.nonzero_from j mask))).
Proof.
  induction mask as [|b mask IH]; intros j k Hk; [reflexivity|].
  destruct b; cbn [Np.nonzero_from map length seq combine fst snd].
  - f_equal; [lia|]. apply IH. lia.
  - apply IH. lia.
Qed.

Lemma missing_puls_mark (x : float) (r : list float) :
  (x =? 0)%float = true -> missing_puls (x :: r) = 0 :: missing_puls r.
Proof.
  intros Hx. unfold missing_puls, Py.enumerate, Np.nonzero. simpl. rewrite Hx.
  simpl. f_equal. rewrite nonzero_from_shift. apply adjust_shift_both.
Qed.

Lemma missing_puls_value (x : float) (r : list float) :
  (x =? 0)%float = false -> missing_puls (x :: r) = map S (missing_puls r).
Proof.
  intros Hx. unfold missing_puls, Py.enumerate, Np.nonzero. simpl. rewrite Hx.
  rewrite nonzero_from_shift. apply adjust_shift. lia.
Qed.

Lemma length_slices {A : Type} (ary : list A) (ends : list nat) : forall st,
  length (slices ary st ends) = length ends.
Proof. induction ends as [|e ends IH]; intros st; simpl; [reflexivity|]. now rewrite IH. Qed.

Lemma length_np_split {A : Type} (ary : list A) (indices : list nat) :
  length (np_split ary indices) = S (length indices).
Proof. unfold np_split. rewrite length_slices, length_app. simpl. lia. Qed.

Lemma slices_shift {A : Type} (x : A) (ary : list A) (ends : list nat) : forall st,
  slices (x :: ary) (S st) (map S ends) = slices ary st ends.
Proof.
  induction ends as [|e ends IH]; intros st; simpl; [reflexivity|].
  now rewrite IH.
Qed.

Lemma np_split_mark {A : Type} (ary : list A) (indices : list nat) :
  np_split ary (0 :: indices) = [] :: np_split ary indices.
Proof. reflexivity. Qed.

Lemma np_split_value {A : Type} (x : A) (ary : list A) (indices : list nat) :
  exists p ps, np_split ary indices = p :: ps /\
               np_split (x :: ary) (map S indices) = (x :: p) :: ps.
Proof.
  unfold np_split. simpl length.
  replace (map S indices ++ [S (length ary)]) with (map S (indices ++ [length ary]))
    by (now rewrite map_app).
  destruct (indices ++ [length ary]) as [|e0 es] eqn:E.
  - destruct indices; discriminate.
  - exists (Py.slice ary 0 e0), (slices ary e0 es). split; [reflexivity|].
    simpl. now rewrite slices_shift.
Qed.

(** The parts of [Obs], read from its first entry on. *)
Lemma Obs_pattern_parts_nil : Obs_pattern_parts [] = [[]].
Proof. reflexivity. Qed.

Lemma Obs_pattern_parts_mark (x : float) (r : list float) :
  (x =? 0)%float = true -> Obs_pattern_parts (x :: r) = [] :: Obs_pattern_parts r.
Proof.
  intros Hx. unfold Obs_pattern_parts. rewrite (missing_puls_mark r Hx).
  simpl filter. rewrite Hx. simpl. apply np_split_mark.
Qed.

Lemma Obs_pattern_parts_value (x : float) (r : list float) :
  (x =? 0)%float = false ->
  exists p ps, Obs_pattern_parts r = p :: ps /\
               Obs_pattern_parts (x :: r) = (x :: p) :: ps.
Proof.
  intros Hx. unfold Obs_pattern_parts. rewrite (missing_puls_value r Hx).
  simpl filter. rewrite Hx. simpl. apply np_split_value.
Qed.

Lemma join0_value (x : float) (p : list float) (ps : list (list float)) :
  join0 ((x :: p) :: ps) = x :: join0 (p :: ps).
Proof. reflexivity. Qed.

Lemma join0_mark (p : list float) (ps : list (list float)) :
  join0 ([] :: p :: ps) = 0%float :: join0 (p :: ps).
Proof. reflexivity. Qed.

Lemma Obs_pattern_parts_cons (Obs : list float) :
  exists p ps, Obs_pattern_parts Obs = p :: ps.
Proof.
  pose proof (length_np_split (filter (fun o => negb (o =? 0)%float) Obs)
                              (missing_puls Obs)) as H.
  unfold Obs_pattern_parts. destruct (np_split _ _) as [|p ps]; [discriminate|]. eauto.
Qed.

(** The positions of the marks are lowered without going under 0: the
    mark number [i] stands at position [i] or later. *)
Lemma missing_puls_no_truncation (mask : list bool) : forall j k, k <= j ->
  Forall (fun im => fst im <= snd im)
         (combine (seq k (length (Np.nonzero_from j mask))) (Np.nonzero_from j mask)).
Proof.
  induction mask as [|b mask IH]; intros j k Hk; [constructor|].
  destruct b; cbn [Np.nonzero_from length seq combine].
  - constructor; [exact Hk|]. apply IH. lia.
  - apply IH. lia.
Qed.

(** X18. Cutting the observed pattern at its interruption marks loses
    nothing: the parts written one after the other with one [0] between
    them are the pattern again (a mark [-0.0] becomes [0.0]); there is
    one part more than there are marks, no part holds a mark, and the
    parts together are the observations that are not marks. *)
Theorem Obs_pattern_parts_round_trip (Obs : list float) :
  join0 (Obs_pattern_parts Obs)
  = map (fun o => if (o =? 0)%float then 0%float else o) Obs /\
  length (Obs_pattern_parts Obs) = S (length (filter (fun o => (o =? 0)%float) Obs)) /\
  concat (Obs_pattern_parts Obs) = filter (fun o => negb (o =? 0)%float) Obs /\
  Forall (Forall (fun o => (o =? 0)%float = false)) (Obs_pattern_parts Obs).
Proof.
  induction Obs as [|x r [IH1 [IH2 [IH3 IH4]]]].
  - rewrite Obs_pattern_parts_nil. simpl. repeat split; repeat constructor.
  - destruct (x =? 0)%float eqn:Hx.
    + rewrite (Obs_pattern_parts_mark r Hx).
      destruct (Obs_pattern_parts_cons r) as [p [ps E]]. rewrite E in *.
      simpl filter. rewrite Hx. cbn [map negb]. rewrite Hx.
      split; [rewrite join0_mark; now rewrite IH1|].
      split; [simpl; simpl in IH2; lia|].
      split; [exact IH3|]. constructor; [constructor|exact IH4].
    + destruct (Obs_pattern_parts_value r Hx) as [p [ps [E E']]].
      rewrite E'. rewrite E in *.
      simpl filter. rewrite Hx. cbn [map negb]. rewrite Hx.
      split; [rewrite join0_value; now rewrite IH1|].
      split; [simpl; simpl in IH2; lia|].
      split; [simpl; simpl in IH3; now rewrite IH3|].
      inversion IH4 as [|? ? Hp Hps]; subst.
      constructor; [constructor; assumption|exact Hps].
Qed.

Lemma parts_same_marks (A : list float) : forall B,
  map (fun o => (o =? 0)%float) B = map (fun o => (o =? 0)%float) A ->
  Forall2 (fun p e => length e = length p) (Obs_pattern_parts A) (Obs_pattern_parts B).
Proof.
  induction A as [|x r IH]; intros [|y s] HM; try discriminate.
  - rewrite Obs_pattern_parts_nil. repeat constructor.
  - simpl in HM. injection HM as Hy Hs. specialize (IH s Hs).
    destruct (x =? 0)%float eqn:Hx.
    + rewrite (Obs_pattern_parts_mark r Hx), (Obs_pattern_parts_mark s Hy).
      constructor; [reflexivity|exact IH].
    + destruct (Obs_pattern_parts_value r Hx) as [p [ps [E E']]].
      destruct (Obs_pattern_parts_value s Hy) as [q [qs [F F']]].
      rewrite E', F'. rewrite E, F in IH. inversion IH; subst.
      constructor; [simpl; congruence|assumption].
Qed.

(** X19. The errors are cut into as many parts as the observations.
    When [ObsErr] holds a zero exactly where [Obs] holds a mark, every
    part of the errors is as long as the part of the observations it is
    zipped with. *)
Theorem ObsErr_pattern_parts_aligned (Obs ObsErr : list float) :
  length (ObsErr_pattern_parts Obs ObsErr) = length (Obs_pattern_parts Obs) /\
  (map (fun e => (e =? 0)%float) ObsErr = map (fun o => (o =? 0)%float) Obs ->
   Forall2 (fun p e => length e = length p)
           (Obs_pattern_parts Obs) (ObsErr_pattern_parts Obs ObsErr)).
Proof.
  split.
  - unfold ObsErr_pattern_parts, Obs_pattern_parts. now rewrite !length_np_split.
  - intros HM.
    assert (E : ObsErr_pattern_parts Obs ObsErr = Obs_pattern_parts ObsErr).
    { unfold ObsErr_pattern_parts, Obs_pattern_parts, missing_puls. now rewrite HM. }
    rewrite E. now apply parts_same_marks.
Qed.

Lemma length_Obs_pattern_parts (Obs : list float) :
  length (Obs_pattern_parts Obs) = S (length (filter (fun o => (o =? 0)%float) Obs)).
Proof.
  unfold Obs_pattern_parts. rewrite length_np_split. f_equal.
  unfold missing_puls. rewrite length_map, length_enumerate.
  unfold Np.nonzero. generalize 0.
  induction Obs as [|x r IH]; intros k; [reflexivity|].
  simpl. destruct (x =? 0)%float; simpl; now rewrite IH.
Qed.

Lemma length_ObsErr_pattern_parts (Obs ObsErr : list float) :
  length (ObsErr_pattern_parts Obs ObsErr) = length (Obs_pattern_parts Obs).
Proof. unfold ObsErr_pattern_parts, Obs_pattern_parts. now rewrite !length_np_split. Qed.

(** X20. With [highest_amplitude] the call exits when the number of
    given pulsations is not the number of parts of the pattern, one more
    than the number of interruption marks, before any pattern is
    built. *)
Theorem highest_amplitude_needs_value_per_part (np_sum : list float -> float)
    (scalar_pow2 : float -> float)
    (summary_grid_row : grid_row) (Obs ObsErr : list float) (which : observable)
    (highest_amp_puls : list float) :
  length highest_amp_puls <> S (length (filter (fun o => (o =? 0)%float) Obs)) ->
  theoretical_pattern_from_dfrow np_sum scalar_pow2 summary_grid_row HighestAmplitude Obs ObsErr
                                 which highest_amp_puls
  = Raise SystemExit.
Proof.
  intros H. unfold theoretical_pattern_from_dfrow, checked_highest_amp_puls.
  rewrite length_Obs_pattern_parts.
  destruct (Nat.eqb_spec (S (length (filter (fun o => (o =? 0)%float) Obs)))
                         (length highest_amp_puls)) as [E|E]; [congruence|].
  reflexivity.
Qed.

Lemma highest_amplitude_needs_value_per_part_witness :
  length [1.1]%float <> S (length (filter (fun o => (o =? 0)%float) [1.0; 1.1; 0; 1.3]%float)) /\
  theoretical_pattern_from_dfrow np_sum_seq pow2
    (mkRow [3.0; 0.014; 0.5]%float [((-2)%Z, 1.0%float); ((-1)%Z, 2.0%float)])
    HighestAmplitude [1.0; 1.1; 0; 1.3]%float [0.01; 0.01; 0; 0.01]%float Period [1.1]%float
  = Raise SystemExit.
Proof.
  assert (H : length [1.1]%float
              <> S (length (filter (fun o => (o =? 0)%float) [1.0; 1.1; 0; 1.3]%float)))
    by (vm_compute; discriminate).
  split; [exact H|].
  exact (@highest_amplitude_needs_value_per_part np_sum_seq pow2
           (mkRow [3.0; 0.014; 0.5]%float [((-2)%Z, 1.0%float); ((-1)%Z, 2.0%float)])
           [1.0; 1.1; 0; 1.3]%float [0.01; 0.01; 0; 0.01]%float Period [1.1]%float H).
Defined.

(** ** A part without observation *)

Lemma raises_bind {A B : Type} (c : result A) (k : A -> result B) :
  raises c -> raises (bind c k).
Proof. intros [e ->]. exists e. reflexivity. Qed.

Lemma raises_not_Ok {A : Type} (c : result A) (a : A) : raises c -> c = Ok a -> False.
Proof. intros [e ->]. discriminate. Qed.

Lemma part_inputs_empty_raises (orders : list Z) (which : observable)
    (st : locals) (pt : part) :
  Obs_part pt = [] -> raises (part_inputs orders which st pt).
Proof.
  intros E. unfold part_inputs.
  set (st1 := if 0 <? length (ouput_pulsations st)
              then mkLocals (freqs st) (periods st) (ouput_pulsations st ++ [0%float])
              else st).
  destruct which.
  - destruct (remove_chosen_statement orders Frequency st1) as [st2|e];
      [|exists e; reflexivity].
    cbn [bind].
    destruct (Np.broadcast2 PrimFloat.div (ObsErr_part pt) (map pow2 (Obs_part pt)))
      as [x|e]; [|exists e; reflexivity].
    cbn [bind]. rewrite E. exists ValueError. reflexivity.
  - destruct (remove_chosen_statement orders Period st1) as [st2|e];
      [|exists e; reflexivity].
    cbn [bind]. rewrite E. exists ValueError. reflexivity.
  - exists SystemExit. reflexivity.
Qed.

Lemma part_step_empty_raises (np_sum : list float -> float)
    (scalar_pow2 : float -> float) (orders : list Z)
    (which : observable) (meth : method) (st : locals) (pt : part) :
  Obs_part pt = [] -> raises (part_step np_sum scalar_pow2 orders which meth st pt).
Proof.
  intros E. unfold part_step. apply raises_bind. now apply part_inputs_empty_raises.
Qed.

Lemma parts_loop_empty_raises (np_sum : list float -> float)
    (scalar_pow2 : float -> float) (orders : list Z)
    (which : observable) (meth : method) (parts : list part) :
  (exists pt, In pt parts /\ Obs_part pt = []) ->
  forall st, raises (parts_loop np_sum scalar_pow2 orders which meth st parts).
Proof.
  induction parts as [|pt0 parts IH]; intros [pt [Hin E]] st; [destruct Hin|].
  cbn [parts_loop].
  destruct (part_step np_sum scalar_pow2 orders which meth st pt0) as [st'|e] eqn:Hs;
    [|exists e; reflexivity].
  cbn [bind]. destruct Hin as [->|Hin].
  - exfalso. exact (raises_not_Ok (@part_step_empty_raises np_sum scalar_pow2 orders which meth st pt E) Hs).
  - apply IH. eauto.
Qed.

Lemma map_Obs_part_zip3 (a : list (list float)) : forall b c,
  length b = length a -> length c = length a -> map Obs_part (zip3 a b c) = a.
Proof.
  induction a as [|x a IH]; intros [|y b] [|z c] Hb Hc; try discriminate; [reflexivity|].
  simpl. f_equal. apply IH; simpl in *; lia.
Qed.

Lemma checked_highest_amp_puls_length (meth : method) (n : nat)
    (highest_amp_puls : list float) (c : list (option float)) :
  checked_highest_amp_puls meth n highest_amp_puls = Ok c -> length c = n.
Proof.
  unfold checked_highest_amp_puls.
  destruct (Nat.eqb_spec n (length highest_amp_puls)) as [E|E]; cbn [negb].
  - intros H. assert (c = map Some highest_amp_puls) by congruence. subst.
    now rewrite length_map.
  - destruct meth; try discriminate; intros H;
      (assert (c = repeat None n) by congruence); subst; apply repeat_length.
Qed.

Lemma empty_part_In (Obs : list float) :
  empty_part Obs -> In [] (Obs_pattern_parts Obs).
Proof.
  intros [pre [z [post [-> [Hz Hcase]]]]].
  assert (Htl : forall l, In [] (tl (Obs_pattern_parts l)) ->
                forall pre', In [] (tl (Obs_pattern_parts (pre' ++ l)))).
  { intros l Hl pre'. induction pre' as [|x pre' IH]; [exact Hl|].
    simpl app. destruct (x =? 0)%float eqn:Hx.
    - rewrite (Obs_pattern_parts_mark _ Hx). simpl.
      destruct (Obs_pattern_parts_cons (pre' ++ l)) as [p [ps E]].
      rewrite E in *. now right.
    - destruct (Obs_pattern_parts_value (pre' ++ l) Hx) as [p [ps [E E']]].
      rewrite E'. rewrite E in IH. exact IH. }
  destruct pre as [|x pre].
  - simpl app. rewrite (Obs_pattern_parts_mark post Hz). now left.
  - assert (Hpost : In [] (Obs_pattern_parts post)).
    { destruct Hcase as [Hp|[->|[z' [post' [-> Hz']]]]]; [discriminate| |].
      - rewrite Obs_pattern_parts_nil. now left.
      - rewrite (Obs_pattern_parts_mark post' Hz'). now left. }
    assert (H : In [] (tl (Obs_pattern_parts ((x :: pre) ++ z :: post)))).
    { apply Htl. rewrite (Obs_pattern_parts_mark post Hz). exact Hpost. }
    destruct (Obs_pattern_parts ((x :: pre) ++ z :: post)); [destruct H|now right].
Qed.

(** X21. An observed pattern that starts or ends with an interruption
    mark, or holds two marks in a row, has a part without observation:
    no row is returned for it, with any method and any observable. *)
Theorem empty_part_raises (np_sum : list float -> float)
    (scalar_pow2 : float -> float)
    (summary_grid_row : grid_row) (meth : method) (Obs ObsErr : list float)
    (which : observable) (highest_amp_puls : list float) :
  empty_part Obs ->
  raises (theoretical_pattern_from_dfrow np_sum scalar_pow2 summary_grid_row meth Obs ObsErr
                                         which highest_amp_puls).
Proof.
  intros He. apply empty_part_In in He. unfold theoretical_pattern_from_dfrow.
  destruct (checked_highest_amp_puls meth (length (Obs_pattern_parts Obs))
                                     highest_amp_puls) as [c|e] eqn:Hc;
    [|exists e; reflexivity].
  cbn [bind]. apply raises_bind. unfold pattern_of_model. apply raises_bind.
  apply parts_loop_empty_raises.
  apply checked_highest_amp_puls_length in Hc.
  pose proof (@map_Obs_part_zip3 (Obs_pattern_parts Obs)
                (ObsErr_pattern_parts Obs ObsErr) c
                (length_ObsErr_pattern_parts Obs ObsErr) Hc) as Hz.
  rewrite <- Hz in He. apply in_map_iff in He. destruct He as [pt [E Hin]]. eauto.
Qed.

Lemma empty_part_raises_witness :
  empty_part [1.0; 0; 0; 1.3]%float /\
  raises (theoretical_pattern_from_dfrow np_sum_seq pow2
            (mkRow [3.0; 0.014; 0.5]%float [((-2)%Z, 1.0%float); ((-1)%Z, 2.0%float)])
            HighestFrequency [1.0; 0; 0; 1.3]%float [0.01; 0; 0; 0.01]%float Period []).
Proof.
  assert (H : empty_part [1.0; 0; 0; 1.3]%float).
  { exists [1.0%float], 0%float, [0; 1.3]%float. split; [reflexivity|].
    split; [reflexivity|]. right. right. exists 0%float, [1.3%float].
    split; reflexivity. }
  split; [exact H|].
  exact (@empty_part_raises np_sum_seq pow2
           (mkRow [3.0; 0.014; 0.5]%float [((-2)%Z, 1.0%float); ((-1)%Z, 2.0%float)])
           HighestFrequency [1.0; 0; 0; 1.3]%float [0.01; 0; 0; 0.01]%float Period [] H).
Defined.

(** ** The row that is returned *)

Lemma part_inputs_Ok (orders : list Z) (which : observable)
    (st st' : locals) (pt : part) (inp : turn_inputs) :
  part_inputs orders which st pt = Ok (st', inp) ->
  Obs_part pt <> [] /\
  length (ObsPeriod inp) = length (Obs_part pt) /\
  ouput_pulsations st'
  = (if 0 <? length (ouput_pulsations st)
     then ouput_pulsations st ++ [0%float] else ouput_pulsations st).
Proof.
  intros H. split.
  { intros E. exact (raises_not_Ok (@part_inputs_empty_raises orders which st pt E) H). }
  unfold part_inputs in H.
  set (st1 := if 0 <? length (ouput_pulsations st)
              then mkLocals (freqs st) (periods st) (ouput_pulsations st ++ [0%float])
              else st) in H.
  assert (H1 : ouput_pulsations st1
               = (if 0 <? length (ouput_pulsations st)
                  then ouput_pulsations st ++ [0%float] else ouput_pulsations st)).
  { unfold st1. destruct (0 <? length (ouput_pulsations st)); reflexivity. }
  rewrite <- H1. clearbody st1.
  destruct which; [| |discriminate].
  - bind_inv H as st2 Hrm.
    apply remove_chosen_statement_frame in Hrm. subst st2.
    bind_inv H as err _. bind_inv H as hi _.
    assert (E1 : st' = st1) by congruence.
    assert (E2 : ObsPeriod inp = map (fun o => (1 / o)%float) (Obs_part pt))
      by (apply (f_equal (fun r => match r with
                                   | Ok x => ObsPeriod (snd x)
                                   | Raise _ => []
                                   end)) in H; symmetry; exact H).
    rewrite E2, length_map, E1. auto.
  - bind_inv H as st2 Hrm.
    apply remove_chosen_statement_frame in Hrm. subst st2.
    bind_inv H as hi _.
    assert (E1 : st' = st1) by congruence.
    assert (E2 : ObsPeriod inp = Obs_part pt)
      by (apply (f_equal (fun r => match r with
                                   | Ok x => ObsPeriod (snd x)
                                   | Raise _ => []
                                   end)) in H; symmetry; exact H).
    rewrite E2, E1. auto.
Qed.

Lemma puls_series_from_given_puls_length (TheoIn Obs : list float)
    (v : option float) (s : list float) :
  puls_series_from_given_puls TheoIn Obs v = Ok s -> length s = length Obs.
Proof.
  destruct v as [v|]; [|discriminate]. intros H.
  destruct (@puls_series_from_given_puls_inv _ _ _ _ H) as [n [m [i [_ [_ [_ [Hl _]]]]]]].
  exact Hl.
Qed.

Lemma build_series_length (np_sum : list float -> float)
    (scalar_pow2 : float -> float) (orders : list Z)
    (which : observable) (meth : method) (pt : part) (inp : turn_inputs)
    (sel : list float) :
  length (ObsPeriod inp) = length (Obs_part pt) ->
  build_series np_sum scalar_pow2 orders which meth pt inp = Ok sel ->
  length sel = length (Obs_part pt).
Proof.
  intros HL H. unfold build_series in H. destruct meth.
  - exact (puls_series_from_given_puls_length _ _ _ H).
  - exact (puls_series_from_given_puls_length _ _ _ H).
  - bind_inv H as [[c fp] os] Hc.
    destruct (chisq_longest_sequence_lengths _ _ _ _ _ _ Hc) as [L _].
    rewrite HL in L. destruct which.
    + destruct fp as [l|a]; [discriminate|].
      assert (sel = map (fun p => (1 / p)%float) a) by congruence. subst sel.
      now rewrite length_map.
    + assert (sel = values fp) by congruence. now subst sel.
    + assert (sel = values fp) by congruence. now subst sel.
  - discriminate.
Qed.

Lemma part_step_output (np_sum : list float -> float)
    (scalar_pow2 : float -> float) (orders : list Z)
    (which : observable) (meth : method) (st st' : locals) (pt : part) :
  part_step np_sum scalar_pow2 orders which meth st pt = Ok st' ->
  exists sel,
    sel <> [] /\ length sel = length (Obs_part pt) /\
    ouput_pulsations st'
    = (if 0 <? length (ouput_pulsations st)
       then ouput_pulsations st ++ [0%float] else ouput_pulsations st) ++ sel.
Proof.
  unfold part_step. intros H. bind_inv H as [st1 inp] Hin.
  destruct (part_inputs_Ok _ _ _ _ Hin) as [Hne [HL Hout]].
  bind_inv H as sel Hsel.
  pose proof (build_series_length _ _ _ _ _ _ _ HL Hsel) as Hlen.
  exists sel. split; [|split; [exact Hlen|]].
  - intros ->. destruct (Obs_part pt); [congruence|discriminate].
  - apply (f_equal (fun r => match r with
                             | Ok x => ouput_pulsations x
                             | Raise _ => []
                             end)) in H.
    cbn [ouput_pulsations] in H. rewrite <- H, Hout. reflexivity.
Qed.

Lemma join_after (outs : list (list float)) : forall acc,
  acc <> [] ->
  fold_left (fun acc sel => (if 0 <? length acc then acc ++ [0%float] else acc) ++ sel)
            outs acc
  = acc ++ concat (map (cons 0%float) outs).
Proof.
  induction outs as [|o outs IH]; intros acc Hne; simpl.
  - now rewrite app_nil_r.
  - destruct acc as [|a acc]; [congruence|]. cbn [length Nat.ltb Nat.leb].
    rewrite IH by discriminate. now rewrite <- !app_assoc.
Qed.

Lemma join_from_empty (outs : list (list float)) :
  Forall (fun sel => sel <> []) outs ->
  fold_left (fun acc sel => (if 0 <? length acc then acc ++ [0%float] else acc) ++ sel)
            outs []
  = join0 outs.
Proof.
  intros H. destruct outs as [|o outs]; [reflexivity|].
  inversion H; subst. simpl. now apply join_after.
Qed.

Lemma parts_loop_output (np_sum : list float -> float)
    (scalar_pow2 : float -> float) (orders : list Z)
    (which : observable) (meth : method) (parts : list part) :
  forall st st',
    parts_loop np_sum scalar_pow2 orders which meth st parts = Ok st' ->
    exists outs,
      Forall2 (fun sel p => length sel = length p) outs (map Obs_part parts) /\
      Forall (fun sel => sel <> []) outs /\
      ouput_pulsations st'
      = fold_left (fun acc sel =>
                     (if 0 <? length acc then acc ++ [0%float] else acc) ++ sel)
                  outs (ouput_pulsations st).
Proof.
  induction parts as [|pt parts IH]; intros st st' H; cbn [parts_loop] in H.
  - exists []. split; [constructor|]. split; [constructor|].
    assert (st' = st) by congruence. now subst.
  - bind_inv H as st1 Hs.
    destruct (part_step_output _ _ _ _ _ _ _ Hs) as [sel [Hne [Hl Ho]]].
    destruct (IH _ _ H) as [outs [HF [HN Hout]]].
    exists (sel :: outs). split; [constructor; assumption|].
    split; [constructor; assumption|].
    cbn [fold_left]. rewrite <- Ho. exact Hout.
Qed.

Lemma join0_marks (Obs : list float) : forall outs,
  Forall2 (fun sel p => length sel = length p) outs (Obs_pattern_parts Obs) ->
  length (join0 outs) = length Obs /\
  forall i o, nth_error Obs i = Some o -> (o =? 0)%float = true ->
              nth_error (join0 outs) i = Some 0%float.
Proof.
  induction Obs as [|x r IH]; intros outs HF.
  - rewrite Obs_pattern_parts_nil in HF.
    inversion HF as [|o1 p1 os ps H1 H2]; subst. inversion H2; subst.
    destruct o1; [|discriminate]. split; [reflexivity|].
    intros [|i] o Hi; discriminate.
  - destruct (x =? 0)%float eqn:Hx.
    + rewrite (Obs_pattern_parts_mark r Hx) in HF.
      inversion HF as [|o1 p1 os ps H1 H2]; subst.
      destruct o1; [|discriminate].
      destruct (IH os H2) as [IL IN].
      destruct (Obs_pattern_parts_cons r) as [p [ps' E]]. rewrite E in H2.
      inversion H2; subst. rewrite join0_mark.
      split; [simpl; simpl in IL; lia|].
      intros [|i] o Hi Ho; [reflexivity|]. simpl. now apply (IN i o).
    + destruct (Obs_pattern_parts_value r Hx) as [p [ps [E E']]].
      rewrite E' in HF. inversion HF as [|o1 p1 os ps' H1 H2]; subst.
      destruct o1 as [|y o1]; [discriminate|].
      assert (HF' : Forall2 (fun sel p => length sel = length p) (o1 :: os)
                            (Obs_pattern_parts r)).
      { rewrite E. constructor; [simpl in H1; lia|exact H2]. }
      destruct (IH _ HF') as [IL IN]. rewrite join0_value.
      split; [simpl; simpl in IL; lia|].
      intros [|i] o Hi Ho.
      * simpl in Hi. assert (o = x) by congruence. subst. congruence.
      * simpl. now apply (IN i o).
Qed.

(** X22. The row [theoretical_pattern_from_dfrow] returns starts with
    the parameters of the model up to [Xc], then holds one entry per
    entry of [Obs], with [0] at every position where [Obs] has an
    interruption mark: the columns of the row line up with the observed
    pattern, for every method and observable. *)
Theorem theoretical_pattern_row_shape (np_sum : list float -> float)
    (scalar_pow2 : float -> float)
    (summary_grid_row : grid_row) (meth : method) (Obs ObsErr : list float)
    (which : observable) (highest_amp_puls : list float) (list_out : list float) :
  theoretical_pattern_from_dfrow np_sum scalar_pow2 summary_grid_row meth Obs ObsErr
                                 which highest_amp_puls = Ok list_out ->
  firstn (length (parameters_to_Xc summary_grid_row)) list_out
  = parameters_to_Xc summary_grid_row /\
  length list_out = length (parameters_to_Xc summary_grid_row) + length Obs /\
  forall i o, nth_error Obs i = Some o -> (o =? 0)%float = true ->
    nth_error list_out (length (parameters_to_Xc summary_grid_row) + i) = Some 0%float.
Proof.
  unfold theoretical_pattern_from_dfrow. intros H.
  bind_inv H as c Hc. bind_inv H as out Hout.
  assert (list_out = parameters_to_Xc summary_grid_row ++ out) by congruence.
  subst list_out. clear H.
  unfold pattern_of_model in Hout. bind_inv Hout as st Hloop.
  assert (out = ouput_pulsations st) by congruence. subst out. clear Hout.
  destruct (parts_loop_output _ _ _ _ _ _ _ Hloop) as [outs [HF [HN Ho]]].
  cbn [ouput_pulsations] in Ho. rewrite (join_from_empty HN) in Ho.
  apply checked_highest_amp_puls_length in Hc.
  rewrite (@map_Obs_part_zip3 (Obs_pattern_parts Obs)
             (ObsErr_pattern_parts Obs ObsErr) c
             (length_ObsErr_pattern_parts Obs ObsErr) Hc) in HF.
  destruct (join0_marks Obs HF) as [HL HM]. rewrite Ho.
  split; [|split].
  - rewrite firstn_app, Nat.sub_diag, firstn_all. simpl. apply app_nil_r.
  - rewrite length_app. lia.
  - intros i o Hi Hz. rewrite nth_error_app2 by lia.
    replace (length (parameters_to_Xc summary_grid_row) + i
             - length (parameters_to_Xc summary_grid_row)) with i by lia.
    now apply (HM i o).
Qed.

Lemma theoretical_pattern_row_shape_witness :
  theoretical_pattern_from_dfrow np_sum_seq pow2
    (mkRow [3.0; 0.014; 0.5]%float
           [((-5)%Z, 1.0%float); ((-4)%Z, 0.5%float); ((-3)%Z, 0.25%float);
            ((-2)%Z, 0.125%float); ((-1)%Z, nan)])
    HighestFrequency [2.0; 4.0; 0; 8.0]%float [0.01; 0.01; 0; 0.01]%float Period []
  = Ok [3.0; 0.014; 0.5; 2.0; 4.0; 0; 8.0]%float /\
  firstn (length [3.0; 0.014; 0.5]%float) [3.0; 0.014; 0.5; 2.0; 4.0; 0; 8.0]%float
  = [3.0; 0.014; 0.5]%float /\
  length [3.0; 0.014; 0.5; 2.0; 4.0; 0; 8.0]%float
  = length [3.0; 0.014; 0.5]%float + length [2.0; 4.0; 0; 8.0]%float /\
  forall i o, nth_error [2.0; 4.0; 0; 8.0]%float i = Some o -> (o =? 0)%float = true ->
    nth_error [3.0; 0.014; 0.5; 2.0; 4.0; 0; 8.0]%float
              (length [3.0; 0.014; 0.5]%float + i) = Some 0%float.
Proof.
  assert (H : theoretical_pattern_from_dfrow np_sum_seq pow2
    (mkRow [3.0; 0.014; 0.5]%float
           [((-5)%Z, 1.0%float); ((-4)%Z, 0.5%float); ((-3)%Z, 0.25%float);
            ((-2)%Z, 0.125%float); ((-1)%Z, nan)])
    HighestFrequency [2.0; 4.0; 0; 8.0]%float [0.01; 0.01; 0; 0.01]%float Period []
  = Ok [3.0; 0.014; 0.5; 2.0; 4.0; 0; 8.0]%float) by (vm_compute; reflexivity).
  split; [exact H|].
  exact (@theoretical_pattern_row_shape np_sum_seq pow2
           (mkRow [3.0; 0.014; 0.5]%float
                  [((-5)%Z, 1.0%float); ((-4)%Z, 0.5%float); ((-3)%Z, 0.25%float);
                   ((-2)%Z, 0.125%float); ((-1)%Z, nan)])
           HighestFrequency [2.0; 4.0; 0; 8.0]%float [0.01; 0.01; 0; 0.01]%float Period []
           [3.0; 0.014; 0.5; 2.0; 4.0; 0; 8.0]%float H).
Defined.

(** ** The values of [highest_amp_puls] *)

Lemma part_step_same_arrays (np_sum : list float -> float)
    (scalar_pow2 : float -> float) (orders : list Z)
    (which : observable) (meth : method) (st : locals)
    (Obs_p ObsErr_p : list float) (h1 h2 : option float) :
  meth <> HighestAmplitude ->
  part_step np_sum scalar_pow2 orders which meth st (mkPart Obs_p ObsErr_p h1)
  = part_step np_sum scalar_pow2 orders which meth st (mkPart Obs_p ObsErr_p h2).
Proof.
  intros Hm. unfold part_step, part_inputs, build_series.
  destruct meth; [congruence|reflexivity|reflexivity|reflexivity].
Qed.

Lemma parts_loop_same_arrays (np_sum : list float -> float)
    (scalar_pow2 : float -> float) (orders : list Z)
    (which : observable) (meth : method) (a : list (list float)) :
  meth <> HighestAmplitude ->
  forall b c1 c2 st, length c1 = length c2 ->
    parts_loop np_sum scalar_pow2 orders which meth st (zip3 a b c1)
    = parts_loop np_sum scalar_pow2 orders which meth st (zip3 a b c2).
Proof.
  intros Hm. induction a as [|x a IH]; intros b c1 c2 st Hl; [reflexivity|].
  destruct b as [|y b]; [reflexivity|].
  destruct c1 as [|h1 c1], c2 as [|h2 c2]; try discriminate; [reflexivity|].
  cbn [zip3 parts_loop].
  rewrite (@part_step_same_arrays np_sum scalar_pow2 orders which meth st x y h1 h2 Hm).
  destruct (part_step np_sum scalar_pow2 orders which meth st (mkPart x y h2)) as [st'|e];
    [|reflexivity].
  cbn [bind]. apply IH. simpl in Hl. lia.
Qed.

(** X23. With a method other than [highest_amplitude] the argument
    [highest_amp_puls] is not looked at beyond its length, and its
    length changes nothing: any two values give the same row or the same
    exception. *)
Theorem highest_amp_puls_unused (np_sum : list float -> float)
    (scalar_pow2 : float -> float)
    (summary_grid_row : grid_row) (meth : method) (Obs ObsErr : list float)
    (which : observable) (highest_amp_puls highest_amp_puls' : list float) :
  meth <> HighestAmplitude ->
  theoretical_pattern_from_dfrow np_sum scalar_pow2 summary_grid_row meth Obs ObsErr
                                 which highest_amp_puls
  = theoretical_pattern_from_dfrow np_sum scalar_pow2 summary_grid_row meth Obs ObsErr
                                   which highest_amp_puls'.
Proof.
  intros Hm. unfold theoretical_pattern_from_dfrow.
  assert (Hc : forall hap, exists c,
            checked_highest_amp_puls meth (length (Obs_pattern_parts Obs)) hap = Ok c).
  { intros hap. unfold checked_highest_amp_puls.
    destruct (negb _); [|eauto]. destruct meth; [congruence|eauto ..]. }
  destruct (Hc highest_amp_puls) as [c1 H1]. destruct (Hc highest_amp_puls') as [c2 H2].
  rewrite H1, H2. cbn [bind]. unfold pattern_of_model.
  rewrite (@parts_loop_same_arrays np_sum scalar_pow2
             (map fst (filter (fun c => negb (is_nan (snd c)))
                              (n_pg_columns summary_grid_row)))
             which meth (Obs_pattern_parts Obs) Hm
             (ObsErr_pattern_parts Obs ObsErr) c1 c2); [reflexivity|].
  apply checked_highest_amp_puls_length in H1, H2. congruence.
Qed.

Lemma highest_amp_puls_unused_witness :
  HighestFrequency <> HighestAmplitude /\
  theoretical_pattern_from_dfrow np_sum_seq pow2
    (mkRow [3.0; 0.014; 0.5]%float
           [((-5)%Z, 1.0%float); ((-4)%Z, 0.5%float); ((-3)%Z, 0.25%float);
            ((-2)%Z, 0.125%float); ((-1)%Z, nan)])
    HighestFrequency [2.0; 4.0; 0; 8.0]%float [0.01; 0.01; 0; 0.01]%float Period []
  = theoretical_pattern_from_dfrow np_sum_seq pow2
      (mkRow [3.0; 0.014; 0.5]%float
             [((-5)%Z, 1.0%float); ((-4)%Z, 0.5%float); ((-3)%Z, 0.25%float);
              ((-2)%Z, 0.125%float); ((-1)%Z, nan)])
      HighestFrequency [2.0; 4.0; 0; 8.0]%float [0.01; 0.01; 0; 0.01]%float Period
      [4.0; 8.0]%float.
Proof.
  assert (H : HighestFrequency <> HighestAmplitude) by discriminate.
  split; [exact H|].
  exact (@highest_amp_puls_unused np_sum_seq pow2
           (mkRow [3.0; 0.014; 0.5]%float
                  [((-5)%Z, 1.0%float); ((-4)%Z, 0.5%float); ((-3)%Z, 0.25%float);
                   ((-2)%Z, 0.125%float); ((-1)%Z, nan)])
           HighestFrequency [2.0; 4.0; 0; 8.0]%float [0.01; 0.01; 0; 0.01]%float Period
           [] [4.0; 8.0]%float H).
Defined.

(* ================================================================== *)
(** * The function on the store *)

(** ** Addresses and objects *)

Lemma nth_error_app_base (s t : store) (r : ref) (o : object) :
  nth_error s r = Some o -> nth_error (s ++ t) r = Some o.
Proof.
  intros H. rewrite nth_error_app1; [exact H|].
  apply nth_error_Some. congruence.
Qed.

Arguments nth_error_app_base {s} t {r o} _.

Lemma nth_error_app_local (s t : store) (k : nat) :
  nth_error (s ++ t) (length s + k) = nth_error t k.
Proof. rewrite nth_error_app2 by lia. f_equal. lia. Qed.

Lemma update_app_local (s t : store) (k : nat) (o : object) :
  update (s ++ t) (length s + k) o = s ++ update t k o.
Proof. induction s as [|a s IH]; cbn; [reflexivity | f_equal; exact IH]. Qed.

Lemma holds_arrays_app (s t : store) (tperiods orders operiods operiods_errors : ref)
    (tp : list float) (ords : list Z) (op oe : list float) :
  holds_arrays s tperiods orders operiods operiods_errors tp ords op oe ->
  holds_arrays (s ++ t) tperiods orders operiods operiods_errors tp ords op oe.
Proof.
  intros (H1 & H2 & H3 & H4).
  repeat split; apply nth_error_app_base; assumption.
Qed.

(** ** Statements *)

Lemma bindM_ok (A B : Type) (m : M A) (k : A -> M B) (s s' : store) (a : A) :
  m s = (Ok a, s') -> bindM m k s = k a s'.
Proof. intros H. unfold bindM. rewrite H. reflexivity. Qed.

Arguments bindM_ok {A B m} k {s s' a} _.

Lemma bindM_raise (A B : Type) (m : M A) (k : A -> M B) (s s' : store) (e : exn) :
  m s = (Raise e, s') -> bindM m k s = (Raise e, s').
Proof. intros H. unfold bindM. rewrite H. reflexivity. Qed.

Arguments bindM_raise {A B m} k {s s' e} _.

Lemma new_eq (o : object) (s : store) : new o s = (Ok (length s), s ++ [o]).
Proof. reflexivity. Qed.

Lemma float_array_eq (s : store) (r : ref) (a : list float) :
  nth_error s r = Some (FloatArray a) -> float_array r s = (Ok a, s).
Proof. intros H. unfold float_array, bindM, deref. rewrite H. reflexivity. Qed.

Arguments float_array_eq {s r a} _.

Lemma int_array_eq (s : store) (r : ref) (a : list Z) :
  nth_error s r = Some (IntArray a) -> int_array r s = (Ok a, s).
Proof. intros H. unfold int_array, bindM, deref. rewrite H. reflexivity. Qed.

Arguments int_array_eq {s r a} _.

Lemma row_array_eq (s : store) (r : ref) (a : list pair) :
  nth_error s r = Some (RowArray a) -> row_array r s = (Ok a, s).
Proof. intros H. unfold row_array, bindM, deref. rewrite H. reflexivity. Qed.

Arguments row_array_eq {s r a} _.

Lemma float_list_eq (s : store) (r : ref) (l : list float) :
  nth_error s r = Some (FloatList l) -> float_list r s = (Ok l, s).
Proof. intros H. unfold float_list, bindM, deref. rewrite H. reflexivity. Qed.

Arguments float_list_eq {s r l} _.

Lemma int_list_eq (s : store) (r : ref) (l : list Z) :
  nth_error s r = Some (IntList l) -> int_list r s = (Ok l, s).
Proof. intros H. unfold int_list, bindM, deref. rewrite H. reflexivity. Qed.

Arguments int_list_eq {s r l} _.

Lemma row_list_eq (s : store) (r : ref) (l : list pair) :
  nth_error s r = Some (RowList l) -> row_list r s = (Ok l, s).
Proof. intros H. unfold row_list, bindM, deref. rewrite H. reflexivity. Qed.

Arguments row_list_eq {s r l} _.

Lemma run_list_eq (s : store) (r : ref) (l : list (list pair)) :
  nth_error s r = Some (RunList l) -> run_list r s = (Ok l, s).
Proof. intros H. unfold run_list, bindM, deref. rewrite H. reflexivity. Qed.

Arguments run_list_eq {s r l} _.

Lemma append_float_eq (s : store) (r : ref) (l : list float) (x : float) :
  nth_error s r = Some (FloatList l) ->
  append_float r x s = (Ok tt, update s r (FloatList (l ++ [x]))).
Proof. intros H. unfold append_float. rewrite (bindM_ok _ (float_list_eq H)). reflexivity. Qed.

Arguments append_float_eq {s r l} x _.

Lemma append_int_eq (s : store) (r : ref) (l : list Z) (x : Z) :
  nth_error s r = Some (IntList l) ->
  append_int r x s = (Ok tt, update s r (IntList (l ++ [x]))).
Proof. intros H. unfold append_int. rewrite (bindM_ok _ (int_list_eq H)). reflexivity. Qed.

Arguments append_int_eq {s r l} x _.

Lemma append_row_eq (s : store) (r : ref) (l : list pair) (x : pair) :
  nth_error s r = Some (RowList l) ->
  append_row r x s = (Ok tt, update s r (RowList (l ++ [x]))).
Proof. intros H. unfold append_row. rewrite (bindM_ok _ (row_list_eq H)). reflexivity. Qed.

Arguments append_row_eq {s r l} x _.

Lemma append_run_eq (s : store) (r : ref) (l : list (list pair)) (x : list pair) :
  nth_error s r = Some (RunList l) ->
  append_run r x s = (Ok tt, update s r (RunList (l ++ [x]))).
Proof. intros H. unfold append_run. rewrite (bindM_ok _ (run_list_eq H)). reflexivity. Qed.

Arguments append_run_eq {s r l} x _.

(** ** Composition *)

Lemma runs_as_bind (A A' B B' : Type) (m : M A) (k : A -> M A') (c : result B)
    (k' : B -> result B') (s : store)
    (post : B -> A -> store -> Prop) (post' : B' -> A' -> store -> Prop) :
  runs_as m s c post ->
  (forall b a t, post b a (s ++ t) -> runs_as (k a) (s ++ t) (k' b) post') ->
  runs_as (bindM m k) s (bind c k') post'.
Proof.
  intros [t H] Hk. destruct c as [b|e]; cbn [bind].
  - destruct H as (a & Hm & Hp). destruct (Hk b a t Hp) as [t' H'].
    exists (t ++ t'). rewrite (bindM_ok _ Hm). rewrite app_assoc. exact H'.
  - exists t. rewrite (bindM_raise _ H). reflexivity.
Qed.

Lemma runs_as_ret (A B : Type) (a : A) (b : B) (s : store)
    (post : B -> A -> store -> Prop) :
  post b a s -> runs_as (ret a) s (Ok b) post.
Proof. intros H. exists []. rewrite app_nil_r. exists a. split; [reflexivity | exact H]. Qed.

Lemma runs_as_lift (A : Type) (c : result A) (s : store) :
  runs_as (lift c) s c (fun b a _ => a = b).
Proof.
  exists []. rewrite app_nil_r. destruct c as [a|e]; [|reflexivity].
  exists a. split; reflexivity.
Qed.

Lemma bind_assoc (A B C : Type) (c : result A) (f : A -> result B) (g : B -> result C) :
  bind (bind c f) g = bind c (fun a => bind (f a) g).
Proof. destruct c; reflexivity. Qed.

(** ** Loops *)

(** A loop whose turns go as the expression [g] says fills its lists
    as [mapM g] says. *)
Lemma forM_run (A B T : Type) (body : A -> M unit) (g : A -> result B)
    (shape : T -> store) (step : T -> B -> T) :
  (forall a t, exists t',
      body a (shape t) = (match g a with Ok _ => Ok tt | Raise e => Raise e end, shape t')
      /\ forall b, g a = Ok b -> t' = step t b) ->
  forall items t, exists t',
    forM body items (shape t)
    = (match mapM g items with Ok _ => Ok tt | Raise e => Raise e end, shape t')
    /\ forall ys, mapM g items = Ok ys -> t' = fold_left step ys t.
Proof.
  intros Hb items. induction items as [|a items IH]; intros t.
  - exists t. split; [reflexivity|]. intros ys Hys. cbn in Hys.
    apply (f_equal (fun r => match r with Ok l => l | Raise _ => [] end)) in Hys.
    subst ys. reflexivity.
  - destruct (Hb a t) as (t1 & E1 & F1). cbn [forM mapM].
    destruct (g a) as [b|e] eqn:G; cbn [bind].
    + rewrite (bindM_ok _ E1). destruct (IH t1) as (t2 & E2 & F2).
      exists t2. rewrite E2. split.
      * destruct (mapM g items); reflexivity.
      * intros ys Hys. destruct (mapM g items) as [bs|e]; [|discriminate].
        cbn [bind] in Hys.
        apply (f_equal (fun r => match r with Ok l => l | Raise _ => [] end)) in Hys.
        subst ys. cbn [fold_left]. rewrite <- (F1 b eq_refl). apply F2. reflexivity.
    + exists t1. rewrite (bindM_raise _ E1). split; [reflexivity | discriminate].
Qed.

Lemma fold_left_snoc (A : Type) (ys acc : list A) :
  fold_left (fun acc b => acc ++ [b]) ys acc = acc ++ ys.
Proof.
  revert acc. induction ys as [|y ys IH]; intros acc; cbn.
  - now rewrite app_nil_r.
  - rewrite IH, <- app_assoc. reflexivity.
Qed.

Lemma fold_left_snoc2 (A B : Type) (ys : list (A * B)) (a : list A) (b : list B) :
  fold_left (fun t y => (fst t ++ [fst y], snd t ++ [snd y])) ys (a, b)
  = (a ++ map fst ys, b ++ map snd ys).
Proof.
  revert a b. induction ys as [|y ys IH]; intros a b; cbn.
  - now rewrite !app_nil_r.
  - rewrite IH, <- !app_assoc. reflexivity.
Qed.

(** Reading the item of each turn at its turn gives the items
    [enumerate] pairs with the positions. *)
Lemma mapM_seq_getitem (A B : Type) (h : nat -> A -> result B) (l pre post : list A) :
  mapM (fun ii => x <- Py.getitem (pre ++ l ++ post) ii ;; h ii x)
       (seq (length pre) (length l))
  = mapM (fun ip => h (fst ip) (snd ip)) (combine (seq (length pre) (length l)) l).
Proof.
  revert pre. induction l as [|a l IH]; intros pre; [reflexivity|].
  cbn [length seq combine mapM fst snd].
  replace (Py.getitem (pre ++ (a :: l) ++ post) (length pre)) with (Ok a).
  2:{ unfold Py.getitem. rewrite nth_error_app2 by lia. now rewrite Nat.sub_diag. }
  cbn [bind]. specialize (IH (pre ++ [a])).
  rewrite <- app_assoc in IH. cbn [app] in IH.
  rewrite length_app in IH. cbn [length] in IH. rewrite Nat.add_1_r in IH.
  cbn [app]. rewrite IH. reflexivity.
Qed.

Lemma mapM_seq_enumerate (A B : Type) (h : nat -> A -> result B) (l : list A) :
  mapM (fun ii => x <- Py.getitem l ii ;; h ii x) (seq 0 (length l))
  = mapM (fun ip => h (fst ip) (snd ip)) (Py.enumerate l).
Proof.
  pose proof (mapM_seq_getitem h l [] []) as H.
  cbn [app length] in H. rewrite app_nil_r in H. exact H.
Qed.

Lemma mapM_seq_enumerate_removelast (A B : Type) (h : nat -> A -> result B) (l : list A) :
  mapM (fun ii => x <- Py.getitem l ii ;; h ii x) (seq 0 (length (removelast l)))
  = mapM (fun ip => h (fst ip) (snd ip)) (Py.enumerate (removelast l)).
Proof.
  destruct l as [|a l]; [reflexivity|].
  set (l0 := a :: l).
  assert (E : l0 = removelast l0 ++ [last l0 a])
    by (apply app_removelast_last; discriminate).
  pose proof (mapM_seq_getitem h (removelast l0) [] [last l0 a]) as H.
  cbn [app length] in H. rewrite <- E in H. exact H.
Qed.

Lemma bindM_lift (A B : Type) (c : result A) (k : A -> M B) (s : store) :
  bindM (lift c) k s = match c with Ok a => k a s | Raise e => (Raise e, s) end.
Proof. unfold bindM, lift. destruct c; reflexivity. Qed.

Lemma bindM_pure (A B : Type) (m : M A) (k : A -> M B) (s : store) (c : result A) :
  m s = (c, s) ->
  bindM m k s = match c with Ok a => k a s | Raise e => (Raise e, s) end.
Proof. intros H. unfold bindM. rewrite H. destruct c; reflexivity. Qed.

Arguments bindM_pure {A B m} k {s c} _.

Lemma runs_as_step (A A' B : Type) (m : M A) (k : A -> M A') (s : store) (a : A)
    (c : result B) (post : B -> A' -> store -> Prop) :
  m s = (Ok a, s) -> runs_as (k a) s c post -> runs_as (bindM m k) s c post.
Proof. intros Hm [t H]. exists t. rewrite (bindM_ok _ Hm). exact H. Qed.

Arguments runs_as_step {A A' B m} k {s a c post} _ _.

Lemma nth_error_app_here (s t : store) (o : object) :
  nth_error (s ++ o :: t) (length s) = Some o.
Proof. rewrite nth_error_app2 by lia. now rewrite Nat.sub_diag. Qed.

Lemma nth_error_app_next (s t : store) (o o' : object) :
  nth_error (s ++ o :: o' :: t) (S (length s)) = Some o'.
Proof.
  rewrite nth_error_app2 by lia.
  replace (S (length s) - length s) with 1 by lia. reflexivity.
Qed.

Lemma update_app_here (s t : store) (o o' : object) :
  update (s ++ o :: t) (length s) o' = s ++ o' :: t.
Proof.
  replace (length s) with (length s + 0) at 1 by lia.
  now rewrite update_app_local.
Qed.

Lemma update_app_next (s t : store) (o1 o2 o' : object) :
  update (s ++ o1 :: o2 :: t) (S (length s)) o' = s ++ o1 :: o' :: t.
Proof.
  replace (S (length s)) with (length s + 1) by lia.
  now rewrite update_app_local.
Qed.

Lemma length_app_one (s : store) (o : object) : length (s ++ [o]) = S (length s).
Proof. rewrite length_app. cbn. lia. Qed.

Section OnStore.

Variable np_sum : list float -> float.
Variable scalar_pow2 : float -> float.

(** ** The matcher *)

Lemma matcher_turn_run (s : store) (tperiods orders operiods operiods_errors : ref)
    (tp : list float) (ords : list Z) (op oe : list float) :
  holds_arrays s tperiods orders operiods operiods_errors tp ords op oe ->
  forall (ii : nat) (acc : list pair), exists acc',
    matcher_turn scalar_pow2 tperiods orders operiods operiods_errors (length s) ii
      (s ++ [RowList acc])
    = (match (period <- Py.getitem op ii ;; best_pair scalar_pow2 tp ords oe ii period) with
       | Ok _ => Ok tt
       | Raise e => Raise e
       end, s ++ [RowList acc'])
    /\ forall b, (period <- Py.getitem op ii ;; best_pair scalar_pow2 tp ords oe ii period) = Ok b ->
                 acc' = acc ++ [b].
Proof.
  intros (Htp & Hords & Hop & Hoe) ii acc. unfold matcher_turn.
  rewrite (bindM_ok _ (float_array_eq (nth_error_app_base _ Hop))), bindM_lift.
  destruct (Py.getitem op ii) as [period|e]; cbn [bind].
  2:{ exists acc. split; [reflexivity | discriminate]. }
  rewrite (bindM_ok _ (float_array_eq (nth_error_app_base _ Htp))).
  rewrite (bindM_ok _ (int_array_eq (nth_error_app_base _ Hords))).
  rewrite (bindM_ok _ (float_array_eq (nth_error_app_base _ Hoe))), bindM_lift.
  destruct (best_pair scalar_pow2 tp ords oe ii period) as [row|e].
  2:{ exists acc. split; [reflexivity | discriminate]. }
  exists (acc ++ [row]).
  rewrite (append_row_eq row (nth_error_app_here s [] (RowList acc))), update_app_here.
  split; [reflexivity|]. intros b Hb.
  apply (f_equal (fun r => match r with Ok x => x | Raise _ => row end)) in Hb.
  now subst b.
Qed.

Lemma sequence_matcher_st_runs (s : store) (tperiods orders operiods operiods_errors : ref)
    (tp : list float) (ords : list Z) (op oe : list float) :
  holds_arrays s tperiods orders operiods operiods_errors tp ords op oe ->
  runs_as (sequence_matcher_st scalar_pow2 tperiods orders operiods operiods_errors) s
          (sequence_matcher scalar_pow2 tp ords op oe)
          (fun rows r s' => nth_error s' r = Some (RowArray rows)).
Proof.
  intros H. pose proof H as (Htp & Hords & Hop & Hoe).
  unfold runs_as, sequence_matcher_st.
  rewrite (bindM_ok _ (new_eq _ _)).
  rewrite (bindM_ok _ (float_array_eq (nth_error_app_base _ Hop))).
  destruct (forM_run _ _ (fun acc => s ++ [RowList acc]) (fun acc b => acc ++ [b])
              (matcher_turn_run H) (seq 0 (length op)) []) as (acc & E & F).
  rewrite (mapM_seq_enumerate (best_pair scalar_pow2 tp ords oe) op) in E, F.
  unfold sequence_matcher.
  destruct (mapM _ (Py.enumerate op)) as [rows|e].
  - specialize (F rows eq_refl). rewrite fold_left_snoc in F. cbn [app] in F. subst acc.
    exists [RowList rows; RowArray rows]. exists (S (length s)).
    rewrite (bindM_ok _ E).
    rewrite (bindM_ok _ (row_list_eq (nth_error_app_here s [] (RowList rows)))).
    rewrite new_eq, length_app_one, <- app_assoc. split; [reflexivity|].
    apply nth_error_app_next.
  - exists [RowList acc]. rewrite (bindM_raise _ E). reflexivity.
Qed.

Lemma increase_or_decrease_st_runs (s : store) (orders : ref) (ords : list Z) :
  nth_error s orders = Some (IntArray ords) ->
  runs_as (increase_or_decrease_st orders) s (increase_or_decrease ords)
          (fun b a _ => a = b).
Proof.
  intros H. unfold increase_or_decrease_st.
  apply (runs_as_step _ (int_array_eq H)). apply runs_as_lift.
Qed.

(** ** The segmenter

    While the loop runs the store is the store of the call, then
    [sequences], then the lists [current] was bound to before, then the
    list it is bound to. *)

Lemma segmenter_nth_current (s : store) (q : list (list pair)) (J : list object)
    (c : list pair) :
  nth_error (s ++ RunList q :: J ++ [RowList c]) (length s + S (length J))
  = Some (RowList c).
Proof.
  rewrite nth_error_app_local. cbn [nth_error].
  rewrite nth_error_app2 by lia. now rewrite Nat.sub_diag.
Qed.

Lemma segmenter_update_current (s : store) (q : list (list pair)) (J : list object)
    (c : list pair) (o : object) :
  update (s ++ RunList q :: J ++ [RowList c]) (length s + S (length J)) o
  = s ++ RunList q :: J ++ [o].
Proof.
  rewrite update_app_local. cbn [update]. do 2 f_equal.
  apply (update_app_here J [] (RowList c) o).
Qed.

Lemma append_row_current (s : store) (q : list (list pair)) (J : list object)
    (c : list pair) (x : pair) :
  append_row (length s + S (length J)) x (s ++ RunList q :: J ++ [RowList c])
  = (Ok tt, s ++ RunList q :: J ++ [RowList (c ++ [x])]).
Proof.
  rewrite (append_row_eq x (segmenter_nth_current s q J c)).
  now rewrite segmenter_update_current.
Qed.

(** Closing a run: [sequences.append(np.array(current))], then
    [current = []]. *)
Lemma close_run (s : store) (q : list (list pair)) (J : list object) (c : list pair) :
  (run <~ row_list (length s + S (length J)) ;;
   _ <~ append_run (length s) run ;;
   new (RowList [])) (s ++ RunList q :: J ++ [RowList c])
  = (Ok (length s + S (length (J ++ [RowList c]))),
     s ++ RunList (q ++ [c]) :: (J ++ [RowList c]) ++ [RowList []]).
Proof.
  rewrite (bindM_ok _ (row_list_eq (segmenter_nth_current s q J c))).
  rewrite (bindM_ok _ (append_run_eq c (nth_error_app_here s _ (RunList q)))).
  rewrite update_app_here, new_eq. f_equal.
  - f_equal. rewrite !length_app. cbn [length]. rewrite length_app. cbn [length]. lia.
  - rewrite <- app_assoc. reflexivity.
Qed.

Lemma keep_current (s : store) (q : list (list pair)) (J : list object)
    (c : list pair) (x : pair) :
  (_ <~ append_row (length s + S (length J)) x ;; ret (length s + S (length J)))
    (s ++ RunList q :: J ++ [RowList c])
  = (Ok (length s + S (length J)), s ++ RunList q :: J ++ [RowList (c ++ [x])]).
Proof. now rewrite (bindM_ok _ (append_row_current s q J c x)). Qed.

Lemma close_after_append (s : store) (q : list (list pair)) (J : list object)
    (c : list pair) (x : pair) :
  (_ <~ append_row (length s + S (length J)) x ;;
   run <~ row_list (length s + S (length J)) ;;
   _ <~ append_run (length s) run ;;
   new (RowList [])) (s ++ RunList q :: J ++ [RowList c])
  = (Ok (length s + S (length (J ++ [RowList (c ++ [x])]))),
     s ++ RunList (q ++ [c ++ [x]]) :: (J ++ [RowList (c ++ [x])]) ++ [RowList []]).
Proof.
  rewrite (bindM_ok _ (append_row_current s q J c x)). apply close_run.
Qed.

Lemma segment_step_st_run (s : store) (pairs_orders : ref) (rows : list pair)
    (step : Z) (lp : nat) (q : list (list pair)) (J : list object) (c : list pair)
    (ii : nat) (sett : pair) :
  nth_error s pairs_orders = Some (RowArray rows) ->
  nth_error rows ii = Some sett ->
  S ii < length rows ->
  exists J',
    segment_step_st pairs_orders (length s) step lp (length s + S (length J)) ii
      (s ++ RunList q :: J ++ [RowList c])
    = (Ok (length s + S (length J')),
       s ++ RunList (snd (segment_step rows step lp (c, q) (ii, sett)))
         :: J' ++ [RowList (fst (segment_step rows step lp (c, q) (ii, sett)))]).
Proof.
  intros Hrows Hii Hlt. unfold segment_step_st.
  rewrite (bindM_ok _ (row_array_eq (nth_error_app_base _ Hrows))), bindM_lift.
  unfold Py.getitem at 1. rewrite Hii. rewrite bindM_lift.
  unfold Py.getitem. rewrite (nth_error_nth' rows sett Hlt).
  unfold segment_step.
  destruct (consecutive step sett (nth (S ii) rows sett)); destruct (ii =? lp - 1);
    cbn [fst snd]; eexists.
  - rewrite (bindM_ok _ (keep_current s q J c sett)).
    rewrite close_after_append. reflexivity.
  - rewrite (bindM_ok _ (keep_current s q J c sett)). reflexivity.
  - rewrite (bindM_ok _ (close_after_append s q J c sett)).
    rewrite close_after_append. reflexivity.
  - rewrite (bindM_ok _ (close_after_append s q J c sett)). reflexivity.
Qed.

Lemma segmenter_fold_run (s : store) (pairs_orders : ref) (rows : list pair)
    (step : Z) (lp : nat) :
  nth_error s pairs_orders = Some (RowArray rows) ->
  forall (items : list (nat * pair)) (q : list (list pair)) (J : list object)
         (c : list pair),
    Forall (fun ip => nth_error rows (fst ip) = Some (snd ip) /\ S (fst ip) < length rows)
           items ->
    exists J',
      foldM (segment_step_st pairs_orders (length s) step lp) (map fst items)
            (length s + S (length J)) (s ++ RunList q :: J ++ [RowList c])
      = (Ok (length s + S (length J')),
         s ++ RunList (snd (fold_left (segment_step rows step lp) items (c, q)))
           :: J' ++ [RowList (fst (fold_left (segment_step rows step lp) items (c, q)))]).
Proof.
  intros Hrows items. induction items as [|[ii sett] items IH]; intros q J c Hall.
  - exists J. reflexivity.
  - inversion Hall as [|x l [Hii Hlt] Hrest]; subst. cbn [fst snd] in Hii, Hlt.
    destruct (@segment_step_st_run s pairs_orders rows step lp q J c ii sett Hrows Hii Hlt) as [J1 E1].
    cbn [map fst foldM fold_left]. rewrite (bindM_ok _ E1).
    destruct (segment_step rows step lp (c, q) (ii, sett)) as [c1 q1].
    cbn [fst snd]. apply IH. exact Hrest.
Qed.

Lemma map_fst_enumerate (A : Type) (l : list A) :
  map fst (Py.enumerate l) = seq 0 (length l).
Proof.
  unfold Py.enumerate. generalize 0.
  induction l as [|a l IH]; intros k; cbn; [reflexivity | now rewrite IH].
Qed.

Lemma enumerate_removelast_items (A : Type) (l : list A) :
  Forall (fun ip => nth_error l (fst ip) = Some (snd ip) /\ S (fst ip) < length l)
         (Py.enumerate (removelast l)).
Proof.
  destruct l as [|a l]; [constructor|].
  set (l0 := a :: l).
  assert (E : l0 = removelast l0 ++ [last l0 a])
    by (apply app_removelast_last; discriminate).
  apply Forall_forall. intros [i x] Hin. apply In_enumerate in Hin. cbn [fst snd].
  assert (Hi : i < length (removelast l0)) by (apply nth_error_Some; congruence).
  rewrite E. split.
  - rewrite nth_error_app1 by exact Hi. exact Hin.
  - rewrite length_app. cbn [length]. lia.
Qed.

Lemma run_segmenter_st_runs (s : store) (pairs_orders : ref) (rows : list pair)
    (step : Z) :
  nth_error s pairs_orders = Some (RowArray rows) ->
  runs_as (run_segmenter_st pairs_orders step) s (Ok (run_segmenter step rows))
          (fun seqs r s' => nth_error s' r = Some (RunList seqs)).
Proof.
  intros Hrows. unfold runs_as, run_segmenter_st.
  rewrite (bindM_ok _ (new_eq _ _)), (bindM_ok _ (new_eq _ _)).
  rewrite length_app_one, <- app_assoc. cbn [app].
  change (s ++ [RunList []; RowList []])
    with (s ++ RunList [] :: [] ++ [RowList []]).
  replace (S (length s)) with (length s + S (length (@nil object))) by (cbn; lia).
  rewrite (bindM_ok _ (row_array_eq (nth_error_app_base _ Hrows))).
  cbv zeta.
  destruct (@segmenter_fold_run s pairs_orders rows step (length (removelast rows)) Hrows
              (Py.enumerate (removelast rows)) [] [] []
              (enumerate_removelast_items rows)) as [J E].
  rewrite map_fst_enumerate in E. rewrite (bindM_ok _ E).
  eexists. exists (length s). split; [reflexivity|].
  unfold run_segmenter. apply nth_error_app_here.
Qed.

Lemma sequence_selector_st_runs (s : store) (sequences : ref)
    (runs : list (list pair)) :
  nth_error s sequences = Some (RunList runs) ->
  runs_as (sequence_selector_st np_sum sequences) s (sequence_selector np_sum runs)
          (fun b a _ => a = b).
Proof.
  intros H. unfold sequence_selector_st.
  apply (runs_as_step _ (run_list_eq H)). apply runs_as_lift.
Qed.

(** The run the function selects, as an expression of the contents of
    the four arrays. *)
Lemma longest_sequence_st_runs (s : store)
    (tperiods orders operiods operiods_errors : ref)
    (tp : list float) (ords : list Z) (op oe : list float) :
  holds_arrays s tperiods orders operiods operiods_errors tp ords op oe ->
  runs_as (longest_sequence_st np_sum scalar_pow2 tperiods orders operiods operiods_errors) s
          (pairs_orders <- sequence_matcher scalar_pow2 tp ords op oe ;;
           step <- increase_or_decrease ords ;;
           sequence_selector np_sum (run_segmenter step pairs_orders))
          (fun b a _ => a = b).
Proof.
  intros H. pose proof H as (Htp & Hords & Hop & Hoe). unfold longest_sequence_st.
  eapply runs_as_bind; [apply (@sequence_matcher_st_runs s _ _ _ _ _ _ _ _ H)|].
  intros rows r t Hr. cbv beta in Hr.
  eapply runs_as_bind;
    [apply (@increase_or_decrease_st_runs _ _ _ (nth_error_app_base t Hords))|].
  intros step step' t' ->.
  change (sequence_selector np_sum (run_segmenter step rows))
    with (bind (Ok (run_segmenter step rows)) (sequence_selector np_sum)).
  eapply runs_as_bind;
    [apply (@run_segmenter_st_runs _ _ _ step (nth_error_app_base t' Hr))|].
  intros runs sequences t'' Hs. cbv beta in Hs.
  apply (@sequence_selector_st_runs _ _ _ Hs).
Qed.

(** ** The aligner *)

Lemma thr_ind_start_st_eq (s : store) (tperiods operiods : ref)
    (tp op : list float) (lseq : list pair) :
  nth_error s tperiods = Some (FloatArray tp) ->
  nth_error s operiods = Some (FloatArray op) ->
  thr_ind_start_st tperiods operiods lseq s
  = (row0 <- Py.item0 lseq ;;
     obs_ordering_ind <-
       Py.item0 (Np.nonzero (map (fun p => (p =? obs_period row0)%float) op)) ;;
     thr_ordering_ind <-
       Py.item0 (Np.nonzero (map (fun t => (t =? best_match row0)%float) tp)) ;;
     Ok (Z.of_nat thr_ordering_ind - Z.of_nat obs_ordering_ind)%Z, s).
Proof.
  intros Htp Hop. unfold thr_ind_start_st. rewrite bindM_lift.
  destruct (Py.item0 lseq) as [row0|e]; cbn [bind]; [|reflexivity].
  rewrite (bindM_ok _ (float_array_eq Hop)), bindM_lift.
  destruct (Py.item0 (Np.nonzero (map _ op))) as [oi|e]; cbn [bind]; [|reflexivity].
  rewrite (bindM_ok _ (float_array_eq Htp)), bindM_lift.
  destruct (Py.item0 (Np.nonzero (map _ tp))) as [ti|e]; cbn [bind]; reflexivity.
Qed.

Lemma aligner_turn_run (s : store) (tperiods orders operiods operiods_errors : ref)
    (tp : list float) (ords : list Z) (op oe : list float) (start : Z) :
  holds_arrays s tperiods orders operiods operiods_errors tp ords op oe ->
  forall (i : nat) (t : list float * list Z), exists t',
    aligner_turn tperiods orders operiods start (length s) (S (length s)) i
      (s ++ [FloatList (fst t); IntList (snd t)])
    = (match (_ <- Py.getitem op i ;; aligned_at tp ords start i) with
       | Ok _ => Ok tt
       | Raise e => Raise e
       end, s ++ [FloatList (fst t'); IntList (snd t')])
    /\ forall b, (_ <- Py.getitem op i ;; aligned_at tp ords start i) = Ok b ->
                 t' = (fst t ++ [fst b], snd t ++ [snd b]).
Proof.
  intros (Htp & Hords & Hop & Hoe) i t. unfold aligner_turn.
  rewrite (bindM_ok _ (float_array_eq (nth_error_app_base _ Hop))), bindM_lift.
  destruct (Py.getitem op i) as [oper|e]; cbn [bind].
  2:{ exists t. split; [reflexivity | discriminate]. }
  rewrite (bindM_ok _ (float_array_eq (nth_error_app_base _ Htp))).
  rewrite (bindM_ok _ (int_array_eq (nth_error_app_base _ Hords))), bindM_lift.
  destruct (aligned_at tp ords start i) as [[tper ordr]|e].
  2:{ exists t. split; [reflexivity | discriminate]. }
  exists (fst t ++ [tper], snd t ++ [ordr]). cbn [fst snd].
  rewrite (bindM_ok _ (append_float_eq tper (nth_error_app_here s _ (FloatList (fst t))))).
  rewrite update_app_here.
  rewrite (append_int_eq ordr (nth_error_app_next s [] _ (IntList (snd t)))).
  rewrite update_app_next.
  split; [reflexivity|]. intros b Hb.
  apply (f_equal (fun r => match r with Ok x => x | Raise _ => (tper, ordr) end)) in Hb.
  now subst b.
Qed.

Lemma pattern_aligner_st_runs (s : store)
    (tperiods orders operiods operiods_errors : ref)
    (tp : list float) (ords : list Z) (op oe : list float) (lseq : list pair) :
  holds_arrays s tperiods orders operiods operiods_errors tp ords op oe ->
  runs_as (pattern_aligner_st tperiods orders operiods lseq) s
          (pattern_aligner tp ords op lseq)
          (fun b a s' => nth_error s' (fst a) = Some (FloatArray (fst b)) /\
                         nth_error s' (snd a) = Some (IntList (snd b))).
Proof.
  intros H. pose proof H as (Htp & Hords & Hop & Hoe).
  unfold runs_as, pattern_aligner_st, pattern_aligner.
  rewrite (bindM_pure _ (@thr_ind_start_st_eq s tperiods operiods tp op lseq Htp Hop)).
  destruct (Py.item0 lseq) as [row0|e]; cbn [bind]; [|exists []; now rewrite app_nil_r].
  destruct (Py.item0 (Np.nonzero (map _ op))) as [oi|e]; cbn [bind];
    [|exists []; now rewrite app_nil_r].
  destruct (Py.item0 (Np.nonzero (map _ tp))) as [ti|e]; cbn [bind];
    [|exists []; now rewrite app_nil_r].
  cbv zeta. set (start := (Z.of_nat ti - Z.of_nat oi)%Z).
  rewrite (bindM_ok _ (new_eq _ _)), (bindM_ok _ (new_eq _ _)).
  rewrite length_app_one, <- app_assoc. cbn [app].
  rewrite (bindM_ok _ (float_array_eq (nth_error_app_base _ Hop))).
  destruct (forM_run _ _ (fun t => s ++ [FloatList (fst t); IntList (snd t)])
              (fun t b => (fst t ++ [fst b], snd t ++ [snd b]))
              (@aligner_turn_run s _ _ _ _ _ _ _ _ start H)
              (seq 0 (length op)) ([], [])) as (t & E & F).
  cbn [fst snd] in E.
  pose proof (mapM_seq_enumerate (fun i (_ : float) => aligned_at tp ords start i) op) as Hm.
  cbv beta in Hm. rewrite Hm in E, F. clear Hm.
  destruct (mapM _ (Py.enumerate op)) as [rows|e]; cbn [bind].
  - specialize (F rows eq_refl). rewrite fold_left_snoc2 in F. cbn [app] in F. subst t.
    cbn [fst snd] in E.
    exists [FloatList (map fst rows); IntList (map snd rows); FloatArray (map fst rows)].
    exists (S (S (length s)), S (length s)).
    rewrite (bindM_ok _ E).
    rewrite (bindM_ok _ (float_list_eq (nth_error_app_here s _ (FloatList (map fst rows))))).
    rewrite (bindM_ok _ (new_eq _ _)).
    rewrite length_app. cbn [length]. rewrite <- app_assoc. cbn [app fst snd].
    replace (length s + 2) with (S (S (length s))) by lia.
    split; [reflexivity|]. split.
    + replace (S (S (length s))) with (length s + 2) by lia.
      now rewrite nth_error_app_local.
    + apply nth_error_app_next.
  - exists [FloatList (fst t); IntList (snd t)]. rewrite (bindM_raise _ E). reflexivity.
Qed.

(** ** The spacing series *)

Lemma obs_series_turn_run (s : store) (periods errors : ref) (ps es : list float) :
  nth_error s periods = Some (FloatArray ps) ->
  nth_error s errors = Some (FloatArray es) ->
  forall (kk : nat) (t : list float * list float), exists t',
    obs_series_turn scalar_pow2 periods errors (length s) (S (length s)) kk
      (s ++ [FloatList (fst t); FloatList (snd t)])
    = (match (prd_k <- Py.getitem ps kk ;;
              prd_k_p_1 <- Py.getitem ps (S kk) ;;
              e_k <- Py.getitem es kk ;;
              e_k_p_1 <- Py.getitem es (S kk) ;;
              Ok ((abs (prd_k - prd_k_p_1) * 86400)%float,
                  (sqrt (scalar_pow2 e_k + scalar_pow2 e_k_p_1) * 86400)%float)) with
       | Ok _ => Ok tt
       | Raise e => Raise e
       end, s ++ [FloatList (fst t'); FloatList (snd t')])
    /\ forall b, (prd_k <- Py.getitem ps kk ;;
                  prd_k_p_1 <- Py.getitem ps (S kk) ;;
                  e_k <- Py.getitem es kk ;;
                  e_k_p_1 <- Py.getitem es (S kk) ;;
                  Ok ((abs (prd_k - prd_k_p_1) * 86400)%float,
                      (sqrt (scalar_pow2 e_k + scalar_pow2 e_k_p_1) * 86400)%float)) = Ok b ->
                 t' = (fst t ++ [fst b], snd t ++ [snd b]).
Proof.
  intros Hps Hes kk t. unfold obs_series_turn.
  rewrite (bindM_ok _ (float_array_eq (nth_error_app_base _ Hps))), bindM_lift.
  destruct (Py.getitem ps kk) as [prd_k|e]; cbn [bind].
  2:{ exists t. split; [reflexivity | discriminate]. }
  rewrite (bindM_ok _ (float_array_eq (nth_error_app_base _ Hps))), bindM_lift.
  destruct (Py.getitem ps (S kk)) as [prd_k_p_1|e]; cbn [bind].
  2:{ exists t. split; [reflexivity | discriminate]. }
  rewrite (bindM_ok _ (append_float_eq _ (nth_error_app_here s _ (FloatList (fst t))))).
  rewrite update_app_here.
  rewrite (bindM_ok _ (float_array_eq (nth_error_app_base _ Hes))), bindM_lift.
  destruct (Py.getitem es kk) as [e_k|e]; cbn [bind].
  2:{ eexists (_, _). cbn [fst snd]. split; [reflexivity | discriminate]. }
  rewrite (bindM_ok _ (float_array_eq (nth_error_app_base _ Hes))), bindM_lift.
  destruct (Py.getitem es (S kk)) as [e_k_p_1|e]; cbn [bind].
  2:{ eexists (_, _). cbn [fst snd]. split; [reflexivity | discriminate]. }
  rewrite (append_float_eq _ (nth_error_app_next s [] _ (FloatList (snd t)))).
  rewrite update_app_next.
  eexists (_, _). cbn [fst snd]. split; [reflexivity|]. intros b Hb.
  apply (f_equal (fun r => match r with Ok x => x | Raise _ => (0, 0)%float end)) in Hb.
  now subst b.
Qed.

Lemma generate_obs_series_st_runs (s : store) (periods errors : ref)
    (ps es : list float) :
  nth_error s periods = Some (FloatArray ps) ->
  nth_error s errors = Some (FloatArray es) ->
  runs_as (generate_obs_series_st scalar_pow2 periods errors) s
          (generate_obs_series scalar_pow2 ps es)
          (fun b a s' => nth_error s' (fst a) = Some (FloatList (fst b)) /\
                         nth_error s' (snd a) = Some (FloatList (snd b))).
Proof.
  intros Hps Hes. unfold runs_as, generate_obs_series_st, generate_obs_series.
  rewrite (bindM_ok _ (new_eq _ _)), (bindM_ok _ (new_eq _ _)).
  rewrite length_app_one, <- app_assoc. cbn [app].
  rewrite (bindM_ok _ (float_array_eq (nth_error_app_base _ Hps))).
  destruct (forM_run _ _ (fun t => s ++ [FloatList (fst t); FloatList (snd t)])
              (fun t b => (fst t ++ [fst b], snd t ++ [snd b]))
              (@obs_series_turn_run s periods errors ps es Hps Hes)
              (seq 0 (length (removelast ps))) ([], [])) as (t & E & F).
  cbn [fst snd] in E.
  pose proof (mapM_seq_enumerate_removelast
                (fun kk prd_k =>
                   prd_k_p_1 <- Py.getitem ps (S kk) ;;
                   e_k <- Py.getitem es kk ;;
                   e_k_p_1 <- Py.getitem es (S kk) ;;
                   Ok ((abs (prd_k - prd_k_p_1) * 86400)%float,
                       (sqrt (scalar_pow2 e_k + scalar_pow2 e_k_p_1) * 86400)%float))
                ps) as Hm.
  cbv beta in Hm. rewrite Hm in E, F. clear Hm. cbv zeta.
  destruct (mapM _ (Py.enumerate (removelast ps))) as [rows|e]; cbn [bind].
  - specialize (F rows eq_refl). rewrite fold_left_snoc2 in F. cbn [app] in F. subst t.
    cbn [fst snd] in E.
    exists [FloatList (map fst rows); FloatList (map snd rows)].
    exists (length s, S (length s)).
    rewrite (bindM_ok _ E). cbn [fst snd].
    split; [reflexivity|]. split.
    + apply nth_error_app_here.
    + apply nth_error_app_next.
  - exists [FloatList (fst t); FloatList (snd t)]. rewrite (bindM_raise _ E). reflexivity.
Qed.

Lemma thry_series_turn_run (s : store) (periods : ref) (ps : list float) :
  nth_error s periods = Some (FloatArray ps) ->
  forall (kk : nat) (acc : list float), exists acc',
    thry_series_turn periods (length s) kk (s ++ [FloatList acc])
    = (match (prd_k <- Py.getitem ps kk ;;
              prd_k_p_1 <- Py.getitem ps (S kk) ;;
              Ok (abs (prd_k - prd_k_p_1) * 86400)%float) with
       | Ok _ => Ok tt
       | Raise e => Raise e
       end, s ++ [FloatList acc'])
    /\ forall b, (prd_k <- Py.getitem ps kk ;;
                  prd_k_p_1 <- Py.getitem ps (S kk) ;;
                  Ok (abs (prd_k - prd_k_p_1) * 86400)%float) = Ok b ->
                 acc' = acc ++ [b].
Proof.
  intros Hps kk acc. unfold thry_series_turn.
  rewrite (bindM_ok _ (float_array_eq (nth_error_app_base _ Hps))), bindM_lift.
  destruct (Py.getitem ps kk) as [prd_k|e]; cbn [bind].
  2:{ exists acc. split; [reflexivity | discriminate]. }
  rewrite (bindM_ok _ (float_array_eq (nth_error_app_base _ Hps))), bindM_lift.
  destruct (Py.getitem ps (S kk)) as [prd_k_p_1|e]; cbn [bind].
  2:{ exists acc. split; [reflexivity | discriminate]. }
  rewrite (append_float_eq _ (nth_error_app_here s [] (FloatList acc))).
  rewrite update_app_here.
  eexists. split; [reflexivity|]. intros b Hb.
  apply (f_equal (fun r => match r with Ok x => x | Raise _ => 0%float end)) in Hb.
  now subst b.
Qed.

Lemma generate_thry_series_st_runs (s : store) (periods : ref) (ps : list float) :
  nth_error s periods = Some (FloatArray ps) ->
  runs_as (generate_thry_series_st periods) s (generate_thry_series ps)
          (fun b a s' => nth_error s' a = Some (FloatList b)).
Proof.
  intros Hps. unfold runs_as, generate_thry_series_st, generate_thry_series.
  rewrite (bindM_ok _ (new_eq _ _)).
  rewrite (bindM_ok _ (float_array_eq (nth_error_app_base _ Hps))).
  destruct (forM_run _ _ (fun acc => s ++ [FloatList acc]) (fun acc b => acc ++ [b])
              (@thry_series_turn_run s periods ps Hps)
              (seq 0 (length (removelast ps))) []) as (acc & E & F).
  pose proof (mapM_seq_enumerate_removelast
                (fun kk prd_k =>
                   prd_k_p_1 <- Py.getitem ps (S kk) ;;
                   Ok (abs (prd_k - prd_k_p_1) * 86400)%float)
                ps) as Hm.
  cbv beta in Hm. rewrite Hm in E, F. clear Hm.
  destruct (mapM _ (Py.enumerate (removelast ps))) as [rows|e].
  - specialize (F rows eq_refl). rewrite fold_left_snoc in F. cbn [app] in F. subst acc.
    exists [FloatList rows]. exists (length s).
    rewrite (bindM_ok _ E). split; [reflexivity|]. apply nth_error_app_here.
  - exists [FloatList acc]. rewrite (bindM_raise _ E). reflexivity.
Qed.

Lemma series_chi2_st_runs (s : store) (obs_series obs_series_errors thr_series : ref)
    (obs errs thr : list float) :
  nth_error s obs_series = Some (FloatList obs) ->
  nth_error s obs_series_errors = Some (FloatList errs) ->
  nth_error s thr_series = Some (FloatList thr) ->
  runs_as (series_chi2_st np_sum obs_series obs_series_errors thr_series) s
          (Ok (series_chi2_of np_sum obs errs thr))
          (fun b a _ => a = b).
Proof.
  intros H1 H2 H3. unfold runs_as, series_chi2_st.
  rewrite (bindM_ok _ (float_list_eq H1)), (bindM_ok _ (new_eq _ _)).
  rewrite (bindM_ok _ (float_list_eq (nth_error_app_base _ H2))), (bindM_ok _ (new_eq _ _)).
  rewrite length_app_one, <- app_assoc. cbn [app].
  rewrite (bindM_ok _ (float_list_eq (nth_error_app_base _ H3))), (bindM_ok _ (new_eq _ _)).
  rewrite length_app, <- app_assoc. cbn [app length].
  replace (length s + 2) with (S (S (length s))) by lia.
  rewrite (bindM_ok _ (float_array_eq (nth_error_app_here s _ (FloatArray obs)))).
  assert (Ht : nth_error (s ++ [FloatArray obs; FloatArray errs; FloatArray thr])
                         (S (S (length s))) = Some (FloatArray thr)).
  { replace (S (S (length s))) with (length s + 2) by lia.
    now rewrite nth_error_app_local. }
  rewrite (bindM_ok _ (float_array_eq Ht)).
  rewrite (bindM_ok _ (float_array_eq (nth_error_app_next s _ _ (FloatArray errs)))).
  eexists. eexists. split; reflexivity.
Qed.

(** ** The whole function *)

Lemma chisq_longest_sequence_by_blocks (tp : list float) (ords : list Z)
    (op oe : list float) :
  chisq_longest_sequence np_sum scalar_pow2 tp ords op oe
  = if length tp <? length op then
      Ok (1e16%float,
          PyList (map (fun _ => (-1)%float) (seq 0 (length op))),
          map (fun _ => (-1)%Z) (seq 0 (length op)))
    else
      lseq <- (pairs_orders <- sequence_matcher scalar_pow2 tp ords op oe ;;
               step <- increase_or_decrease ords ;;
               sequence_selector np_sum (run_segmenter step pairs_orders)) ;;
      aligned <- pattern_aligner tp ords op lseq ;;
      series <- generate_obs_series scalar_pow2 op oe ;;
      thr_series <- generate_thry_series (fst aligned) ;;
      Ok (series_chi2_of np_sum (fst series) (snd series) thr_series,
          NdArray (fst aligned), snd aligned).
Proof.
  unfold chisq_longest_sequence. destruct (length tp <? length op); [reflexivity|].
  destruct (sequence_matcher scalar_pow2 tp ords op oe) as [rows|e]; cbn [bind];
    [|reflexivity].
  destruct (increase_or_decrease ords) as [step|e]; cbn [bind]; [|reflexivity].
  cbv zeta.
  destruct (sequence_selector np_sum (run_segmenter step rows)) as [lseq|e]; cbn [bind];
    [|reflexivity].
  destruct (pattern_aligner tp ords op lseq) as [[ps os]|e]; cbn [bind fst snd];
    [|reflexivity].
  destruct (generate_obs_series scalar_pow2 op oe) as [[a b]|e]; reflexivity.
Qed.

Lemma early_return_runs (s : store) (operiods : ref) (op : list float) :
  nth_error s operiods = Some (FloatArray op) ->
  runs_as (early_return operiods) s
          (Ok (1e16%float,
               PyList (map (fun _ => (-1)%float) (seq 0 (length op))),
               map (fun _ => (-1)%Z) (seq 0 (length op))))
          (fun b a s' => returned s' a = Some b).
Proof.
  intros Hop. unfold runs_as, early_return.
  rewrite (bindM_ok _ (float_array_eq Hop)), (bindM_ok _ (new_eq _ _)).
  rewrite (bindM_ok _ (float_array_eq (nth_error_app_base _ Hop))).
  rewrite (bindM_ok _ (new_eq _ _)).
  rewrite length_app_one, <- app_assoc. cbn [app].
  eexists. exists (1e16%float, length s, S (length s)).
  split; [reflexivity|]. unfold returned.
  now rewrite nth_error_app_here, nth_error_app_next.
Qed.

(** A call does what [chisq_longest_sequence] says of the contents of
    its four arrays, and leaves every object of the store it started on
    as it was. *)
Lemma chisq_longest_sequence_st_runs (s : store)
    (tperiods orders operiods operiods_errors : ref)
    (tp : list float) (ords : list Z) (op oe : list float) :
  holds_arrays s tperiods orders operiods operiods_errors tp ords op oe ->
  runs_as (chisq_longest_sequence_st np_sum scalar_pow2
             tperiods orders operiods operiods_errors) s
          (chisq_longest_sequence np_sum scalar_pow2 tp ords op oe)
          (fun b a s' => returned s' a = Some b).
Proof.
  intros H. pose proof H as (Htp & Hords & Hop & Hoe).
  rewrite chisq_longest_sequence_by_blocks. unfold chisq_longest_sequence_st.
  apply (runs_as_step _ (float_array_eq Htp)).
  apply (runs_as_step _ (float_array_eq Hop)).
  destruct (length tp <? length op); [exact (@early_return_runs s operiods op Hop)|].
  eapply runs_as_bind; [apply (@longest_sequence_st_runs s _ _ _ _ _ _ _ _ H)|].
  intros lseq lseq' t ->.
  pose proof (@holds_arrays_app s t _ _ _ _ _ _ _ _ H) as H1.
  eapply runs_as_bind;
    [apply (@pattern_aligner_st_runs (s ++ t) _ _ _ _ _ _ _ _ lseq H1)|].
  intros [ps os] [r1 r2] t1 [Hr1 Hr2]. cbn [fst snd] in Hr1, Hr2. cbv beta iota.
  pose proof (@holds_arrays_app (s ++ t) t1 _ _ _ _ _ _ _ _ H1) as (_ & _ & Hop2 & Hoe2).
  eapply runs_as_bind;
    [apply (@generate_obs_series_st_runs _ _ _ _ _ Hop2 Hoe2)|].
  intros [a b] [ra rb] t2 [Ha Hb]. cbn [fst snd] in Ha, Hb. cbv beta iota.
  eapply runs_as_bind;
    [apply (@generate_thry_series_st_runs _ _ _ (nth_error_app_base t2 Hr1))|].
  intros thr rthr t3 Hthr. cbv beta in Hthr. cbn [fst snd].
  change (Ok (series_chi2_of np_sum a b thr, NdArray ps, os))
    with (bind (Ok (series_chi2_of np_sum a b thr))
               (fun chi2 => Ok (chi2, NdArray ps, os))).
  eapply runs_as_bind;
    [apply (@series_chi2_st_runs _ _ _ _ _ _ _
              (nth_error_app_base t3 Ha) (nth_error_app_base t3 Hb) Hthr)|].
  intros chi2 chi2' t4 ->.
  apply runs_as_ret. unfold returned.
  rewrite (nth_error_app_base t4 (nth_error_app_base t3 (nth_error_app_base t2 Hr1))).
  now rewrite (nth_error_app_base t4 (nth_error_app_base t3 (nth_error_app_base t2 Hr2))).
Qed.

End OnStore.

Lemma outcome_of_runs_as (m : M (float * ref * ref)) (s : store)
    (c : result (float * pyseq * list Z)) :
  runs_as m s c (fun b a s' => returned s' a = Some b) ->
  outcome (m s) = match c with Ok b => Ok (Some b) | Raise e => Raise e end
  /\ exists t, snd (m s) = s ++ t.
Proof.
  intros [t H]. unfold outcome. destruct c as [b|e].
  - destruct H as (a & E & P). rewrite E. cbn [fst snd]. rewrite P.
    split; [reflexivity | now exists t].
  - rewrite H. split; [reflexivity | now exists t].
Qed.

Lemma value_of_runs_as (A : Type) (m : M A) (s : store) (c : result A) :
  runs_as m s c (fun b a _ => a = b) -> fst (m s) = c.
Proof.
  intros [t H]. destruct c as [b|e].
  - destruct H as (a & E & ->). now rewrite E.
  - now rewrite H.
Qed.

(** C9. Two calls of [chisq_longest_sequence] on arrays of equal
    contents return the same chi-square, the same periods and the same
    orders, and select the same run: wherever the arrays lie in the
    store and whatever else the store holds, and also when the second
    call follows the first on the store the first one left. A call
    leaves every object that was there before it as it was, it only
    adds objects; and what it returns is the value the expression
    [chisq_longest_sequence] has on the contents of the four arrays. *)
Theorem chisq_longest_sequence_twice_identical
    (np_sum : list float -> float) (scalar_pow2 : float -> float)
    (s s' : store)
    (tperiods orders operiods operiods_errors : ref)
    (tperiods' orders' operiods' operiods_errors' : ref)
    (tp : list float) (ords : list Z) (op oe : list float) :
  holds_arrays s tperiods orders operiods operiods_errors tp ords op oe ->
  holds_arrays s' tperiods' orders' operiods' operiods_errors' tp ords op oe ->
  (exists t,
      snd (chisq_longest_sequence_st np_sum scalar_pow2
             tperiods orders operiods operiods_errors s) = s ++ t) /\
  outcome (chisq_longest_sequence_st np_sum scalar_pow2
             tperiods orders operiods operiods_errors
             (snd (chisq_longest_sequence_st np_sum scalar_pow2
                     tperiods orders operiods operiods_errors s)))
  = outcome (chisq_longest_sequence_st np_sum scalar_pow2
               tperiods orders operiods operiods_errors s) /\
  outcome (chisq_longest_sequence_st np_sum scalar_pow2
             tperiods' orders' operiods' operiods_errors' s')
  = outcome (chisq_longest_sequence_st np_sum scalar_pow2
               tperiods orders operiods operiods_errors s) /\
  fst (longest_sequence_st np_sum scalar_pow2
         tperiods' orders' operiods' operiods_errors' s')
  = fst (longest_sequence_st np_sum scalar_pow2
           tperiods orders operiods operiods_errors s) /\
  outcome (chisq_longest_sequence_st np_sum scalar_pow2
             tperiods orders operiods operiods_errors s)
  = match chisq_longest_sequence np_sum scalar_pow2 tp ords op oe with
    | Ok b => Ok (Some b)
    | Raise e => Raise e
    end.
Proof.
  intros Hs Hs'.
  destruct (outcome_of_runs_as
              (@chisq_longest_sequence_st_runs np_sum scalar_pow2 s _ _ _ _ _ _ _ _ Hs))
    as [O1 [t E1]].
  destruct (outcome_of_runs_as
              (@chisq_longest_sequence_st_runs np_sum scalar_pow2 s' _ _ _ _ _ _ _ _ Hs'))
    as [O2 _].
  pose proof (@holds_arrays_app s t _ _ _ _ _ _ _ _ Hs) as Hs1. rewrite <- E1 in Hs1.
  destruct (outcome_of_runs_as
              (@chisq_longest_sequence_st_runs np_sum scalar_pow2 _ _ _ _ _ _ _ _ _ Hs1))
    as [O3 _].
  pose proof (value_of_runs_as
                (@longest_sequence_st_runs np_sum scalar_pow2 s _ _ _ _ _ _ _ _ Hs)) as V1.
  pose proof (value_of_runs_as
                (@longest_sequence_st_runs np_sum scalar_pow2 s' _ _ _ _ _ _ _ _ Hs')) as V2.
  split; [exists t; exact E1|].
  split; [now rewrite O3, O1|].
  split; [now rewrite O2, O1|].
  split; [now rewrite V2, V1 | exact O1].
Qed.

Lemma chisq_longest_sequence_twice_identical_witness :
  holds_arrays store_M 0 1 2 3 tperiods_M orders_M operiods_N errors_M /\
  holds_arrays store_M_moved 4 3 2 1 tperiods_M orders_M operiods_N errors_M /\
  chisq_longest_sequence_st np_sum_seq pow2 0 1 2 3 store_M
  = (Ok (7.9999999999999982%float, 11, 10),
     store_M ++
     [RowList [mkPair 2.0 2.0 (-4) 0.0; mkPair 3.5 3.0 (-3) 16.0];
      RowArray [mkPair 2.0 2.0 (-4) 0.0; mkPair 3.5 3.0 (-3) 16.0];
      RunList [[mkPair 2.0 2.0 (-4) 0.0; mkPair 2.0 2.0 (-4) 0.0]];
      RowList [mkPair 2.0 2.0 (-4) 0.0; mkPair 2.0 2.0 (-4) 0.0];
      RowList [];
      FloatList [2.0; 3.0]%float;
      IntList [-4; -3]%Z;
      FloatArray [2.0; 3.0]%float;
      FloatList [129600]%float;
      FloatList [15273.506473629428]%float;
      FloatList [86400]%float;
      FloatArray [129600]%float;
      FloatArray [15273.506473629428]%float;
      FloatArray [86400]%float]) /\
  outcome (chisq_longest_sequence_st np_sum_seq pow2 0 1 2 3 store_M)
  = Ok (Some (7.9999999999999982%float, NdArray [2.0; 3.0]%float, [-4; -3]%Z)) /\
  fst (longest_sequence_st np_sum_seq pow2 0 1 2 3 store_M)
  = Ok [mkPair 2.0 2.0 (-4) 0.0; mkPair 2.0 2.0 (-4) 0.0] /\
  (exists t, snd (chisq_longest_sequence_st np_sum_seq pow2 0 1 2 3 store_M) = store_M ++ t) /\
  outcome (chisq_longest_sequence_st np_sum_seq pow2 0 1 2 3
             (snd (chisq_longest_sequence_st np_sum_seq pow2 0 1 2 3 store_M)))
  = outcome (chisq_longest_sequence_st np_sum_seq pow2 0 1 2 3 store_M) /\
  outcome (chisq_longest_sequence_st np_sum_seq pow2 4 3 2 1 store_M_moved)
  = outcome (chisq_longest_sequence_st np_sum_seq pow2 0 1 2 3 store_M) /\
  fst (longest_sequence_st np_sum_seq pow2 4 3 2 1 store_M_moved)
  = fst (longest_sequence_st np_sum_seq pow2 0 1 2 3 store_M) /\
  outcome (chisq_longest_sequence_st np_sum_seq pow2 0 1 2 3 store_M)
  = match chisq_longest_sequence np_sum_seq pow2 tperiods_M orders_M operiods_N errors_M with
    | Ok b => Ok (Some b)
    | Raise e => Raise e
    end.
Proof.
  assert (H : holds_arrays store_M 0 1 2 3 tperiods_M orders_M operiods_N errors_M)
    by (repeat split; reflexivity).
  assert (H' : holds_arrays store_M_moved 4 3 2 1 tperiods_M orders_M operiods_N errors_M)
    by (repeat split; reflexivity).
  split; [exact H|]. split; [exact H'|].
  split; [vm_compute; reflexivity|].
  split; [vm_compute; reflexivity|].
  split; [vm_compute; reflexivity|].
  exact (@chisq_longest_sequence_twice_identical np_sum_seq pow2 store_M store_M_moved
           0 1 2 3 4 3 2 1 tperiods_M orders_M operiods_N errors_M H H').
Defined.
